(** * Linear MCP server (src/index.ts): model and properties

    The server translates protocol requests (read a resource by URI, call a
    tool with JSON arguments) into calls of the Linear SDK and reshapes the
    answers.  This file embeds the adapter class [LinearMCPClient], the zod
    argument schemas, the catalogs of resources, tools and prompts and the
    request handlers, and states what they do as theorems.

    Conventions of the model.
    - A JavaScript [number] that reaches this code is a finite double (tool
      arguments arrive as JSON); it is represented by its exact rational
      value in [Q].  Only comparisons and truthiness are ever applied to it.
    - A string is the sequence of bytes of its UTF-8 encoding.  The
      characters the source looks for (the colon, the slash, the line
      terminators) are told apart in that encoding as in the original.
      [toLowerCase] acts on A-Z: the source only looks its result up in an
      object whose property names are ASCII; the one other character that
      lowers to an ASCII letter is the Kelvin sign, to k, and no property
      name in lower case has a k.
    - [undefined] and [null] in an optional slot are both [None].
    - The Linear SDK is outside the repository.  It is an interface: one
      request constructor per SDK query or mutation, answered by a
      transition on an abstract tracker state.
    - An [async] method is a computation that threads the tracker state,
      may throw, and records the SDK requests it starts and the lines it
      writes to the console, in the order the source starts them.  The
      callbacks of one [Promise.all] are run in list order, each request
      answered as it is sent; a rejected request ends the run, so the
      requests the source had started alongside it are not recorded. *)

From Stdlib Require Import String Ascii List ZArith QArith Bool Lia DecimalString.
From stdpp Require Import base option gmap strings list.

Set Implicit Arguments.
Open Scope string_scope.
Open Scope list_scope.

(** ** JavaScript values *)

Definition number := Q.
Bind Scope Q_scope with number.

(** JSON as delivered by the host: the [arguments] of a tool call. *)
#[warnings="-register-all"]
Inductive Json : Type :=
| JNull
| JBool (b : bool)
| JNum (n : number)
| JStr (s : string)
| JArr (l : list Json)
| JObj (m : gmap string Json).

(** Truthiness, as used by [if (x)] and [x || d]. *)
Definition truthy_number (n : number) : bool := negb (Qeq_bool n 0).
Definition truthy_string (s : string) : bool := negb (String.eqb s "").

(** What a slot typed [priority?: number] holds at run time.  Tool arguments
    are checked by zod and always hold a number; the priority resource reads
    an object literal by an arbitrary key and can pick up a member inherited
    from [Object.prototype], which is a function or an object. *)
Inductive NumberLike : Type :=
| IsNumber (n : number)
| ProtoMember (key : string).

Definition truthy_numberlike (v : NumberLike) : bool :=
  match v with
  | IsNumber n => truthy_number n
  | ProtoMember _ => true
  end.

(** [x || d] on an optional number. *)
Definition number_or (x : option number) (d : number) : number :=
  match x with
  | Some n => if truthy_number n then n else d
  | None => d
  end.

(** [x || null] on an optional string. *)
Definition string_or_null (x : option string) : option string :=
  match x with
  | Some s => if truthy_string s then Some s else None
  | None => None
  end.

Definition lower_char (c : ascii) : ascii :=
  let n := nat_of_ascii c in
  if (65 <=? n)%nat && (n <=? 90)%nat then ascii_of_nat (n + 32) else c.

Fixpoint toLowerCase (s : string) : string :=
  match s with
  | EmptyString => EmptyString
  | String c r => String (lower_char c) (toLowerCase r)
  end.

(** ** zod *)

Inductive PathElem : Type :=
| Key (k : string)
| Index (i : nat).

Inductive ZodIssueCode : Type :=
| invalid_type (expected received : string)
| too_small (minimum : number)
| too_big (maximum : number).

Record ZodIssue : Type := {
  zod_code : ZodIssueCode;
  zod_path : list PathElem;
  zod_message : string
}.

(** A thrown value, as the [catch] blocks of the source tell them apart:
    [instanceof z.ZodError], an [Error] with a [response] property (the SDK's
    request errors), any other [Error], and anything else. *)
Record ErrResponse : Type := {
  resp_status : option Json;
  resp_data : option Json
}.

Inductive JsError : Type :=
| ZodError (issues : list ZodIssue)
| ResponseError (message : string) (response : option ErrResponse)
| Error (message : string)
| NonError (rendered : string).

Inductive NumCheck : Type :=
| z_min (bound : number)
| z_max (bound : number).

Definition zod_type_of (input : option Json) : string :=
  match input with
  | None => "undefined"
  | Some JNull => "null"
  | Some (JBool _) => "boolean"
  | Some (JNum _) => "number"
  | Some (JStr _) => "string"
  | Some (JArr _) => "array"
  | Some (JObj _) => "object"
  end.

Definition ZResult (A : Type) : Type := (list ZodIssue + A)%type.

Definition ZodSchema (A : Type) : Type :=
  list PathElem -> option Json -> ZResult A.

Definition zpure {A} (a : A) : ZResult A := inr a.

(** Object parsing keeps going after a bad field: issues accumulate. *)
Definition zap {A B} (f : ZResult (A -> B)) (x : ZResult A) : ZResult B :=
  match f, x with
  | inr g, inr a => inr (g a)
  | inr _, inl e => inl e
  | inl e, inr _ => inl e
  | inl e1, inl e2 => inl (e1 ++ e2)
  end.

Infix "<&>" := zap (at level 50, left associativity).

Definition z_optional {A} (s : ZodSchema A) : ZodSchema (option A) :=
  fun path input =>
    match input with
    | None => inr None
    | Some _ =>
      match s path input with
      | inl e => inl e
      | inr a => inr (Some a)
      end
    end.

Fixpoint z_elements {A} (s : ZodSchema A) (path : list PathElem) (i : nat)
    (l : list Json) : ZResult (list A) :=
  match l with
  | [] => inr []
  | x :: r =>
    zpure cons <&> s (path ++ [Index i]) (Some x) <&> z_elements s path (S i) r
  end.

Section Server.

(** [String(n)] for a number: the rendering JavaScript puts in a template
    literal.  It is a builtin; the model takes it as given. *)
Variable show_number : number -> string.

Definition invalid_type_issue (expected : string) (input : option Json)
    (path : list PathElem) : ZodIssue :=
  let received := zod_type_of input in
  {| zod_code := invalid_type expected received;
     zod_path := path;
     zod_message :=
       if String.eqb received "undefined" then "Required"
       else "Expected " +:+ expected +:+ ", received " +:+ received |}.

Definition z_string : ZodSchema string :=
  fun path input =>
    match input with
    | Some (JStr s) => inr s
    | _ => inl [invalid_type_issue "string" input path]
    end.

Definition z_boolean : ZodSchema bool :=
  fun path input =>
    match input with
    | Some (JBool b) => inr b
    | _ => inl [invalid_type_issue "boolean" input path]
    end.

Definition run_check (path : list PathElem) (n : number) (c : NumCheck)
    : list ZodIssue :=
  match c with
  | z_min b =>
    if Qle_bool b n then []
    else [{| zod_code := too_small b; zod_path := path;
             zod_message :=
               "Number must be greater than or equal to " +:+ show_number b |}]
  | z_max b =>
    if Qle_bool n b then []
    else [{| zod_code := too_big b; zod_path := path;
             zod_message :=
               "Number must be less than or equal to " +:+ show_number b |}]
  end.

(** [z.number()] followed by its [.min()] / [.max()] checks, in order. *)
Definition z_number (checks : list NumCheck) : ZodSchema number :=
  fun path input =>
    match input with
    | Some (JNum n) =>
      match flat_map (run_check path n) checks with
      | [] => inr n
      | e => inl e
      end
    | _ => inl [invalid_type_issue "number" input path]
    end.

Definition z_array {A} (s : ZodSchema A) : ZodSchema (list A) :=
  fun path input =>
    match input with
    | Some (JArr l) => z_elements s path 0 l
    | _ => inl [invalid_type_issue "array" input path]
    end.

(** One property of a [z.object]: looked up by name, issues carry the name
    as their path.  Keys the schema does not name are dropped. *)
Definition field {A} (k : string) (s : ZodSchema A) (args : gmap string Json)
    : ZResult A :=
  s [Key k] (args !! k).

(** ** Interfaces of the source (lines 23-71) *)

Record CreateIssueArgs : Type := {
  create_title : string;
  create_teamId : string;
  create_description : option string;
  create_priority : option number;
  create_status : option string
}.

Record UpdateIssueArgs : Type := {
  update_id : string;
  update_title : option string;
  update_description : option string;
  update_priority : option number;
  update_status : option string
}.

Record SearchIssuesArgs : Type := {
  search_query : option string;
  search_teamId : option string;
  search_status : option string;
  search_assigneeId : option string;
  search_labels : option (list string);
  search_priority : option NumberLike;
  search_estimate : option number;
  search_includeArchived : option bool;
  search_limit : option number
}.

Record GetUserIssuesArgs : Type := {
  getuser_userId : option string;
  getuser_includeArchived : option bool;
  getuser_limit : option number
}.

Record AddCommentArgs : Type := {
  addc_issueId : string;
  addc_body : string;
  addc_createAsUser : option string;
  addc_displayIconUrl : option string
}.

(** ** The zod schemas (lines 676-716) *)

Definition CreateIssueArgsSchema (args : gmap string Json)
    : ZResult CreateIssueArgs :=
  zpure Build_CreateIssueArgs
    <&> field "title" z_string args
    <&> field "teamId" z_string args
    <&> field "description" (z_optional z_string) args
    <&> field "priority" (z_optional (z_number [z_min 0; z_max 4])) args
    <&> field "status" (z_optional z_string) args.

Definition UpdateIssueArgsSchema (args : gmap string Json)
    : ZResult UpdateIssueArgs :=
  zpure Build_UpdateIssueArgs
    <&> field "id" z_string args
    <&> field "title" (z_optional z_string) args
    <&> field "description" (z_optional z_string) args
    <&> field "priority" (z_optional (z_number [])) args
    <&> field "status" (z_optional z_string) args.

Definition SearchIssuesArgsSchema (args : gmap string Json)
    : ZResult SearchIssuesArgs :=
  zpure (fun query teamId status assigneeId labels priority estimate
             includeArchived limit =>
           {| search_query := query; search_teamId := teamId;
              search_status := status; search_assigneeId := assigneeId;
              search_labels := labels;
              search_priority := option_map IsNumber priority;
              search_estimate := estimate;
              search_includeArchived := includeArchived;
              search_limit := limit |})
    <&> field "query" (z_optional z_string) args
    <&> field "teamId" (z_optional z_string) args
    <&> field "status" (z_optional z_string) args
    <&> field "assigneeId" (z_optional z_string) args
    <&> field "labels" (z_optional (z_array z_string)) args
    <&> field "priority" (z_optional (z_number [])) args
    <&> field "estimate" (z_optional (z_number [])) args
    <&> field "includeArchived" (z_optional z_boolean) args
    <&> field "limit" (z_optional (z_number [])) args.

Definition GetUserIssuesArgsSchema (args : gmap string Json)
    : ZResult GetUserIssuesArgs :=
  zpure Build_GetUserIssuesArgs
    <&> field "userId" (z_optional z_string) args
    <&> field "includeArchived" (z_optional z_boolean) args
    <&> field "limit" (z_optional (z_number [])) args.

Definition AddCommentArgsSchema (args : gmap string Json)
    : ZResult AddCommentArgs :=
  zpure Build_AddCommentArgs
    <&> field "issueId" z_string args
    <&> field "body" z_string args
    <&> field "createAsUser" (z_optional z_string) args
    <&> field "displayIconUrl" (z_optional z_string) args.

(** ** The Linear SDK, as far as the source uses it *)

Record Issue : Type := {
  issue_id : string;
  issue_identifier : string;
  issue_title : string;
  issue_description : option string;
  issue_priority : number;
  issue_estimate : option number;
  issue_url : string;
  (* ids behind the lazy getters [issue.state], [issue.assignee], [issue.team] *)
  issue_state : option string;
  issue_assignee : option string;
  issue_team : option string
}.

Record WorkflowState : Type := { state_id : string; state_name : string }.

Record User : Type := {
  user_id : string;
  user_name : string;
  user_email : string;
  user_admin : bool;
  user_active : bool
}.

Record Team : Type := { team_id : string; team_name : string; team_key : string }.

Record Organization : Type := {
  org_id : string;
  org_name : string;
  org_urlKey : string
}.

Record IssueLabel : Type := { label_id : string; label_name : string }.

Record Comment : Type := {
  comment_id : string;
  comment_body : string;
  comment_url : string;
  comment_issue : option string
}.

Record IssuePayload : Type := { payload_issue : option string }.
Record CommentPayload : Type := { payload_comment : option string }.

(** The filter object handed to [client.issues]. *)
Inductive StringComparator : Type :=
| str_eq (s : string)
| str_contains (s : string)
| str_in (l : list string).

Inductive NumberComparator : Type :=
| num_eq (v : NumberLike).

Inductive TextClause : Type :=
| on_title (c : StringComparator)
| on_description (c : StringComparator).

Record IssueFilter : Type := {
  filter_or : option (list TextClause);
  filter_team : option StringComparator;       (* team: { id: _ } *)
  filter_state : option StringComparator;      (* state: { name: _ } *)
  filter_assignee : option StringComparator;   (* assignee: { id: _ } *)
  filter_labels : option StringComparator;     (* labels: { some: { name: _ } } *)
  filter_priority : option NumberComparator;
  filter_estimate : option NumberComparator
}.

Inductive PaginationOrderBy : Type := CreatedAt | UpdatedAt.

Record IssuesVars : Type := {
  vars_filter : option IssueFilter;
  vars_first : option number;
  vars_includeArchived : option bool;
  vars_orderBy : option PaginationOrderBy
}.

Record IssueCreateInput : Type := {
  ic_title : string;
  ic_teamId : string;
  ic_description : option string;
  ic_priority : option number;
  ic_stateId : option string
}.

Record IssueUpdateInput : Type := {
  iu_title : option string;
  iu_description : option string;
  iu_priority : option number;
  iu_stateId : option string
}.

Record CommentCreateInput : Type := {
  cc_issueId : string;
  cc_body : string;
  cc_createAsUser : option string;
  cc_displayIconUrl : option string
}.

(** One constructor per SDK query ([Q_]) or mutation ([M_]). *)
Inductive Request : Type :=
| Q_issues (vars : IssuesVars)
| Q_issue (id : string)
| Q_issue_labels (issueId : string)
| Q_workflowState (id : string)
| Q_user (id : string)
| Q_viewer
| Q_user_assignedIssues (userId : string) (vars : IssuesVars)
| Q_user_teams (userId : string)
| Q_team (id : string)
| Q_team_issues (teamId : string)
| Q_organization
| Q_organization_teams
| Q_organization_users
| Q_comment (id : string)
| M_issueCreate (input : IssueCreateInput)
| M_issueUpdate (id : string) (input : IssueUpdateInput)
| M_commentCreate (input : CommentCreateInput).

(** What each request resolves to.  A lookup the source guards with
    [if (!x)] or [x?.] may come back empty. *)
Definition Response (c : Request) : Type :=
  match c with
  | Q_issues _ => list Issue
  | Q_issue _ => option Issue
  | Q_issue_labels _ => option (list IssueLabel)
  | Q_workflowState _ => WorkflowState
  | Q_user _ => User
  | Q_viewer => User
  | Q_user_assignedIssues _ _ => option (list Issue)
  | Q_user_teams _ => list Team
  | Q_team _ => option Team
  | Q_team_issues _ => list Issue
  | Q_organization => Organization
  | Q_organization_teams => list Team
  | Q_organization_users => list User
  | Q_comment _ => option Comment
  | M_issueCreate _ => IssuePayload
  | M_issueUpdate _ _ => IssuePayload
  | M_commentCreate _ => CommentPayload
  end.

(** The tracker: an abstract state [W], and what a request does to it and
    answers, or the error it is rejected with. *)
Variable W : Type.
Variable perform : forall c : Request, W -> (JsError + Response c) * W.

(** ** Computations *)

Inductive Event : Type :=
| Sent (c : Request)
| ConsoleError (label : string) (e : JsError).

Record Outcome (A : Type) : Type := {
  result : JsError + A;
  tracker : W;
  trace : list Event
}.

Definition M (A : Type) : Type := W -> Outcome A.

Definition ret {A} (a : A) : M A :=
  fun w => {| result := inr a; tracker := w; trace := [] |}.

Definition throw {A} (e : JsError) : M A :=
  fun w => {| result := inl e; tracker := w; trace := [] |}.

Definition bind {A B} (m : M A) (k : A -> M B) : M B :=
  fun w =>
    let o := m w in
    match result o with
    | inl e => {| result := inl e; tracker := tracker o; trace := trace o |}
    | inr a =>
      let o' := k a (tracker o) in
      {| result := result o'; tracker := tracker o';
         trace := trace o ++ trace o' |}
    end.

#[global] Instance M_ret : MRet M := @ret.
#[global] Instance M_bind : MBind M := fun A B k m => bind m k.

(** [try { body } catch (error) { handler }] *)
Definition try_catch {A} (body : M A) (handler : JsError -> M A) : M A :=
  fun w =>
    let o := body w in
    match result o with
    | inl e =>
      let o' := handler e (tracker o) in
      {| result := result o'; tracker := tracker o';
         trace := trace o ++ trace o' |}
    | inr _ => o
    end.

(** [await] of an SDK request. *)
Definition call (c : Request) : M (Response c) :=
  fun w =>
    let '(r, w') := perform c w in
    {| result := r; tracker := w'; trace := [Sent c] |}.

Definition console_error (label : string) (e : JsError) : M unit :=
  fun w => {| result := inr tt; tracker := w; trace := [ConsoleError label e] |}.

(** [Promise.all(list.map(async ...))] *)
Fixpoint promise_all {A} (l : list (M A)) : M (list A) :=
  match l with
  | [] => ret []
  | m :: r => a ← m; rest ← promise_all r; ret (a :: rest)
  end.

(** The lazy getters of SDK objects: a request when the id is there. *)
Definition Issue_state (issue : Issue) : M (option WorkflowState) :=
  match issue_state issue with
  | Some id => s ← call (Q_workflowState id); ret (Some s)
  | None => ret None
  end.

Definition Issue_assignee (issue : Issue) : M (option User) :=
  match issue_assignee issue with
  | Some id => u ← call (Q_user id); ret (Some u)
  | None => ret None
  end.

Definition Issue_team (issue : Issue) : M (option Team) :=
  match issue_team issue with
  | Some id => call (Q_team id)
  | None => ret None
  end.

Definition IssuePayload_issue (p : IssuePayload) : M (option Issue) :=
  match payload_issue p with
  | Some id => call (Q_issue id)
  | None => ret None
  end.

Definition CommentPayload_comment (p : CommentPayload) : M (option Comment) :=
  match payload_comment p with
  | Some id => call (Q_comment id)
  | None => ret None
  end.

Definition Comment_issue (c : Comment) : M (option Issue) :=
  match comment_issue c with
  | Some id => call (Q_issue id)
  | None => ret None
  end.

(** ** class LinearMCPClient (lines 73-385) *)

Record IssueDetails : Type := {
  details_state : option WorkflowState;
  details_assignee : option User;
  details_team : option Team
}.

Definition getIssueDetails (issue : Issue) : M IssueDetails :=
  state ← Issue_state issue;
  assignee ← Issue_assignee issue;
  team ← Issue_team issue;
  ret {| details_state := state; details_assignee := assignee;
         details_team := team |}.

Record EntryMetadata : Type := {
  meta_identifier : string;
  meta_priority : number;
  meta_status : option string;
  meta_assignee : option string;
  meta_team : option string
}.

Record ResourceEntry : Type := {
  entry_uri : string;
  entry_mimeType : string;
  entry_name : string;
  entry_description : string;
  entry_metadata : EntryMetadata
}.

Definition listIssues : M (list ResourceEntry) :=
  result ← call (Q_issues {| vars_filter := None; vars_first := Some 50%Q;
                             vars_includeArchived := None;
                             vars_orderBy := Some UpdatedAt |});
  promise_all (map (fun issue =>
    details ← getIssueDetails issue;
    ret {| entry_uri := "linear-issue://" +:+ issue_id issue;
           entry_mimeType := "application/json";
           entry_name := issue_title issue;
           entry_description :=
             "Linear issue " +:+ issue_identifier issue +:+ ": "
               +:+ issue_title issue;
           entry_metadata :=
             {| meta_identifier := issue_identifier issue;
                meta_priority := issue_priority issue;
                meta_status := option_map state_name (details_state details);
                meta_assignee := option_map user_name (details_assignee details);
                meta_team := option_map team_name (details_team details) |} |})
    result).

Record IssueView : Type := {
  view_id : string;
  view_identifier : string;
  view_title : string;
  view_description : option string;
  view_priority : number;
  view_status : option string;
  view_assignee : option string;
  view_team : option string;
  view_url : string
}.

Definition getIssue (issueId : string) : M IssueView :=
  result ← call (Q_issue issueId);
  match result with
  | None => throw (Error ("Issue " +:+ issueId +:+ " not found"))
  | Some result =>
    details ← getIssueDetails result;
    ret {| view_id := issue_id result;
           view_identifier := issue_identifier result;
           view_title := issue_title result;
           view_description := issue_description result;
           view_priority := issue_priority result;
           view_status := option_map state_name (details_state details);
           view_assignee := option_map user_name (details_assignee details);
           view_team := option_map team_name (details_team details);
           view_url := issue_url result |}
  end.

Definition createIssue (args : CreateIssueArgs) : M Issue :=
  issuePayload ← call (M_issueCreate
    {| ic_title := create_title args;
       ic_teamId := create_teamId args;
       ic_description := create_description args;
       ic_priority := create_priority args;
       ic_stateId := create_status args |});
  issue ← IssuePayload_issue issuePayload;
  match issue with
  | None => throw (Error "Failed to create issue")
  | Some issue => ret issue
  end.

Definition updateIssue (args : UpdateIssueArgs) : M Issue :=
  issue ← call (Q_issue (update_id args));
  match issue with
  | None => throw (Error ("Issue " +:+ update_id args +:+ " not found"))
  | Some issue =>
    updatePayload ← call (M_issueUpdate (issue_id issue)
      {| iu_title := update_title args;
         iu_description := update_description args;
         iu_priority := update_priority args;
         iu_stateId := update_status args |});
    updatedIssue ← IssuePayload_issue updatePayload;
    match updatedIssue with
    | None => throw (Error "Failed to update issue")
    | Some updatedIssue => ret updatedIssue
    end
  end.

Definition empty_filter : IssueFilter :=
  {| filter_or := None; filter_team := None; filter_state := None;
     filter_assignee := None; filter_labels := None;
     filter_priority := None; filter_estimate := None |}.

(** [if (x) then-branch] on an optional value, with its truthiness. *)
Definition when_truthy {A B} (truthy : A -> bool) (x : option A)
    (update : A -> B -> B) (b : B) : B :=
  match x with
  | Some a => if truthy a then update a b else b
  | None => b
  end.

Definition buildSearchFilter (args : SearchIssuesArgs) : IssueFilter :=
  let filter := empty_filter in
  let filter :=
    when_truthy truthy_string (search_query args) (fun query f =>
      {| filter_or := Some [on_title (str_contains query);
                            on_description (str_contains query)];
         filter_team := filter_team f; filter_state := filter_state f;
         filter_assignee := filter_assignee f;
         filter_labels := filter_labels f;
         filter_priority := filter_priority f;
         filter_estimate := filter_estimate f |}) filter in
  let filter :=
    when_truthy truthy_string (search_teamId args) (fun teamId f =>
      {| filter_or := filter_or f;
         filter_team := Some (str_eq teamId); filter_state := filter_state f;
         filter_assignee := filter_assignee f;
         filter_labels := filter_labels f;
         filter_priority := filter_priority f;
         filter_estimate := filter_estimate f |}) filter in
  let filter :=
    when_truthy truthy_string (search_status args) (fun status f =>
      {| filter_or := filter_or f;
         filter_team := filter_team f; filter_state := Some (str_eq status);
         filter_assignee := filter_assignee f;
         filter_labels := filter_labels f;
         filter_priority := filter_priority f;
         filter_estimate := filter_estimate f |}) filter in
  let filter :=
    when_truthy truthy_string (search_assigneeId args) (fun assigneeId f =>
      {| filter_or := filter_or f;
         filter_team := filter_team f; filter_state := filter_state f;
         filter_assignee := Some (str_eq assigneeId);
         filter_labels := filter_labels f;
         filter_priority := filter_priority f;
         filter_estimate := filter_estimate f |}) filter in
  let filter :=
    when_truthy (fun labels : list string => (0 <? length labels)%nat)
      (search_labels args) (fun labels f =>
      {| filter_or := filter_or f;
         filter_team := filter_team f; filter_state := filter_state f;
         filter_assignee := filter_assignee f;
         filter_labels := Some (str_in labels);
         filter_priority := filter_priority f;
         filter_estimate := filter_estimate f |}) filter in
  let filter :=
    when_truthy truthy_numberlike (search_priority args) (fun priority f =>
      {| filter_or := filter_or f;
         filter_team := filter_team f; filter_state := filter_state f;
         filter_assignee := filter_assignee f;
         filter_labels := filter_labels f;
         filter_priority := Some (num_eq priority);
         filter_estimate := filter_estimate f |}) filter in
  let filter :=
    when_truthy truthy_number (search_estimate args) (fun estimate f =>
      {| filter_or := filter_or f;
         filter_team := filter_team f; filter_state := filter_state f;
         filter_assignee := filter_assignee f;
         filter_labels := filter_labels f;
         filter_priority := filter_priority f;
         filter_estimate := Some (num_eq (IsNumber estimate)) |}) filter in
  filter.

Record SearchRow : Type := {
  row_id : string;
  row_identifier : string;
  row_title : string;
  row_description : option string;
  row_priority : number;
  row_estimate : option number;
  row_status : option string;
  row_assignee : option string;
  row_labels : list string;
  row_url : string
}.

Definition searchIssues (args : SearchIssuesArgs) : M (list SearchRow) :=
  result ← call (Q_issues
    {| vars_filter := Some (buildSearchFilter args);
       vars_first := Some (number_or (search_limit args) 10);
       vars_includeArchived := search_includeArchived args;
       vars_orderBy := None |});
  promise_all (map (fun issue =>
    state ← Issue_state issue;
    assignee ← Issue_assignee issue;
    labels ← call (Q_issue_labels (issue_id issue));
    ret {| row_id := issue_id issue;
           row_identifier := issue_identifier issue;
           row_title := issue_title issue;
           row_description := issue_description issue;
           row_priority := issue_priority issue;
           row_estimate := issue_estimate issue;
           row_status := string_or_null (option_map state_name state);
           row_assignee := string_or_null (option_map user_name assignee);
           row_labels :=
             match labels with
             | Some nodes => map label_name nodes
             | None => []
             end;
           row_url := issue_url issue |})
    result).

(** interface LinearIssueResponse, with the [id] and [description] the
    method also returns. *)
Record UserIssueRow : Type := {
  urow_id : string;
  urow_identifier : string;
  urow_title : string;
  urow_description : option string;
  urow_priority : number;
  urow_status : option string;
  urow_url : string
}.

Definition getUserIssues (args : GetUserIssuesArgs) : M (list UserIssueRow) :=
  try_catch
    (user ←
       match getuser_userId args with
       | Some userId =>
         if truthy_string userId then call (Q_user userId) else call Q_viewer
       | None => call Q_viewer
       end;
     result ← call (Q_user_assignedIssues (user_id user)
       {| vars_filter := None;
          vars_first := Some (number_or (getuser_limit args) 50);
          vars_includeArchived := getuser_includeArchived args;
          vars_orderBy := None |});
     match result with
     | None => ret []
     | Some nodes =>
       promise_all (map (fun issue =>
         state ← Issue_state issue;
         ret {| urow_id := issue_id issue;
                urow_identifier := issue_identifier issue;
                urow_title := issue_title issue;
                urow_description := issue_description issue;
                urow_priority := issue_priority issue;
                urow_status := string_or_null (option_map state_name state);
                urow_url := issue_url issue |})
         nodes)
     end)
    (fun error =>
       _ ← console_error "Error in getUserIssues: " error;
       throw error).

Definition addComment (args : AddCommentArgs) : M (Comment * option Issue) :=
  commentPayload ← call (M_commentCreate
    {| cc_issueId := addc_issueId args;
       cc_body := addc_body args;
       cc_createAsUser := addc_createAsUser args;
       cc_displayIconUrl := addc_displayIconUrl args |});
  comment ← CommentPayload_comment commentPayload;
  match comment with
  | None => throw (Error "Failed to create comment")
  | Some comment =>
    issue ← Comment_issue comment;
    ret (comment, issue)
  end.

Record TeamIssueRow : Type := {
  trow_id : string;
  trow_identifier : string;
  trow_title : string;
  trow_description : option string;
  trow_priority : number;
  trow_status : option string;
  trow_assignee : option string;
  trow_url : string
}.

Definition getTeamIssues (teamId : string) : M (list TeamIssueRow) :=
  team ← call (Q_team teamId);
  match team with
  | None => throw (Error ("Team " +:+ teamId +:+ " not found"))
  | Some team =>
    issues ← call (Q_team_issues (team_id team));
    promise_all (map (fun issue =>
      state ← Issue_state issue;
      assignee ← Issue_assignee issue;
      ret {| trow_id := issue_id issue;
             trow_identifier := issue_identifier issue;
             trow_title := issue_title issue;
             trow_description := issue_description issue;
             trow_priority := issue_priority issue;
             trow_status := option_map state_name state;
             trow_assignee := option_map user_name assignee;
             trow_url := issue_url issue |})
      issues)
  end.

Record TeamSummary : Type := { ts_id : string; ts_name : string; ts_key : string }.

Definition team_summary (team : Team) : TeamSummary :=
  {| ts_id := team_id team; ts_name := team_name team; ts_key := team_key team |}.

Record ViewerInfo : Type := {
  viewer_id : string;
  viewer_name : string;
  viewer_email : string;
  viewer_admin : bool;
  viewer_teams : list TeamSummary;
  viewer_organization : Organization
}.

Definition getViewer : M ViewerInfo :=
  viewer ← call Q_viewer;
  teams ← call (Q_user_teams (user_id viewer));
  organization ← call Q_organization;
  ret {| viewer_id := user_id viewer;
         viewer_name := user_name viewer;
         viewer_email := user_email viewer;
         viewer_admin := user_admin viewer;
         viewer_teams := map team_summary teams;
         viewer_organization := organization |}.

Record OrganizationInfo : Type := {
  oinfo_id : string;
  oinfo_name : string;
  oinfo_urlKey : string;
  oinfo_teams : list TeamSummary;
  oinfo_users : list User
}.

Definition getOrganization : M OrganizationInfo :=
  organization ← call Q_organization;
  teams ← call Q_organization_teams;
  users ← call Q_organization_users;
  ret {| oinfo_id := org_id organization;
         oinfo_name := org_name organization;
         oinfo_urlKey := org_urlKey organization;
         oinfo_teams := map team_summary teams;
         oinfo_users := users |}.

(** ** The resource catalog (lines 482-556 and 748-813) *)

Record TemplateParameter : Type := {
  param_name : string;
  param_type : string;
  param_description : string
}.

Record ResourceTemplate : Type := {
  uriTemplate : string;
  template_name : string;
  template_description : string;
  template_parameters : list TemplateParameter;
  template_examples : list string
}.

Definition resourceTemplates : list ResourceTemplate :=
  [ {| uriTemplate := "linear-issue://{issueId}";
       template_name := "Linear Issue";
       template_description := "A Linear issue with its details, comments, and metadata. Use this to fetch detailed information about a specific issue.";
       template_parameters :=
         [ {| param_name := "issueId"; param_type := "string";
              param_description := "The unique identifier of the Linear issue (e.g., the internal ID)" |} ];
       template_examples := [ "linear-issue://c2b318fb-95d2-4a81-9539-f3268f34af87" ] |};
    {| uriTemplate := "linear-team://{teamId}";
       template_name := "Team Issues";
       template_description := "All active issues belonging to a specific Linear team, including their status, priority, and assignees.";
       template_parameters :=
         [ {| param_name := "teamId"; param_type := "string";
              param_description := "The unique identifier of the Linear team (found in team settings)" |} ];
       template_examples := [ "linear-team://TEAM-123" ] |};
    {| uriTemplate := "linear-user://{userId}";
       template_name := "User Assigned Issues";
       template_description := "Active issues assigned to a specific Linear user. Returns issues sorted by update date.";
       template_parameters :=
         [ {| param_name := "userId"; param_type := "string";
              param_description := "The unique identifier of the Linear user. Use 'me' for the authenticated user" |} ];
       template_examples := [ "linear-user://USER-123"; "linear-user://me" ] |};
    {| uriTemplate := "linear-search://{query}";
       template_name := "Search Linear Issues";
       template_description := "Search for Linear issues with a query string";
       template_parameters :=
         [ {| param_name := "query"; param_type := "string";
              param_description := "Search query for finding issues" |} ];
       template_examples := [ "linear-search://bug"; "linear-search://priority:high" ] |};
    {| uriTemplate := "linear-priority://{level}";
       template_name := "Issues by Priority";
       template_description := "Find Linear issues matching a specific priority level";
       template_parameters :=
         [ {| param_name := "level"; param_type := "string";
              param_description := "Priority level (urgent, high, medium, low, or none)" |} ];
       template_examples := [ "linear-priority://urgent"; "linear-priority://high" ] |} ].

Record Resource : Type := {
  resource_uri : string;
  resource_name : string;
  resource_description : string;
  resource_mimeType : string
}.

Record ListResourcesResult : Type := {
  list_resources : list Resource;
  list_resourceTemplates : list ResourceTemplate
}.

(** The handler of [ListResourcesRequestSchema]. *)
Definition ListResourcesRequest_handler : ListResourcesResult :=
  let resources :=
    [ {| resource_uri := "linear-viewer://";
         resource_name := "Linear User Profile";
         resource_description := "Your Linear user profile information, including teams and permissions";
         resource_mimeType := "application/json" |};
      {| resource_uri := "linear-organization://";
         resource_name := "Linear Organization";
         resource_description := "Details about your Linear organization, including teams and settings";
         resource_mimeType := "application/json" |};
      {| resource_uri := "linear-my-issues://";
         resource_name := "My Linear Issues";
         resource_description := "All issues currently assigned to you";
         resource_mimeType := "application/json" |};
      {| resource_uri := "linear-my-backlog://";
         resource_name := "My Backlog Issues";
         resource_description := "Issues assigned to you in the Backlog";
         resource_mimeType := "application/json" |};
      {| resource_uri := "linear-my-planned://";
         resource_name := "My Planned Issues";
         resource_description := "Issues assigned to you that are Planned this Cycle";
         resource_mimeType := "application/json" |};
      {| resource_uri := "linear-my-in-progress://";
         resource_name := "My In-Progress Issues";
         resource_description := "Issues assigned to you that are currently in progress";
         resource_mimeType := "application/json" |};
      {| resource_uri := "linear-my-under-review://";
         resource_name := "My Under Review Issues";
         resource_description := "Issues assigned to you that are under review";
         resource_mimeType := "application/json" |};
      {| resource_uri := "linear-my-high-priority://";
         resource_name := "My High Priority Issues";
         resource_description := "High priority issues assigned to you";
         resource_mimeType := "application/json" |} ] in
  {| list_resources := resources;
     list_resourceTemplates := resourceTemplates |}.

(** ** Reading a resource (lines 815-1079) *)

(** The regular expression of [uri.match]: anchored at the start, a first
    group of one or more characters other than a colon, then [://], then a
    second group of any characters except line terminators.  The first group
    takes the longest prefix without a colon, and there must be one
    character at least; [://] must follow at once; the second group is the
    rest up to the first line terminator. *)
Fixpoint span_no_colon (s : string) : string * string :=
  match s with
  | EmptyString => (EmptyString, EmptyString)
  | String c r =>
    if Ascii.eqb c ":"%char then (EmptyString, s)
    else let '(a, b) := span_no_colon r in (String c a, b)
  end.

Fixpoint strip_prefix (p s : string) : option string :=
  match p, s with
  | EmptyString, _ => Some s
  | String a p', String b s' =>
    if Ascii.eqb a b then strip_prefix p' s' else None
  | String _ _, EmptyString => None
  end.

(** The line terminators, which the [.] of a pattern does not match: LF, CR,
    U+2028 and U+2029.  The last two are three bytes each in UTF-8, and these
    byte sequences occur nowhere else in a UTF-8 text. *)
Definition line_separator : string :=
  String "226"%char (String "128"%char (String "168"%char EmptyString)).

Definition paragraph_separator : string :=
  String "226"%char (String "128"%char (String "169"%char EmptyString)).

Definition starts_with (p s : string) : bool :=
  match strip_prefix p s with
  | Some _ => true
  | None => false
  end.

(** A line terminator begins at the head of [s]. *)
Definition line_terminator (s : string) : bool :=
  starts_with (String "010"%char EmptyString) s
  || starts_with (String "013"%char EmptyString) s
  || starts_with line_separator s
  || starts_with paragraph_separator s.

Fixpoint until_line_end (s : string) : string :=
  match s with
  | EmptyString => EmptyString
  | String c r =>
    if line_terminator s then EmptyString else String c (until_line_end r)
  end.

Definition uri_match (uri : string) : option (string * string) :=
  let '(protocol, rest) := span_no_colon uri in
  if String.eqb protocol "" then None
  else
    match strip_prefix "://" rest with
    | Some path => Some (protocol, until_line_end path)
    | None => None
    end.

(** The body of a content item: the value the source passes to
    [JSON.stringify]. *)
Inductive ResourceBody : Type :=
| body_organization (organization : OrganizationInfo)
| body_viewer (viewer : ViewerInfo)
| body_user_issues (issues : list UserIssueRow)
| body_search (issues : list SearchRow)
| body_entries (issues : list ResourceEntry)
| body_issue (issue : IssueView)
| body_team_issues (issues : list TeamIssueRow).

Record ResourceContent : Type := {
  content_uri : string;
  content_mimeType : string;
  content_text : ResourceBody
}.

Record ReadResourceResult : Type := { contents : list ResourceContent }.

Definition json_contents (uri : string) (text : ResourceBody)
    : ReadResourceResult :=
  {| contents := [ {| content_uri := uri;
                      content_mimeType := "application/json";
                      content_text := text |} ] |}.

(** The object literals the handler passes to [searchIssues]. *)
Definition no_search_args : SearchIssuesArgs :=
  {| search_query := None; search_teamId := None; search_status := None;
     search_assigneeId := None; search_labels := None;
     search_priority := None; search_estimate := None;
     search_includeArchived := None; search_limit := None |}.

Definition assignee_and_status (assigneeId status : string) : SearchIssuesArgs :=
  {| search_query := None; search_teamId := None;
     search_status := Some status;
     search_assigneeId := Some assigneeId; search_labels := None;
     search_priority := None; search_estimate := None;
     search_includeArchived := None; search_limit := None |}.

Definition assignee_and_priority (assigneeId : string) (priority : number)
    : SearchIssuesArgs :=
  {| search_query := None; search_teamId := None; search_status := None;
     search_assigneeId := Some assigneeId; search_labels := None;
     search_priority := Some (IsNumber priority); search_estimate := None;
     search_includeArchived := None; search_limit := None |}.

Definition query_only (query : string) : SearchIssuesArgs :=
  {| search_query := Some query; search_teamId := None;
     search_status := None; search_assigneeId := None;
     search_labels := None; search_priority := None;
     search_estimate := None; search_includeArchived := None;
     search_limit := None |}.

Definition priority_only (priority : NumberLike) : SearchIssuesArgs :=
  {| search_query := None; search_teamId := None; search_status := None;
     search_assigneeId := None; search_labels := None;
     search_priority := Some priority; search_estimate := None;
     search_includeArchived := None; search_limit := None |}.

Definition priorityMap : gmap string number :=
  {[ "urgent" := 1%Q; "high" := 2%Q; "medium" := 3%Q; "low" := 4%Q;
     "none" := 0%Q ]}.

(** The properties of [Object.prototype], which an object literal inherits. *)
Definition Object_prototype : list string :=
  [ "constructor"; "__proto__"; "hasOwnProperty"; "isPrototypeOf";
    "propertyIsEnumerable"; "toLocaleString"; "toString"; "valueOf";
    "__defineGetter__"; "__defineSetter__"; "__lookupGetter__";
    "__lookupSetter__" ].

(** [object[key]] on an object literal of numbers: an own property, or else
    an inherited one, or else [undefined]. *)
Definition get_property (object : gmap string number) (key : string)
    : option NumberLike :=
  match object !! key with
  | Some n => Some (IsNumber n)
  | None =>
    if existsb (String.eqb key) Object_prototype then Some (ProtoMember key)
    else None
  end.

Definition ReadResourceRequest_handler (uri : string) : M ReadResourceResult :=
  match uri_match uri with
  | None => throw (Error ("Invalid URI format: " +:+ uri))
  | Some (protocol, path) =>
    if String.eqb protocol "linear-organization" then
      organization ← getOrganization;
      ret (json_contents "linear-organization://" (body_organization organization))
    else if String.eqb protocol "linear-viewer" then
      viewer ← getViewer;
      ret (json_contents "linear-viewer://" (body_viewer viewer))
    else if String.eqb protocol "linear-my-issues" then
      issues ← getUserIssues {| getuser_userId := None;
                                getuser_includeArchived := None;
                                getuser_limit := None |};
      ret (json_contents "linear-my-issues://" (body_user_issues issues))
    else if String.eqb protocol "linear-my-backlog" then
      viewer ← getViewer;
      issues ← searchIssues (assignee_and_status (viewer_id viewer) "Backlog");
      ret (json_contents "linear-my-backlog://" (body_search issues))
    else if String.eqb protocol "linear-my-planned" then
      viewer ← getViewer;
      issues ← searchIssues
        (assignee_and_status (viewer_id viewer) "Planned this Cycle");
      ret (json_contents "linear-my-planned://" (body_search issues))
    else if String.eqb protocol "linear-my-in-progress" then
      viewer ← getViewer;
      issues ← searchIssues (assignee_and_status (viewer_id viewer) "In Progress");
      ret (json_contents "linear-my-in-progress://" (body_search issues))
    else if String.eqb protocol "linear-my-under-review" then
      viewer ← getViewer;
      issues ← searchIssues (assignee_and_status (viewer_id viewer) "Under Review");
      ret (json_contents "linear-my-under-review://" (body_search issues))
    else if String.eqb protocol "linear-my-high-priority" then
      viewer ← getViewer;
      urgentIssues ← searchIssues (assignee_and_priority (viewer_id viewer) 1);
      highIssues ← searchIssues (assignee_and_priority (viewer_id viewer) 2);
      let issues := urgentIssues ++ highIssues in
      ret (json_contents "linear-my-high-priority://" (body_search issues))
    else if String.eqb protocol "linear-recent-issues" then
      issues ← listIssues;
      ret (json_contents "linear-recent-issues://" (body_entries issues))
    else if String.eqb protocol "linear-issue" then
      let issueId := path in
      if negb (truthy_string issueId) then
        throw (Error "Issue ID is required for linear-issue resource")
      else
        issue ← getIssue issueId;
        ret (json_contents ("linear-issue://" +:+ issueId) (body_issue issue))
    else if String.eqb protocol "linear-team" then
      let teamId := path in
      if negb (truthy_string teamId) then
        throw (Error "Team ID is required for linear-team resource")
      else
        issues ← getTeamIssues teamId;
        ret (json_contents ("linear-team://" +:+ teamId) (body_team_issues issues))
    else if String.eqb protocol "linear-user" then
      let userId := path in
      if negb (truthy_string userId) then
        throw (Error "User ID is required for linear-user resource")
      else
        issues ← getUserIssues
          {| getuser_userId := if String.eqb userId "me" then None else Some userId;
             getuser_includeArchived := None;
             getuser_limit := None |};
        ret (json_contents ("linear-user://" +:+ userId) (body_user_issues issues))
    else if String.eqb protocol "linear-search" then
      let query := path in
      if negb (truthy_string query) then
        throw (Error "Search query is required for linear-search resource")
      else
        issues ← searchIssues (query_only query);
        ret (json_contents ("linear-search://" +:+ query) (body_search issues))
    else if String.eqb protocol "linear-priority" then
      let level := path in
      if negb (truthy_string level) then
        throw (Error "Priority level is required for linear-priority resource")
      else
        match get_property priorityMap (toLowerCase level) with
        | None =>
          throw (Error ("Invalid priority level: " +:+ level
                        +:+ ". Valid values are: urgent, high, medium, low, none"))
        | Some priority =>
          issues ← searchIssues (priority_only priority);
          ret (json_contents ("linear-priority://" +:+ level) (body_search issues))
        end
    else
      throw (Error ("Unsupported resource URI: " +:+ uri))
  end.

(** ** Calling a tool (lines 1278-1414) *)

(** [request.params]: the protocol layer has checked that [arguments], when
    present, is an object. *)
Record CallToolParams : Type := {
  params_name : string;
  params_arguments : option (gmap string Json)
}.

Record FormattedError : Type := {
  fe_path : list PathElem;
  fe_message : string;
  fe_code : string
}.

(** The [text] of a content item: a string on success; in the [catch]
    block the source puts an object there. *)
Inductive ToolText : Type :=
| text_string (s : string)
| text_error (type message : string) (details : option (list FormattedError))
| text_api_error (message : string) (status data : option Json).

Record ToolContent : Type := { tc_type : string; tc_text : ToolText }.

Record ResultMetadata : Type := { md_error : bool }.

Record ResultError : Type := {
  err_code : string;
  err_content : list ToolContent
}.

Record CallToolResult : Type := {
  res_content : option (list ToolContent);
  res_metadata : option ResultMetadata;
  res_error : option ResultError
}.

Definition text_result (s : string) : CallToolResult :=
  {| res_content := Some [ {| tc_type := "text"; tc_text := text_string s |} ];
     res_metadata := None;
     res_error := None |}.

Definition nl : string := String "010"%char EmptyString.

(** [Schema.parse(args)] *)
Definition parse {A} (r : ZResult A) : M A :=
  match r with
  | inl issues => throw (ZodError issues)
  | inr a => ret a
  end.

(** One line of the listings of [linear_search_issues] and
    [linear_get_user_issues]. *)
Definition issue_line (identifier title : string) (priority : number)
    (status : option string) (url : string) : string :=
  "- " +:+ identifier +:+ ": " +:+ title +:+ nl
    +:+ "  Priority: "
    +:+ (if truthy_number priority then show_number priority else "None") +:+ nl
    +:+ "  Status: "
    +:+ match string_or_null status with Some s => s | None => "None" end +:+ nl
    +:+ "  " +:+ url.

Definition found_text (lines : list string) : string :=
  "Found " +:+ show_number (inject_Z (Z.of_nat (length lines)))
    +:+ " issues:" +:+ nl +:+ String.concat nl lines.

Definition formatError (err : ZodIssue) : FormattedError :=
  {| fe_path := zod_path err;
     fe_message := zod_message err;
     fe_code := "VALIDATION_ERROR" |}.

Definition error_result (type message : string)
    (details : option (list FormattedError)) : CallToolResult :=
  {| res_content :=
       Some [ {| tc_type := "text";
                 tc_text := text_error type message details |} ];
     res_metadata := Some {| md_error := true |};
     res_error := None |}.

(** The [try] block of the handler. *)
Definition tool_try (params : CallToolParams) : M CallToolResult :=
  let name := params_name params in
  match params_arguments params with
  | None => throw (Error "Missing arguments")
  | Some args =>
    if String.eqb name "linear_create_issue" then
      validatedArgs ← parse (CreateIssueArgsSchema args);
      issue ← createIssue validatedArgs;
      ret (text_result ("Created issue " +:+ issue_identifier issue +:+ ": "
                        +:+ issue_title issue +:+ nl
                        +:+ "URL: " +:+ issue_url issue))
    else if String.eqb name "linear_update_issue" then
      validatedArgs ← parse (UpdateIssueArgsSchema args);
      issue ← updateIssue validatedArgs;
      ret (text_result ("Updated issue " +:+ issue_identifier issue +:+ nl
                        +:+ "URL: " +:+ issue_url issue))
    else if String.eqb name "linear_search_issues" then
      validatedArgs ← parse (SearchIssuesArgsSchema args);
      issues ← searchIssues validatedArgs;
      ret (text_result (found_text (map (fun issue =>
        issue_line (row_identifier issue) (row_title issue)
          (row_priority issue) (row_status issue) (row_url issue)) issues)))
    else if String.eqb name "linear_get_user_issues" then
      validatedArgs ← parse (GetUserIssuesArgsSchema args);
      issues ← getUserIssues validatedArgs;
      ret (text_result (found_text (map (fun issue =>
        issue_line (urow_identifier issue) (urow_title issue)
          (urow_priority issue) (urow_status issue) (urow_url issue)) issues)))
    else if String.eqb name "linear_add_comment" then
      validatedArgs ← parse (AddCommentArgsSchema args);
      '(comment, issue) ← addComment validatedArgs;
      ret (text_result ("Added comment to issue "
                        +:+ match issue with
                            | Some issue => issue_identifier issue
                            | None => "undefined"
                            end +:+ nl
                        +:+ "URL: " +:+ comment_url comment))
    else
      throw (Error ("Unknown tool: " +:+ name))
  end.

(** What the [catch] block returns for the error it caught. *)
Definition tool_catch_response (error : JsError) : CallToolResult :=
  match error with
  | ZodError errors =>
    error_result "VALIDATION_ERROR" "Invalid request parameters"
      (Some (map formatError errors))
  | ResponseError message response =>
    {| res_content := None;
       res_metadata := None;
       res_error :=
         Some {| err_code := "linear_api_error";
                 err_content :=
                   [ {| tc_type := "text";
                        tc_text :=
                          text_api_error message
                            (response ≫= resp_status)
                            (response ≫= resp_data) |} ] |} |}
  | Error message => error_result "UNKNOWN_ERROR" message None
  | NonError rendered => error_result "UNKNOWN_ERROR" rendered None
  end.

Definition CallToolRequest_handler (params : CallToolParams) : M CallToolResult :=
  try_catch (tool_try params)
    (fun error =>
       _ ← console_error "Error executing tool:" error;
       ret (tool_catch_response error)).

End Server.

(** ** The tool catalog (lines 387-480 and 1081-1083) *)

(** A property of an input schema; [items] is the element type of an array. *)
Record SchemaProperty : Type := {
  prop_name : string;
  prop_type : string;
  prop_items : option string;
  prop_description : string
}.

Record InputSchema : Type := {
  schema_type : string;
  schema_properties : list SchemaProperty;
  schema_required : option (list string)
}.

Record Tool : Type := {
  tool_name : string;
  tool_description : string;
  tool_inputSchema : InputSchema
}.

Definition createIssueTool : Tool :=
  {| tool_name := "linear_create_issue";
     tool_description := "Creates a new Linear issue with specified details. Use this to create tickets for tasks, bugs, or feature requests. Returns the created issue's identifier and URL. Required fields are title and teamId, with optional description, priority (0-4, where 0 is no priority and 1 is urgent), and status.";
     tool_inputSchema :=
       {| schema_type := "object";
          schema_properties :=
            [ {| prop_name := "title"; prop_type := "string";
                 prop_items := None;
                 prop_description := "Issue title" |};
              {| prop_name := "teamId"; prop_type := "string";
                 prop_items := None;
                 prop_description := "Team ID" |};
              {| prop_name := "description"; prop_type := "string";
                 prop_items := None;
                 prop_description := "Issue description" |};
              {| prop_name := "priority"; prop_type := "number";
                 prop_items := None;
                 prop_description := "Priority (0-4)" |};
              {| prop_name := "status"; prop_type := "string";
                 prop_items := None;
                 prop_description := "Issue status" |} ];
          schema_required := Some [ "title"; "teamId" ] |} |}.

Definition updateIssueTool : Tool :=
  {| tool_name := "linear_update_issue";
     tool_description := "Updates an existing Linear issue's properties. Use this to modify issue details like title, description, priority, or status. Requires the issue ID and accepts any combination of updatable fields. Returns the updated issue's identifier and URL.";
     tool_inputSchema :=
       {| schema_type := "object";
          schema_properties :=
            [ {| prop_name := "id"; prop_type := "string";
                 prop_items := None;
                 prop_description := "Issue ID" |};
              {| prop_name := "title"; prop_type := "string";
                 prop_items := None;
                 prop_description := "New title" |};
              {| prop_name := "description"; prop_type := "string";
                 prop_items := None;
                 prop_description := "New description" |};
              {| prop_name := "priority"; prop_type := "number";
                 prop_items := None;
                 prop_description := "New priority (0-4)" |};
              {| prop_name := "status"; prop_type := "string";
                 prop_items := None;
                 prop_description := "New status" |} ];
          schema_required := Some [ "id" ] |} |}.

Definition searchIssuesTool : Tool :=
  {| tool_name := "linear_search_issues";
     tool_description := "Searches Linear issues using flexible criteria. Supports filtering by any combination of: title/description text, team, status, assignee, labels, priority (1=urgent, 2=high, 3=normal, 4=low), and estimate. Returns up to 10 issues by default (configurable via limit).";
     tool_inputSchema :=
       {| schema_type := "object";
          schema_properties :=
            [ {| prop_name := "query"; prop_type := "string";
                 prop_items := None;
                 prop_description := "Optional text to search in title and description" |};
              {| prop_name := "teamId"; prop_type := "string";
                 prop_items := None;
                 prop_description := "Filter by team ID" |};
              {| prop_name := "status"; prop_type := "string";
                 prop_items := None;
                 prop_description := "Filter by status name (e.g., 'In Progress', 'Done')" |};
              {| prop_name := "assigneeId"; prop_type := "string";
                 prop_items := None;
                 prop_description := "Filter by assignee's user ID" |};
              {| prop_name := "labels"; prop_type := "array";
                 prop_items := Some "string";
                 prop_description := "Filter by label names" |};
              {| prop_name := "priority"; prop_type := "number";
                 prop_items := None;
                 prop_description := "Filter by priority (1=urgent, 2=high, 3=normal, 4=low)" |};
              {| prop_name := "estimate"; prop_type := "number";
                 prop_items := None;
                 prop_description := "Filter by estimate points" |};
              {| prop_name := "includeArchived"; prop_type := "boolean";
                 prop_items := None;
                 prop_description := "Include archived issues in results (default: false)" |};
              {| prop_name := "limit"; prop_type := "number";
                 prop_items := None;
                 prop_description := "Max results to return (default: 10)" |} ];
          schema_required := None |} |}.

Definition getUserIssuesTool : Tool :=
  {| tool_name := "linear_get_user_issues";
     tool_description := "Retrieves issues assigned to a specific user or the authenticated user if no userId is provided. Returns issues sorted by last updated, including priority, status, and other metadata. Useful for finding a user's workload or tracking assigned tasks.";
     tool_inputSchema :=
       {| schema_type := "object";
          schema_properties :=
            [ {| prop_name := "userId"; prop_type := "string";
                 prop_items := None;
                 prop_description := "Optional user ID. If not provided, returns authenticated user's issues" |};
              {| prop_name := "includeArchived"; prop_type := "boolean";
                 prop_items := None;
                 prop_description := "Include archived issues in results" |};
              {| prop_name := "limit"; prop_type := "number";
                 prop_items := None;
                 prop_description := "Maximum number of issues to return (default: 50)" |} ];
          schema_required := None |} |}.

Definition addCommentTool : Tool :=
  {| tool_name := "linear_add_comment";
     tool_description := "Adds a comment to an existing Linear issue. Supports markdown formatting in the comment body. Can optionally specify a custom user name and avatar for the comment. Returns the created comment's details including its URL.";
     tool_inputSchema :=
       {| schema_type := "object";
          schema_properties :=
            [ {| prop_name := "issueId"; prop_type := "string";
                 prop_items := None;
                 prop_description := "ID of the issue to comment on" |};
              {| prop_name := "body"; prop_type := "string";
                 prop_items := None;
                 prop_description := "Comment text in markdown format" |};
              {| prop_name := "createAsUser"; prop_type := "string";
                 prop_items := None;
                 prop_description := "Optional custom username to show for the comment" |};
              {| prop_name := "displayIconUrl"; prop_type := "string";
                 prop_items := None;
                 prop_description := "Optional avatar URL for the comment" |} ];
          schema_required := Some [ "issueId"; "body" ] |} |}.

Record ListToolsResult : Type := { tools : list Tool }.

(** The handler of [ListToolsRequestSchema]. *)
Definition ListToolsRequest_handler : ListToolsResult :=
  {| tools := [ createIssueTool; updateIssueTool; searchIssuesTool;
                getUserIssuesTool; addCommentTool ] |}.

Record ListResourceTemplatesResult : Type := {
  templates_resourceTemplates : list ResourceTemplate
}.

(** The handler of [ListResourceTemplatesRequestSchema]. *)
Definition ListResourceTemplatesRequest_handler : ListResourceTemplatesResult :=
  {| templates_resourceTemplates := resourceTemplates |}.

(** ** The prompts (lines 558-674 and 1091-1276) *)

Record PromptArgument : Type := {
  parg_name : string;
  parg_description : string;
  parg_required : bool
}.

Record Prompt : Type := {
  prompt_name : string;
  prompt_description : string;
  prompt_arguments : list PromptArgument
}.

Definition createIssuePrompt : Prompt :=
  {| prompt_name := "create-issue";
     prompt_description := "Create a well-structured Linear issue with all necessary details";
     prompt_arguments :=
       [ {| parg_name := "issueType";
            parg_description := "Type of issue (bug, feature, task, etc.)";
            parg_required := false |};
         {| parg_name := "component";
            parg_description := "Component or area affected (UI, API, backend, etc.)";
            parg_required := false |} ] |}.

Definition bugReportPrompt : Prompt :=
  {| prompt_name := "bug-report";
     prompt_description := "File a detailed bug report with reproduction steps";
     prompt_arguments :=
       [ {| parg_name := "severity";
            parg_description := "How severe is this bug (critical, high, medium, low)";
            parg_required := false |};
         {| parg_name := "browser";
            parg_description := "Browser info if relevant";
            parg_required := false |};
         {| parg_name := "platform";
            parg_description := "Platform info if relevant (OS, device, etc.)";
            parg_required := false |} ] |}.

Definition sprintPlanningPrompt : Prompt :=
  {| prompt_name := "sprint-planning";
     prompt_description := "Analyze and organize issues for sprint planning";
     prompt_arguments :=
       [ {| parg_name := "teamId";
            parg_description := "ID of the team planning the sprint";
            parg_required := true |};
         {| parg_name := "sprintDuration";
            parg_description := "Duration of the sprint in weeks";
            parg_required := false |};
         {| parg_name := "sprintGoals";
            parg_description := "Primary goals for this sprint";
            parg_required := false |} ] |}.

Definition workStatusPrompt : Prompt :=
  {| prompt_name := "work-status";
     prompt_description := "Generate a status report of work items and progress";
     prompt_arguments :=
       [ {| parg_name := "timeframe";
            parg_description := "Timeframe to report on (today, week, sprint)";
            parg_required := false |};
         {| parg_name := "userId";
            parg_description := "User ID to report on (defaults to current user)";
            parg_required := false |};
         {| parg_name := "format";
            parg_description := "Report format (summary, detailed)";
            parg_required := false |} ] |}.

Definition searchHelperPrompt : Prompt :=
  {| prompt_name := "search-helper";
     prompt_description := "Find issues with guided search parameters";
     prompt_arguments :=
       [ {| parg_name := "keywords";
            parg_description := "Keywords to search for";
            parg_required := false |};
         {| parg_name := "status";
            parg_description := "Issue status to filter by";
            parg_required := false |};
         {| parg_name := "assignee";
            parg_description := "Filter by assignee (username or 'me')";
            parg_required := false |};
         {| parg_name := "priority";
            parg_description := "Priority level (urgent, high, normal, low)";
            parg_required := false |} ] |}.

Definition linearPrompts : list Prompt :=
  [ createIssuePrompt; bugReportPrompt; sprintPlanningPrompt;
    workStatusPrompt; searchHelperPrompt ].

Record ListPromptsResult : Type := { prompts : list Prompt }.

(** The handler of [ListPromptsRequestSchema]. *)
Definition ListPromptsRequest_handler : ListPromptsResult :=
  {| prompts := linearPrompts |}.

(** [request.params] of a prompt request; the values of [arguments] are
    strings. *)
Record GetPromptParams : Type := {
  get_name : string;
  get_arguments : option (gmap string string)
}.

(** [{ role, content: { type, text } }] *)
Record PromptMessage : Type := {
  message_role : string;
  message_type : string;
  message_text : string
}.

Record GetPromptResult : Type := { messages : list PromptMessage }.

(** What the handler does: the line it writes to the console, given by its
    label and the request the source passes to [JSON.stringify], and the
    result it returns or the error it throws. *)
Record PromptOutcome : Type := {
  prompt_logged : string * GetPromptParams;
  prompt_result : JsError + GetPromptResult
}.

Definition dq : string := String "034"%char EmptyString.

(** [request.params.arguments?.key] *)
Definition argument (params : GetPromptParams) (key : string) : option string :=
  match get_arguments params with
  | Some arguments => arguments !! key
  | None => None
  end.

(** [x || d] on an optional string. *)
Definition string_or (x : option string) (d : string) : string :=
  match x with
  | Some s => if truthy_string s then s else d
  | None => d
  end.

(** An optional string inside a template literal. *)
Definition render (x : option string) : string :=
  match x with
  | Some s => s
  | None => "undefined"
  end.

Definition two_turns (user assistant : string) : GetPromptResult :=
  {| messages :=
       [ {| message_role := "user"; message_type := "text";
            message_text := user |};
         {| message_role := "assistant"; message_type := "text";
            message_text := assistant |} ] |}.

Definition GetPromptRequest_handler (params : GetPromptParams) : PromptOutcome :=
  {| prompt_logged := ("GetPromptRequestSchema", params);
     prompt_result :=
       let name := get_name params in
       if String.eqb name (prompt_name createIssuePrompt) then
         let issueType := string_or (argument params "issueType") "task" in
         let component := string_or (argument params "component") "" in
         inr (two_turns
          ("I need to create a new " +:+ issueType +:+ " in Linear"
            +:+ (if truthy_string component then " for the " +:+ component +:+ " component" else "")
            +:+ ".")
          ("I'll help you create a new " +:+ issueType
            +:+ (if truthy_string component then " for " +:+ component else "")
            +:+ ". Let's gather the necessary details:" +:+ nl +:+ nl
            +:+ "1. What should be the title of this " +:+ issueType +:+ "?"
            +:+ nl
            +:+ "2. Please provide a description with all relevant details"
            +:+ (if String.eqb issueType "bug" then ", including reproduction steps" else "")
            +:+ "." +:+ nl +:+ "3. Which team should this be assigned to?"
            +:+ nl
            +:+ "4. What priority level would you assign (urgent, high, normal, low)?"
            +:+ nl +:+ "5. Any specific status you want to set initially?"))
       else if String.eqb name (prompt_name bugReportPrompt) then
         let severity := string_or (argument params "severity") "medium" in
         let browser := string_or (argument params "browser") "" in
         let platform := string_or (argument params "platform") "" in
         inr (two_turns
          ("I need to file a " +:+ severity +:+ " severity bug report"
            +:+ (if truthy_string browser then " affecting " +:+ browser else "")
            +:+ (if truthy_string platform then " on " +:+ platform else "")
            +:+ ".")
          ("I'll help you create a detailed bug report. Please provide the following information:"
            +:+ nl +:+ nl +:+ "1. Bug title: (Brief summary of the issue)"
            +:+ nl +:+ "2. Reproduction steps:" +:+ nl +:+ "   - Step 1:"
            +:+ nl +:+ "   - Step 2:" +:+ nl +:+ "   - ..." +:+ nl
            +:+ "3. Expected behavior:" +:+ nl +:+ "4. Actual behavior:"
            +:+ nl +:+ "5. Screenshots/videos: (if available)" +:+ nl
            +:+ "6. Additional context:"
            +:+ (if truthy_string browser then nl +:+ "7. Browser: " +:+ browser else "")
            +:+ (if truthy_string platform then nl +:+ "8. Platform: " +:+ platform else "")
            +:+ nl +:+ nl
            +:+ "Once you provide this information, I'll help you create a well-structured bug report in Linear with the appropriate priority level ("
            +:+ severity +:+ ")."))
       else if String.eqb name (prompt_name sprintPlanningPrompt) then
         let teamId := argument params "teamId" in
         let sprintDuration := string_or (argument params "sprintDuration") "2" in
         let sprintGoals := string_or (argument params "sprintGoals") "" in
         inr (two_turns
          ("I need help planning a " +:+ sprintDuration
            +:+ "-week sprint for team " +:+ (render teamId)
            +:+ (if truthy_string sprintGoals then " with these goals: " +:+ sprintGoals else "")
            +:+ ".")
          ("I'll help you plan your " +:+ sprintDuration
            +:+ "-week sprint for team " +:+ (render teamId)
            +:+ ". Let me gather some information about the current backlog and in-progress work."
            +:+ nl +:+ nl +:+ "First, I'll need to:" +:+ nl
            +:+ "1. Check existing issues for team " +:+ (render teamId)
            +:+ nl +:+ "2. Analyze current workload distribution" +:+ nl
            +:+ "3. Review any carried-over work from previous sprints" +:+ nl
            +:+ nl
            +:+ (if truthy_string sprintGoals then "Based on your sprint goals (" +:+ sprintGoals +:+ "), " else "")
            +:+ "Would you like me to:" +:+ nl
            +:+ "- Suggest issues to include in this sprint?" +:+ nl
            +:+ "- Help prioritize existing backlog items?" +:+ nl
            +:+ "- Analyze team capacity?" +:+ nl
            +:+ "- Create sprint planning meeting notes?"))
       else if String.eqb name (prompt_name workStatusPrompt) then
         let timeframe := string_or (argument params "timeframe") "week" in
         let userId := string_or (argument params "userId") "me" in
         let format := string_or (argument params "format") "summary" in
         inr (two_turns
          ("Generate a " +:+ format +:+ " work status report for "
            +:+ (if String.eqb userId "me" then "my" else userId +:+ "'s")
            +:+ " tasks over the past " +:+ timeframe +:+ ".")
          ("I'll generate a " +:+ format +:+ " work status report for "
            +:+ (if String.eqb userId "me" then "your" else userId +:+ "'s")
            +:+ " tasks over the past " +:+ timeframe +:+ "." +:+ nl +:+ nl
            +:+ "I'll analyze:" +:+ nl +:+ "- Completed issues" +:+ nl
            +:+ "- In-progress work" +:+ nl +:+ "- Upcoming/planned tasks"
            +:+ nl +:+ "- Any blockers or dependencies" +:+ nl +:+ nl
            +:+ "Would you like me to include any specific information in this report, such as time estimates or specific projects?"))
       else if String.eqb name (prompt_name searchHelperPrompt) then
         let keywords := string_or (argument params "keywords") "" in
         let status := string_or (argument params "status") "" in
         let assignee := string_or (argument params "assignee") "" in
         let priority := string_or (argument params "priority") "" in
         let searchQuery := "I need to find issues" in
         let searchQuery :=
           if truthy_string keywords
           then searchQuery +:+ " containing " +:+ dq +:+ keywords +:+ dq
           else searchQuery in
         let searchQuery :=
           if truthy_string status
           then searchQuery +:+ " with status " +:+ dq +:+ status +:+ dq
           else searchQuery in
         let searchQuery :=
           if truthy_string assignee
           then searchQuery +:+ " assigned to "
                  +:+ (if String.eqb assignee "me" then "me" else assignee)
           else searchQuery in
         let searchQuery :=
           if truthy_string priority
           then searchQuery +:+ " with " +:+ priority +:+ " priority"
           else searchQuery in
         inr (two_turns searchQuery
          ("I'll help you search for issues in Linear with these criteria:"
            +:+ nl
            +:+ (if truthy_string keywords then "- Keywords: " +:+ dq +:+ keywords +:+ dq +:+ nl else "")
            +:+ (if truthy_string status then "- Status: " +:+ dq +:+ status +:+ dq +:+ nl else "")
            +:+ (if truthy_string assignee then "- Assignee: " +:+ (if String.eqb assignee "me" then "You" else assignee) +:+ nl else "")
            +:+ (if truthy_string priority then "- Priority: " +:+ priority +:+ nl else "")
            +:+ nl +:+ nl +:+ "Would you like to:" +:+ nl
            +:+ "1. Add any other search filters?" +:+ nl
            +:+ "2. Sort results in a specific way?" +:+ nl
            +:+ "3. Limit the number of results?" +:+ nl
            +:+ "4. Include archived issues?"))
       else
         inl (Error ("Prompt not found: " +:+ name)) |}.

(** ** Vocabulary of the statements *)

(** The schemes [ReadResourceRequest_handler] has a branch for. *)
Definition recognized_schemes : list string :=
  [ "linear-organization"; "linear-viewer"; "linear-my-issues";
    "linear-my-backlog"; "linear-my-planned"; "linear-my-in-progress";
    "linear-my-under-review"; "linear-my-high-priority";
    "linear-recent-issues"; "linear-issue"; "linear-team"; "linear-user";
    "linear-search"; "linear-priority" ].

(** The scheme of a URI in the words of the specification: the prefix
    before the first [://], when there is one. *)
Fixpoint scheme_before_separator (uri : string) : option string :=
  match strip_prefix "://" uri with
  | Some _ => Some EmptyString
  | None =>
    match uri with
    | EmptyString => None
    | String c r => option_map (String c) (scheme_before_separator r)
    end
  end.

Fixpoint has_colon (s : string) : bool :=
  match s with
  | EmptyString => false
  | String c r => Ascii.eqb c ":"%char || has_colon r
  end.

(** The searches among the requests of a trace. *)
Fixpoint issue_searches (t : list Event) : list IssuesVars :=
  match t with
  | [] => []
  | Sent (Q_issues vars) :: r => vars :: issue_searches r
  | _ :: r => issue_searches r
  end.

(** A request about workflow states: the only way to learn the id that a
    state name stands for. *)
Definition is_state_lookup (ev : Event) : bool :=
  match ev with
  | Sent (Q_workflowState _) => true
  | _ => false
  end.

(** A response that reports a failure: the [metadata.error] flag is set, or
    there is a top-level [error] member. *)
Definition error_shaped (r : CallToolResult) : bool :=
  match res_metadata r, res_error r with
  | Some md, _ => md_error md
  | None, Some _ => true
  | None, None => false
  end.

Definition issues_of {A} (r : ZResult A) : list ZodIssue :=
  match r with
  | inl issues => issues
  | inr _ => []
  end.

(** Whom [getUserIssues] asks the tracker for: the user of the given id, or
    the viewer when the id is absent or empty. *)
Definition resolution_request (args : GetUserIssuesArgs) : Request :=
  match getuser_userId args with
  | Some id => if String.eqb id "" then Q_viewer else Q_user id
  | None => Q_viewer
  end.

(** The tracker's answer to that request. *)
Definition resolution {W : Type}
    (perform : forall c : Request, W -> (JsError + Response c) * W)
    (args : GetUserIssuesArgs) (w : W) : (JsError + User) * W :=
  match getuser_userId args with
  | Some id => if String.eqb id "" then perform Q_viewer w else perform (Q_user id) w
  | None => perform Q_viewer w
  end.

(** The page size [getUserIssues] asks for: the limit, or 50 when the limit
    is absent or zero. *)
Definition user_issues_cap (args : GetUserIssuesArgs) : number :=
  match getuser_limit args with
  | Some n => if Qeq_bool n 0 then 50%Q else n
  | None => 50%Q
  end.

Definition assigned_issues_request (args : GetUserIssuesArgs) (user : User)
    : Request :=
  Q_user_assignedIssues (user_id user)
    {| vars_filter := None;
       vars_first := Some (user_issues_cap args);
       vars_includeArchived := getuser_includeArchived args;
       vars_orderBy := None |}.

(** The schema reports an issue at the path [priority]. *)
Definition rejects_priority {A} (r : ZResult A) : Prop :=
  exists i, i ∈ issues_of r /\ zod_path i = [Key "priority"].

Definition is_integer (n : number) : bool :=
  (Qnum n mod Zpos (Qden n) =? 0)%Z.

(** The issues with which the schema of a tool refuses the arguments. *)
Definition failure {A} (r : ZResult A) : option (list ZodIssue) :=
  match r with
  | inl issues => Some issues
  | inr _ => None
  end.

Definition validation_failure (show_number : number -> string) (name : string)
    (args : gmap string Json) : option (list ZodIssue) :=
  if String.eqb name "linear_create_issue" then
    failure (CreateIssueArgsSchema show_number args)
  else if String.eqb name "linear_update_issue" then
    failure (UpdateIssueArgsSchema show_number args)
  else if String.eqb name "linear_search_issues" then
    failure (SearchIssuesArgsSchema show_number args)
  else if String.eqb name "linear_get_user_issues" then
    failure (GetUserIssuesArgsSchema show_number args)
  else if String.eqb name "linear_add_comment" then
    failure (AddCommentArgsSchema args)
  else None.

(** A tracker that answers every request. *)
Definition answers {W : Type}
    (perform : forall c : Request, W -> (JsError + Response c) * W) : Prop :=
  forall c w, exists r, fst (perform c w) = inr r.


(** Every event of every run satisfies [P]. *)
Definition only {W A} (P : Event -> Prop) (m : M W A) : Prop :=
  forall w, Forall P (trace (m w)).

Definition not_a_search (ev : Event) : Prop :=
  match ev with
  | Sent (Q_issues _) => False
  | _ => True
  end.

Definition not_a_state_lookup (ev : Event) : Prop := is_state_lookup ev = false.

(** The variables [searchIssues] passes to [client.issues]. *)
Definition search_vars (args : SearchIssuesArgs) : IssuesVars :=
  {| vars_filter := Some (buildSearchFilter args);
     vars_first := Some (number_or (search_limit args) 10);
     vars_includeArchived := search_includeArchived args;
     vars_orderBy := None |}.

(** Every issue a schema reports lies at or under the path it was given. *)
Definition well_pathed {A} (s : ZodSchema A) : Prop :=
  forall path input i, i ∈ issues_of (s path input) -> path `prefix_of` zod_path i.

(** The schemes whose branch of [ReadResourceRequest_handler] does not read
    the path. *)
Definition parameterless_schemes : list string :=
  [ "linear-organization"; "linear-viewer"; "linear-my-issues";
    "linear-my-backlog"; "linear-my-planned"; "linear-my-in-progress";
    "linear-my-under-review"; "linear-my-high-priority";
    "linear-recent-issues" ].

Definition is_parameterless (scheme : string) : bool :=
  existsb (String.eqb scheme) parameterless_schemes.

(** A request that changes the tracker. *)
Definition is_mutation (ev : Event) : bool :=
  match ev with
  | Sent (M_issueCreate _) | Sent (M_issueUpdate _ _) | Sent (M_commentCreate _) => true
  | _ => false
  end.

Definition not_a_mutation (ev : Event) : Prop := is_mutation ev = false.

(** The number of requests in a trace. *)
Fixpoint count_sent (t : list Event) : nat :=
  match t with
  | [] => 0
  | Sent _ :: r => S (count_sent r)
  | ConsoleError _ _ :: r => count_sent r
  end.

(** The number of mutations in a trace. *)
Definition count_mutations (t : list Event) : nat :=
  length (filter (fun ev => is_mutation ev = true) t).

(** A tracker that rejects every request with the same error. *)
Definition rejects_all {W : Type}
    (perform : forall c : Request, W -> (JsError + Response c) * W)
    (e : JsError) : Prop :=
  forall c w, fst (perform c w) = inl e.

(** The names [priorityMap] holds, and the lower-case names it inherits. *)
Definition priority_level_names : list string :=
  [ "urgent"; "high"; "medium"; "low"; "none" ].

Definition inherited_lowercase_names : list string :=
  [ "constructor"; "__proto__" ].

(** The related objects an issue refers to. *)
Definition related_ids (issue : Issue) : list string :=
  omap id [issue_state issue; issue_assignee issue; issue_team issue].

(** A computation all of whose runs send one mutation at most. *)
Definition at_most_one_mutation {W A} (m : M W A) : Prop :=
  forall w, count_mutations (trace (m w)) <= 1.

(** The input schema of a tool descriptor, read as JSON Schema: the type
    names, the element type of an array, the required properties. *)
Definition json_is (type : string) (v : Json) : bool :=
  match v with
  | JNull => String.eqb type "null"
  | JBool _ => String.eqb type "boolean"
  | JNum _ => String.eqb type "number"
  | JStr _ => String.eqb type "string"
  | JArr _ => String.eqb type "array"
  | JObj _ => String.eqb type "object"
  end.

Definition json_type_ok (type : string) (items : option string) (v : Json) : bool :=
  json_is type v
  && match v, items with
     | JArr l, Some element => forallb (json_is element) l
     | _, _ => true
     end.

Definition typed_as (type : string) (items : option string) (o : option Json)
    : Prop :=
  match o with
  | Some v => json_type_ok type items v = true
  | None => True
  end.

Definition conforms (schema : InputSchema) (args : gmap string Json) : Prop :=
  Forall (fun k => is_Some (args !! k)) (default [] (schema_required schema))
  /\ Forall (fun p => typed_as (prop_type p) (prop_items p) (args !! prop_name p))
       (schema_properties schema).

(** The number, or the boolean, a JSON object holds under a key. *)
Definition json_number (o : option Json) : option number :=
  match o with
  | Some (JNum n) => Some n
  | _ => None
  end.

Definition json_boolean (o : option Json) : option bool :=
  match o with
  | Some (JBool b) => Some b
  | _ => None
  end.

(** A computation that returns a value from every state of the tracker. *)
Definition succeeds {W A} (m : M W A) : Prop :=
  forall w, exists a, result (m w) = inr a.

(** ** Trackers to run the model on *)

Definition demo_issue (n : string) : Issue :=
  {| issue_id := "id-" +:+ n;
     issue_identifier := "ENG-" +:+ n;
     issue_title := "Issue " +:+ n;
     issue_description := None;
     issue_priority := 1;
     issue_estimate := None;
     issue_url := "https://linear.app/demo/issue/ENG-" +:+ n;
     issue_state := Some "state-1";
     issue_assignee := Some "user-1";
     issue_team := Some "team-1" |}.

Definition demo_user : User :=
  {| user_id := "user-1"; user_name := "Ada"; user_email := "ada@example.com";
     user_admin := false; user_active := true |}.

Definition demo_team : Team :=
  {| team_id := "team-1"; team_name := "Engineering"; team_key := "ENG" |}.

Definition demo_answer (c : Request) : Response c :=
  match c with
  | Q_issues _ => [demo_issue "1"; demo_issue "2"]
  | Q_issue _ => Some (demo_issue "1")
  | Q_issue_labels _ => Some [ {| label_id := "label-1"; label_name := "bug" |} ]
  | Q_workflowState id => {| state_id := id; state_name := "In Progress" |}
  | Q_user _ => demo_user
  | Q_viewer => demo_user
  | Q_user_assignedIssues _ _ => Some [demo_issue "1"]
  | Q_user_teams _ => [demo_team]
  | Q_team _ => Some demo_team
  | Q_team_issues _ => [demo_issue "1"; demo_issue "2"]
  | Q_organization =>
    {| org_id := "org-1"; org_name := "Demo"; org_urlKey := "demo" |}
  | Q_organization_teams => [demo_team]
  | Q_organization_users => [demo_user]
  | Q_comment id =>
    Some {| comment_id := id; comment_body := "hello";
            comment_url := "https://linear.app/demo/comment"; 
            comment_issue := Some "id-1" |}
  | M_issueCreate _ => {| payload_issue := Some "id-1" |}
  | M_issueUpdate id _ => {| payload_issue := Some id |}
  | M_commentCreate _ => {| payload_comment := Some "comment-1" |}
  end.

(** A tracker that answers every request, and counts them. *)
Definition demo_perform (c : Request) (w : nat) : (JsError + Response c) * nat :=
  (inr (demo_answer c), S w).

(** A tracker that rejects every request. *)
Definition offline_perform (c : Request) (w : nat)
    : (JsError + Response c) * nat :=
  (inl (ResponseError "Network request failed" None), w).

(** A rendering of numbers for the examples: the integer part, in decimal. *)
Definition show_integer_part (n : number) : string :=
  NilZero.string_of_int (Z.to_int (Qnum n / Zpos (Qden n))).

(** ** Inputs of the examples *)

(** [{ teamId: "", labels: [] }] *)
Definition args_empty_values : SearchIssuesArgs :=
  {| search_query := None; search_teamId := Some "";
     search_status := None; search_assigneeId := None;
     search_labels := Some []; search_priority := None;
     search_estimate := None; search_includeArchived := None;
     search_limit := None |}.

(** [{ query: "crash", teamId: "team-1", labels: ["bug"], priority: 2 }] *)
Definition args_crash : SearchIssuesArgs :=
  {| search_query := Some "crash"; search_teamId := Some "team-1";
     search_status := None; search_assigneeId := None;
     search_labels := Some ["bug"]; search_priority := Some (IsNumber 2);
     search_estimate := None; search_includeArchived := None;
     search_limit := None |}.

(** [{ query: "x", teamId: "team-1", priority: 0 }] *)
Definition args_zero_priority : SearchIssuesArgs :=
  {| search_query := Some "x"; search_teamId := Some "team-1";
     search_status := None; search_assigneeId := None;
     search_labels := None; search_priority := Some (IsNumber 0);
     search_estimate := None; search_includeArchived := None;
     search_limit := None |}.

(** [{ title: "T", teamId: "X", priority: 2.5 }] *)
Definition json_fraction : gmap string Json :=
  {[ "title" := JStr "T"; "teamId" := JStr "X"; "priority" := JNum 2.5 ]}.

(** [{ title: "T", teamId: "X", priority: 7 }] *)
Definition json_seven : gmap string Json :=
  {[ "title" := JStr "T"; "teamId" := JStr "X"; "priority" := JNum 7 ]}.

(** [{ title: "T" }] *)
Definition json_no_team : gmap string Json := {[ "title" := JStr "T" ]}.

Definition create_done : CreateIssueArgs :=
  {| create_title := "T"; create_teamId := "X"; create_description := None;
     create_priority := None; create_status := Some "Done" |}.

Definition update_done : UpdateIssueArgs :=
  {| update_id := "id-1"; update_title := None; update_description := None;
     update_priority := None; update_status := Some "Done" |}.

(** [{ userId: "", limit: 0 }] *)
Definition args_empty_user : GetUserIssuesArgs :=
  {| getuser_userId := Some ""; getuser_includeArchived := None;
     getuser_limit := Some 0%Q |}.

(** [{ userId: "user-9", limit: 5 }] *)
Definition args_user_nine : GetUserIssuesArgs :=
  {| getuser_userId := Some "user-9"; getuser_includeArchived := None;
     getuser_limit := Some 5%Q |}.

(** What [getViewer] returns on the answering tracker. *)
Definition demo_viewer : ViewerInfo :=
  {| viewer_id := "user-1"; viewer_name := "Ada";
     viewer_email := "ada@example.com"; viewer_admin := false;
     viewer_teams := [ {| ts_id := "team-1"; ts_name := "Engineering";
                          ts_key := "ENG" |} ];
     viewer_organization :=
       {| org_id := "org-1"; org_name := "Demo"; org_urlKey := "demo" |} |}.

(** [{ query: "bug", limit: 0, priority: 0, includeArchived: true }] *)
Definition json_search_zero : gmap string Json :=
  {[ "query" := JStr "bug"; "limit" := JNum 0; "priority" := JNum 0;
     "includeArchived" := JBool true ]}.

(** The first resource of the catalog. *)
Definition viewer_resource : Resource :=
  {| resource_uri := "linear-viewer://";
     resource_name := "Linear User Profile";
     resource_description := "Your Linear user profile information, including teams and permissions";
     resource_mimeType := "application/json" |}.

(** The arguments [{ issueType: "bug", component: "" }] of a prompt. *)
Definition prompt_args_empty_component : gmap string string :=
  {[ "issueType" := "bug"; "component" := "" ]}.

(** The error of the tracker that rejects every request. *)
Definition offline_error : JsError :=
  ResponseError "Network request failed" None.

(** * Properties *)

(** ** Parsing the URI *)

(** The second group ends at each of the four line terminators, and at
    nothing else: the ellipsis U+2026 shares two bytes with U+2028 and is
    kept. *)
Lemma until_line_end_terminators :
  until_line_end ("a" +:+ String "010"%char "b") = "a"
  /\ until_line_end ("a" +:+ String "013"%char "b") = "a"
  /\ until_line_end ("a" +:+ line_separator +:+ "b") = "a"
  /\ until_line_end ("a" +:+ paragraph_separator +:+ "b") = "a"
  /\ uri_match ("linear-issue://" +:+ line_separator +:+ "b") =
       Some ("linear-issue", "")
  /\ until_line_end
       ("a" +:+ String "226"%char (String "128"%char (String "166"%char "b"))) =
     "a" +:+ String "226"%char (String "128"%char (String "166"%char "b")).
Proof. repeat split. Qed.

Lemma span_no_colon_app (scheme rest : string) :
  has_colon scheme = false ->
  span_no_colon (scheme +:+ String ":"%char rest) = (scheme, String ":"%char rest).
Proof.
  induction scheme as [|c s IH]; simpl; intros H.
  - reflexivity.
  - apply orb_false_iff in H as [Hc Hs].
    rewrite Hc, (IH Hs). reflexivity.
Qed.

(** A well-formed scheme followed by [://] is what the pattern extracts. *)
Lemma uri_match_scheme (scheme rest : string) :
  scheme <> "" -> has_colon scheme = false ->
  uri_match (scheme +:+ "://" +:+ rest) = Some (scheme, until_line_end rest).
Proof.
  intros Hne Hc. unfold uri_match.
  change ("://" +:+ rest) with (String ":"%char (String "/"%char (String "/"%char rest))).
  rewrite span_no_colon_app by exact Hc.
  destruct (String.eqb_spec scheme ""); [contradiction|].
  reflexivity.
Qed.

Lemma strip_prefix_sound (p s r : string) :
  strip_prefix p s = Some r -> s = p +:+ r.
Proof.
  revert s. induction p as [|a p IH]; intros s; simpl.
  - intros [= ->]. reflexivity.
  - destruct s as [|b s]; [discriminate|].
    destruct (Ascii.eqb_spec a b) as [->|]; [|discriminate].
    intros H. apply IH in H. subst. reflexivity.
Qed.

Lemma span_no_colon_empty (s b : string) :
  span_no_colon s = (EmptyString, b) -> b = s.
Proof.
  destruct s as [|c r]; simpl.
  - intros [= <-]. reflexivity.
  - destruct (Ascii.eqb c ":"%char).
    + intros [= <-]. reflexivity.
    + destruct (span_no_colon r). discriminate.
Qed.

(** The prefix before the first [://] against the pattern of the source:
    without a colon the pattern finds it; with one the pattern does not
    match. *)
Lemma scheme_before_separator_span (uri scheme : string) :
  scheme_before_separator uri = Some scheme ->
  if has_colon scheme
  then forall a b, span_no_colon uri = (a, b) -> a = "" \/ strip_prefix "://" b = None
  else exists path,
      span_no_colon uri = (scheme, "://" +:+ path)
      /\ uri = scheme +:+ "://" +:+ path.
Proof.
  revert scheme. induction uri as [|c r IH]; intros scheme.
  - simpl. discriminate.
  - cbn [scheme_before_separator].
    destruct (strip_prefix "://" (String c r)) as [path|] eqn:Hp.
    + intros [= <-]. cbn [has_colon].
      apply strip_prefix_sound in Hp. exists path. rewrite Hp.
      split; reflexivity.
    + destruct (scheme_before_separator r) as [s'|] eqn:Hs; [|discriminate].
      intros [= <-]. specialize (IH s' eq_refl).
      cbn [has_colon span_no_colon].
      destruct (Ascii.eqb_spec c ":"%char) as [->|Hc]; cbn [orb].
      * intros a b [= <- <-]. now left.
      * destruct (has_colon s') eqn:Hcolon.
        -- intros a b. destruct (span_no_colon r) as [a' b'] eqn:Hspan.
           intros [= <- <-]. right.
           destruct (IH a' b' eq_refl) as [-> | Hb]; [|exact Hb].
           apply span_no_colon_empty in Hspan. subst b'.
           destruct (strip_prefix "://" r) eqn:Hr; [|reflexivity].
           destruct r; cbn [scheme_before_separator] in Hs;
             rewrite Hr in Hs; injection Hs as <-; discriminate.
        -- destruct IH as (path & Hspan & ->).
           exists path. rewrite Hspan. split; reflexivity.
Qed.

(** With an empty or colon-bearing prefix the pattern rejects the URI. *)
Lemma uri_match_malformed (uri scheme : string) :
  scheme_before_separator uri = Some scheme ->
  scheme = "" \/ has_colon scheme = true ->
  uri_match uri = None.
Proof.
  intros Hs Hbad. pose proof (scheme_before_separator_span _ Hs) as H.
  unfold uri_match. destruct (span_no_colon uri) as [a b] eqn:Hspan.
  destruct (has_colon scheme) eqn:Hc.
  - destruct (H a b eq_refl) as [-> | ->]; [reflexivity|].
    destruct (String.eqb a ""); reflexivity.
  - destruct Hbad as [-> | ?]; [|discriminate].
    destruct H as (path & Hsp & _).
    injection Hsp as -> _. reflexivity.
Qed.

Lemma uri_match_wellformed (uri scheme : string) :
  scheme_before_separator uri = Some scheme ->
  scheme <> "" -> has_colon scheme = false ->
  exists path, uri_match uri = Some (scheme, path).
Proof.
  intros Hs Hne Hc. pose proof (scheme_before_separator_span _ Hs) as H.
  rewrite Hc in H. destruct H as (path & _ & ->).
  exists (until_line_end path). now apply uri_match_scheme.
Qed.

Section Properties.

Variable show_number : number -> string.
Variable W : Type.
Variable perform : forall c : Request, W -> (JsError + Response c) * W.

Local Abbreviation read := (ReadResourceRequest_handler perform).
Local Abbreviation call_tool := (CallToolRequest_handler show_number perform).

(** ** Running computations *)

Lemma bind_run {A B} (m : M W A) (k : A -> M W B) (w : W) :
  (m ≫= k) w =
  match result (m w) with
  | inl e => {| result := inl e; tracker := tracker (m w); trace := trace (m w) |}
  | inr a =>
    {| result := result (k a (tracker (m w)));
       tracker := tracker (k a (tracker (m w)));
       trace := trace (m w) ++ trace (k a (tracker (m w))) |}
  end.
Proof. reflexivity. Qed.

Lemma call_run (c : Request) (w : W) :
  call perform c w =
  {| result := fst (perform c w); tracker := snd (perform c w);
     trace := [Sent c] |}.
Proof. unfold call. destruct (perform c w). reflexivity. Qed.

Lemma only_ret {A} P (a : A) : only P (ret a : M W A).
Proof. intros w. constructor. Qed.

Lemma only_throw {A} P e : only P (throw e : M W A).
Proof. intros w. constructor. Qed.

Lemma only_call P c : P (Sent c) -> only P (call perform c).
Proof. intros H w. rewrite call_run. simpl. repeat constructor. exact H. Qed.

Lemma only_bind {A B} P (m : M W A) (k : A -> M W B) :
  only P m -> (forall a, only P (k a)) -> only P (m ≫= k).
Proof.
  intros Hm Hk w. rewrite bind_run.
  destruct (result (m w)); simpl.
  - apply Hm.
  - apply Forall_app. split; [apply Hm | apply Hk].
Qed.

Lemma only_promise_all {A} P (l : list (M W A)) :
  Forall (only P) l -> only P (promise_all l).
Proof.
  induction 1 as [|m r Hm Hr IH]; simpl.
  - apply only_ret.
  - apply only_bind; [exact Hm|]. intros a.
    apply only_bind; [exact IH|]. intros rest. apply only_ret.
Qed.

Lemma only_promise_all_map {A B} P (f : A -> M W B) (l : list A) :
  (forall a, only P (f a)) -> only P (promise_all (map f l)).
Proof.
  intros H. apply only_promise_all. apply Forall_map, Forall_forall.
  intros a _. apply H.
Qed.

Lemma issue_searches_none (t : list Event) :
  Forall not_a_search t -> issue_searches t = [].
Proof.
  induction 1 as [|ev r Hev _ IH]; [reflexivity|].
  destruct ev as [[]|]; simpl in *; try exact IH. contradiction.
Qed.

Lemma issue_searches_app (t1 t2 : list Event) :
  issue_searches (t1 ++ t2) = issue_searches t1 ++ issue_searches t2.
Proof.
  induction t1 as [|ev r IH]; [reflexivity|].
  destruct ev as [[]|]; simpl; rewrite ?IH; reflexivity.
Qed.

Lemma only_Issue_state P issue :
  (forall id, P (Sent (Q_workflowState id))) -> only P (Issue_state perform issue).
Proof.
  intros H. unfold Issue_state. destruct (issue_state issue).
  - apply only_bind; [apply only_call, H | intros; apply only_ret].
  - apply only_ret.
Qed.

Lemma only_Issue_assignee P issue :
  (forall id, P (Sent (Q_user id))) -> only P (Issue_assignee perform issue).
Proof.
  intros H. unfold Issue_assignee. destruct (issue_assignee issue).
  - apply only_bind; [apply only_call, H | intros; apply only_ret].
  - apply only_ret.
Qed.

Lemma only_Issue_team P issue :
  (forall id, P (Sent (Q_team id))) -> only P (Issue_team perform issue).
Proof.
  intros H. unfold Issue_team. destruct (issue_team issue) as [id|].
  - exact (only_call P (Q_team id) (H id)).
  - apply only_ret.
Qed.

(** Goals [only P m], by the shape of [m]; what stays is [P] of a request. *)
Ltac to_only :=
  lazymatch goal with
  | |- Forall ?P (trace (?m ?w)) => refine ((_ : only P m) w)
  | |- only _ _ => idtac
  end.

Ltac quiet :=
  to_only;
  repeat first
    [ apply only_ret
    | apply only_throw
    | match goal with |- only ?P (call _ ?c) => apply (only_call P c) end
    | apply only_Issue_state; intros ?
    | apply only_Issue_assignee; intros ?
    | apply only_Issue_team; intros ?
    | apply only_promise_all_map; intros ?
    | apply only_bind; [|intros ?] ].

(** ** The request of a search *)

(** A search sends its [issues] request first and no other search after. *)
Lemma searchIssues_trace (args : SearchIssuesArgs) (w : W) :
  exists rest,
    trace (searchIssues perform args w) = Sent (Q_issues (search_vars args)) :: rest
    /\ Forall not_a_search rest.
Proof.
  unfold searchIssues. rewrite bind_run, call_run. cbn [result tracker trace].
  fold (search_vars args).
  destruct (fst (perform (Q_issues (search_vars args)) w)) as [e|nodes].
  - exists []. split; [reflexivity | constructor].
  - eexists. split; [reflexivity|]. quiet; exact I.
Qed.

Lemma searchIssues_searches (args : SearchIssuesArgs) (w : W) :
  issue_searches (trace (searchIssues perform args w)) = [search_vars args].
Proof.
  destruct (searchIssues_trace args w) as (rest & -> & Hrest).
  simpl. now rewrite issue_searches_none.
Qed.

(** ** Reading a resource: what is refused before any request *)

(** C8.  For each templated scheme, the URI with nothing after [://] is
    refused with an error that names the missing parameter, and the tracker
    has not been asked anything: the trace is empty and the state
    unchanged. *)
Theorem read_empty_path_refused (w : W) :
  ReadResourceRequest_handler perform "linear-issue://" w =
    {| result := inl (Error "Issue ID is required for linear-issue resource");
       tracker := w; trace := [] |}
  /\ ReadResourceRequest_handler perform "linear-team://" w =
    {| result := inl (Error "Team ID is required for linear-team resource");
       tracker := w; trace := [] |}
  /\ ReadResourceRequest_handler perform "linear-user://" w =
    {| result := inl (Error "User ID is required for linear-user resource");
       tracker := w; trace := [] |}
  /\ ReadResourceRequest_handler perform "linear-search://" w =
    {| result := inl (Error "Search query is required for linear-search resource");
       tracker := w; trace := [] |}
  /\ ReadResourceRequest_handler perform "linear-priority://" w =
    {| result := inl (Error "Priority level is required for linear-priority resource");
       tracker := w; trace := [] |}.
Proof. repeat split. Qed.

(** The same holds whenever the pattern extracts an empty path, as it does
    when a line terminator follows [://]. *)
Lemma read_issue_without_id (uri : string) (w : W) :
  uri_match uri = Some ("linear-issue", "") ->
  read uri w =
    {| result := inl (Error "Issue ID is required for linear-issue resource");
       tracker := w; trace := [] |}.
Proof. intros H. unfold ReadResourceRequest_handler. rewrite H. reflexivity. Qed.

Lemma read_unmatched (uri : string) (w : W) :
  uri_match uri = None ->
  read uri w =
    {| result := inl (Error ("Invalid URI format: " +:+ uri));
       tracker := w; trace := [] |}.
Proof. intros H. unfold ReadResourceRequest_handler. rewrite H. reflexivity. Qed.

Lemma read_unsupported (uri protocol path : string) (w : W) :
  uri_match uri = Some (protocol, path) ->
  protocol ∉ recognized_schemes ->
  read uri w =
    {| result := inl (Error ("Unsupported resource URI: " +:+ uri));
       tracker := w; trace := [] |}.
Proof.
  intros H Hnot. unfold ReadResourceRequest_handler. rewrite H.
  repeat match goal with
  | |- context [String.eqb protocol ?lit] =>
    destruct (String.eqb_spec protocol lit) as [->|_];
      [exfalso; apply Hnot; unfold recognized_schemes; repeat constructor|]
  end.
  reflexivity.
Qed.

(** C7, amended.  Take a URI and its scheme, the prefix before the first
    [://], and let the scheme be none of those the handler knows.  When the
    scheme is not empty and has no colon, reading fails with the
    "Unsupported resource URI" error; when it is empty or has a colon, the
    pattern does not match and reading fails with the "Invalid URI format"
    error.  Either way no request is sent and the tracker is unchanged. *)
Theorem read_unrecognized_scheme (uri scheme : string) (w : W) :
  scheme_before_separator uri = Some scheme ->
  scheme ∉ recognized_schemes ->
  read uri w =
    {| result :=
         inl (Error ((if String.eqb scheme "" || has_colon scheme
                      then "Invalid URI format: "
                      else "Unsupported resource URI: ") +:+ uri));
       tracker := w; trace := [] |}.
Proof.
  intros Hs Hnot.
  destruct (String.eqb_spec scheme "") as [He|Hne]; cbn [orb].
  - apply read_unmatched. eapply uri_match_malformed; eauto.
  - destruct (has_colon scheme) eqn:Hc.
    + apply read_unmatched. eapply uri_match_malformed; eauto.
    + destruct (uri_match_wellformed _ Hs Hne Hc) as (path & Hm).
      eapply read_unsupported; eauto.
Qed.

(** A URI without any [://] has no scheme at all; the pattern rejects it. *)
Lemma uri_match_without_separator (uri : string) :
  scheme_before_separator uri = None -> uri_match uri = None.
Proof.
  intros Hnone. unfold uri_match.
  destruct (span_no_colon uri) as [a b] eqn:Hspan.
  destruct (String.eqb a ""); [reflexivity|].
  enough (strip_prefix "://" b = None) as -> by reflexivity.
  revert a b Hspan. induction uri as [|c r IH]; intros a b.
  - intros [= <- <-]. reflexivity.
  - cbn [scheme_before_separator] in Hnone.
    destruct (strip_prefix "://" (String c r)) eqn:Hp; [discriminate|].
    destruct (scheme_before_separator r) eqn:Hr; [discriminate|].
    cbn [span_no_colon]. destruct (Ascii.eqb c ":"%char).
    + intros [= <- <-]. exact Hp.
    + destruct (span_no_colon r) as [a' b']. intros [= <- <-].
      now apply (IH eq_refl a').
Qed.

Lemma read_without_separator (uri : string) (w : W) :
  scheme_before_separator uri = None ->
  read uri w =
    {| result := inl (Error ("Invalid URI format: " +:+ uri));
       tracker := w; trace := [] |}.
Proof. intros H. apply read_unmatched, uri_match_without_separator, H. Qed.

(** ** The search filter *)

Lemma truthy_string_spec (s : string) : truthy_string s = true <-> s <> "".
Proof.
  unfold truthy_string. destruct (String.eqb_spec s ""); simpl; split; congruence.
Qed.

Lemma truthy_number_spec (n : number) : truthy_number n = true <-> ~ (n == 0)%Q.
Proof.
  unfold truthy_number. rewrite negb_true_iff, <- not_true_iff_false.
  now rewrite Qeq_bool_iff.
Qed.

Lemma when_truthy_keep {A B C} (proj : B -> C) (truthy : A -> bool)
    (x : option A) (update : A -> B -> B) (b : B) :
  (forall a f, proj (update a f) = proj f) ->
  proj (when_truthy truthy x update b) = proj b.
Proof.
  intros H. unfold when_truthy. destruct x as [a|]; [destruct (truthy a)|]; auto.
Qed.

Lemma when_truthy_set {A B C} (proj : B -> C) (truthy : A -> bool)
    (x : option A) (update : A -> B -> B) (b : B) (v : A -> C) :
  (forall a f, proj (update a f) = v a) ->
  proj (when_truthy truthy x update b) =
  match x with
  | Some a => if truthy a then v a else proj b
  | None => proj b
  end.
Proof.
  intros H. unfold when_truthy. destruct x as [a|]; [destruct (truthy a)|]; auto.
Qed.

(** Each member of the filter depends on its own argument only. *)
Ltac filter_member proj :=
  intros; unfold buildSearchFilter; cbv zeta;
  repeat (rewrite (when_truthy_keep proj) by reflexivity);
  rewrite (when_truthy_set proj) with (v := fun a => Some _) by reflexivity;
  repeat (rewrite (when_truthy_keep proj) by reflexivity);
  reflexivity.

Lemma buildSearchFilter_or args :
  filter_or (buildSearchFilter args) =
  match search_query args with
  | Some q =>
    if truthy_string q
    then Some [on_title (str_contains q); on_description (str_contains q)]
    else None
  | None => None
  end.
Proof. filter_member filter_or. Qed.

Lemma buildSearchFilter_team args :
  filter_team (buildSearchFilter args) =
  match search_teamId args with
  | Some t => if truthy_string t then Some (str_eq t) else None
  | None => None
  end.
Proof. filter_member filter_team. Qed.

Lemma buildSearchFilter_state args :
  filter_state (buildSearchFilter args) =
  match search_status args with
  | Some s => if truthy_string s then Some (str_eq s) else None
  | None => None
  end.
Proof. filter_member filter_state. Qed.

Lemma buildSearchFilter_assignee args :
  filter_assignee (buildSearchFilter args) =
  match search_assigneeId args with
  | Some a => if truthy_string a then Some (str_eq a) else None
  | None => None
  end.
Proof. filter_member filter_assignee. Qed.

Lemma buildSearchFilter_labels args :
  filter_labels (buildSearchFilter args) =
  match search_labels args with
  | Some l => if (0 <? length l)%nat then Some (str_in l) else None
  | None => None
  end.
Proof. filter_member filter_labels. Qed.

Lemma buildSearchFilter_priority args :
  filter_priority (buildSearchFilter args) =
  match search_priority args with
  | Some p => if truthy_numberlike p then Some (num_eq p) else None
  | None => None
  end.
Proof. filter_member filter_priority. Qed.

Lemma buildSearchFilter_estimate args :
  filter_estimate (buildSearchFilter args) =
  match search_estimate args with
  | Some e => if truthy_number e then Some (num_eq (IsNumber e)) else None
  | None => None
  end.
Proof. filter_member filter_estimate. Qed.

(** C1, amended.  The filter has a member for exactly the arguments that
    are supplied and not empty: a non-empty [query] gives the disjunction
    "title contains or description contains", a non-empty list of [labels]
    gives "some label name in the list", each of [teamId], [status],
    [assigneeId] that is a non-empty string gives an equality clause, and a
    [priority] or [estimate] other than zero gives an equality clause; an
    argument that is absent, an empty string or an empty list leaves no
    member.  Each member is decided by its own argument, whatever the
    others are.  (Nothing is said here of the member of a [priority] or an
    [estimate] of zero.)  [searchIssues({})] sends the empty filter with
    [first: 10]. *)
Theorem buildSearchFilter_supplied_fields (args : SearchIssuesArgs) (w : W) :
  let filter := buildSearchFilter args in
  (forall q, search_query args = Some q -> q <> "" ->
     filter_or filter =
       Some [on_title (str_contains q); on_description (str_contains q)])
  /\ (search_query args = None \/ search_query args = Some "" ->
     filter_or filter = None)
  /\ (forall t, search_teamId args = Some t -> t <> "" ->
     filter_team filter = Some (str_eq t))
  /\ (search_teamId args = None \/ search_teamId args = Some "" ->
     filter_team filter = None)
  /\ (forall s, search_status args = Some s -> s <> "" ->
     filter_state filter = Some (str_eq s))
  /\ (search_status args = None \/ search_status args = Some "" ->
     filter_state filter = None)
  /\ (forall a, search_assigneeId args = Some a -> a <> "" ->
     filter_assignee filter = Some (str_eq a))
  /\ (search_assigneeId args = None \/ search_assigneeId args = Some "" ->
     filter_assignee filter = None)
  /\ (forall l, search_labels args = Some l -> l <> [] ->
     filter_labels filter = Some (str_in l))
  /\ (search_labels args = None \/ search_labels args = Some [] ->
     filter_labels filter = None)
  /\ (forall p, search_priority args = Some p ->
     (forall n, p = IsNumber n -> ~ (n == 0)%Q) ->
     filter_priority filter = Some (num_eq p))
  /\ (search_priority args = None -> filter_priority filter = None)
  /\ (forall e, search_estimate args = Some e -> ~ (e == 0)%Q ->
     filter_estimate filter = Some (num_eq (IsNumber e)))
  /\ (search_estimate args = None -> filter_estimate filter = None)
  /\ buildSearchFilter no_search_args = empty_filter
  /\ exists rest,
      trace (searchIssues perform no_search_args w) =
        Sent (Q_issues {| vars_filter := Some empty_filter;
                          vars_first := Some 10%Q;
                          vars_includeArchived := None;
                          vars_orderBy := None |}) :: rest
      /\ Forall not_a_search rest.
Proof.
  intros filter. subst filter.
  rewrite buildSearchFilter_or, buildSearchFilter_team, buildSearchFilter_state,
    buildSearchFilter_assignee, buildSearchFilter_labels,
    buildSearchFilter_priority, buildSearchFilter_estimate.
  repeat apply conj.
  - intros q -> Hq. apply truthy_string_spec in Hq. now rewrite Hq.
  - intros [-> | ->]; reflexivity.
  - intros t -> Ht. apply truthy_string_spec in Ht. now rewrite Ht.
  - intros [-> | ->]; reflexivity.
  - intros s -> Hs. apply truthy_string_spec in Hs. now rewrite Hs.
  - intros [-> | ->]; reflexivity.
  - intros a -> Ha. apply truthy_string_spec in Ha. now rewrite Ha.
  - intros [-> | ->]; reflexivity.
  - intros l -> Hl. destruct l; [contradiction | reflexivity].
  - intros [-> | ->]; reflexivity.
  - intros p -> Hp. destruct p as [n|key]; [|reflexivity].
    cbn [truthy_numberlike].
    specialize (Hp n eq_refl). apply truthy_number_spec in Hp. now rewrite Hp.
  - intros ->. reflexivity.
  - intros e -> He. apply truthy_number_spec in He. now rewrite He.
  - intros ->. reflexivity.
  - reflexivity.
  - apply (searchIssues_trace no_search_args w).
Qed.

(** ** The priority resource *)

(** The five level names, in any letter case, are own properties of
    [priorityMap]. *)
Lemma priority_levels :
  get_property priorityMap (toLowerCase "urgent") = Some (IsNumber 1)
  /\ get_property priorityMap (toLowerCase "high") = Some (IsNumber 2)
  /\ get_property priorityMap (toLowerCase "medium") = Some (IsNumber 3)
  /\ get_property priorityMap (toLowerCase "low") = Some (IsNumber 4)
  /\ get_property priorityMap (toLowerCase "none") = Some (IsNumber 0)
  /\ get_property priorityMap (toLowerCase "URGENT") = Some (IsNumber 1)
  /\ get_property priorityMap (toLowerCase "High") = Some (IsNumber 2)
  /\ get_property priorityMap (toLowerCase "mEdIuM") = Some (IsNumber 3)
  /\ get_property priorityMap (toLowerCase "Low") = Some (IsNumber 4)
  /\ get_property priorityMap (toLowerCase "NONE") = Some (IsNumber 0).
Proof. vm_compute. repeat split. Qed.

(** A level that names no property, own or inherited, is refused with a
    message that repeats it, before any request. *)
Lemma read_priority_invalid (level : string) (w : W) :
  level <> "" -> until_line_end level = level ->
  get_property priorityMap (toLowerCase level) = None ->
  read ("linear-priority://" +:+ level) w =
    {| result :=
         inl (Error ("Invalid priority level: " +:+ level
                     +:+ ". Valid values are: urgent, high, medium, low, none"));
       tracker := w; trace := [] |}.
Proof.
  intros Hne Hline Hnone. unfold ReadResourceRequest_handler.
  change ("linear-priority://" +:+ level)
    with ("linear-priority" +:+ "://" +:+ level).
  rewrite uri_match_scheme by (reflexivity || discriminate).
  rewrite Hline. cbn -[get_property priorityMap].
  apply truthy_string_spec in Hne. rewrite Hne. cbn -[get_property priorityMap].
  rewrite Hnone. reflexivity.
Qed.

(** A level that names a property: the search is sent with it. *)
Lemma read_priority_resolved (level : string) (priority : NumberLike) (w : W) :
  level <> "" -> until_line_end level = level ->
  get_property priorityMap (toLowerCase level) = Some priority ->
  exists rest,
    trace (read ("linear-priority://" +:+ level) w) =
      Sent (Q_issues (search_vars (priority_only priority))) :: rest
    /\ Forall not_a_search rest.
Proof.
  intros Hne Hline Hsome. unfold ReadResourceRequest_handler.
  change ("linear-priority://" +:+ level)
    with ("linear-priority" +:+ "://" +:+ level).
  rewrite uri_match_scheme by (reflexivity || discriminate).
  rewrite Hline. cbn -[get_property priorityMap searchIssues].
  apply truthy_string_spec in Hne. rewrite Hne.
  cbn -[get_property priorityMap searchIssues].
  rewrite Hsome, bind_run.
  destruct (searchIssues_trace (priority_only priority) w)
    as (rest & Htrace & Hrest).
  rewrite Htrace. destruct (result _); cbn [trace ret].
  - exists rest. split; [reflexivity | exact Hrest].
  - exists (rest ++ []). split; [reflexivity|].
    rewrite app_nil_r. exact Hrest.
Qed.

(** The levels other than [none] do reach the filter. *)
Lemma read_priority_urgent_filtered (w : W) :
  exists rest,
    trace (read "linear-priority://urgent" w) =
      Sent (Q_issues
        {| vars_filter :=
             Some {| filter_or := None; filter_team := None;
                     filter_state := None; filter_assignee := None;
                     filter_labels := None;
                     filter_priority := Some (num_eq (IsNumber 1));
                     filter_estimate := None |};
           vars_first := Some 10%Q;
           vars_includeArchived := None;
           vars_orderBy := None |}) :: rest
    /\ Forall not_a_search rest.
Proof.
  apply (@read_priority_resolved "urgent" (IsNumber 1) w);
    [discriminate | reflexivity | vm_compute; reflexivity].
Qed.

(** C2, at the level [none].  The name resolves to 0, and the search the
    handler then issues has no priority member in its filter: the request
    is that of a search without any argument. *)
Theorem read_priority_none_unfiltered (w : W) :
  get_property priorityMap (toLowerCase "none") = Some (IsNumber 0)
  /\ exists rest,
      trace (read "linear-priority://none" w) =
        Sent (Q_issues {| vars_filter := Some empty_filter;
                          vars_first := Some 10%Q;
                          vars_includeArchived := None;
                          vars_orderBy := None |}) :: rest
      /\ Forall not_a_search rest.
Proof.
  split; [vm_compute; reflexivity|].
  destruct (searchIssues_trace (priority_only (IsNumber 0)) w)
    as (rest & Htrace & Hrest).
  change (read "linear-priority://none" w) with
    ((issues ← searchIssues perform (priority_only (IsNumber 0));
      ret (json_contents ("linear-priority://" +:+ "none") (body_search issues))) w).
  rewrite bind_run, Htrace.
  destruct (result _); simpl.
  - exists rest. split; [reflexivity | exact Hrest].
  - exists (rest ++ []). split; [reflexivity|].
    rewrite app_nil_r. exact Hrest.
Qed.

(** An inherited property passes the [=== undefined] test as well. *)
Lemma read_priority_constructor (w : W) :
  exists rest,
    trace (read "linear-priority://Constructor" w) =
      Sent (Q_issues
        {| vars_filter :=
             Some {| filter_or := None; filter_team := None;
                     filter_state := None; filter_assignee := None;
                     filter_labels := None;
                     filter_priority := Some (num_eq (ProtoMember "constructor"));
                     filter_estimate := None |};
           vars_first := Some 10%Q;
           vars_includeArchived := None;
           vars_orderBy := None |}) :: rest.
Proof.
  destruct (searchIssues_trace (priority_only (ProtoMember "constructor")) w)
    as (rest & Htrace & _).
  change (read "linear-priority://Constructor" w) with
    ((issues ← searchIssues perform (priority_only (ProtoMember "constructor"));
      ret (json_contents ("linear-priority://" +:+ "Constructor")
             (body_search issues))) w).
  rewrite bind_run, Htrace.
  destruct (result _); simpl; eexists; reflexivity.
Qed.

(** ** Creating and updating an issue *)

(** Unfolds the run of a sequence of requests, one case per answer. *)
Ltac run :=
  repeat first
    [ progress cbn [result tracker trace fst snd ret throw app]
    | rewrite bind_run
    | rewrite call_run
    | match goal with
      | |- context [match fst (perform ?c ?w) with _ => _ end] =>
        destruct (fst (perform c w))
      | |- context [match ?x with Some _ => _ | None => _ end] =>
        is_var x; destruct x
      end ].

(** C4.  The [status] argument of [createIssue] and of [updateIssue] is the
    [stateId] of the mutation that is sent, as it is.  [createIssue] sends
    the mutation first; [updateIssue] fetches the issue by id and, when it
    is there, sends the mutation next.  No request about workflow states is
    sent at any point, so the string is neither looked up nor checked. *)
Theorem status_passed_as_stateId (cargs : CreateIssueArgs)
    (uargs : UpdateIssueArgs) (cstatus ustatus : string) (w : W) :
  create_status cargs = Some cstatus ->
  update_status uargs = Some ustatus ->
  (exists rest,
      trace (createIssue perform cargs w) =
        Sent (M_issueCreate {| ic_title := create_title cargs;
                               ic_teamId := create_teamId cargs;
                               ic_description := create_description cargs;
                               ic_priority := create_priority cargs;
                               ic_stateId := Some cstatus |}) :: rest
      /\ Forall not_a_state_lookup rest)
  /\ match fst (perform (Q_issue (update_id uargs)) w) with
     | inr (Some issue) =>
       exists rest,
         trace (updateIssue perform uargs w) =
           Sent (Q_issue (update_id uargs))
           :: Sent (M_issueUpdate (issue_id issue)
                      {| iu_title := update_title uargs;
                         iu_description := update_description uargs;
                         iu_priority := update_priority uargs;
                         iu_stateId := Some ustatus |}) :: rest
         /\ Forall not_a_state_lookup rest
     | _ => trace (updateIssue perform uargs w) = [Sent (Q_issue (update_id uargs))]
     end.
Proof.
  intros Hc Hu. split.
  - unfold createIssue, IssuePayload_issue. rewrite Hc.
    rewrite bind_run, call_run. cbn [result tracker trace].
    destruct (fst (perform _ w)) as [e|payload]; cbn [app].
    + eexists. split; [reflexivity | constructor].
    + eexists. split; [reflexivity|].
      destruct (payload_issue payload); run; repeat constructor.
  - unfold updateIssue, IssuePayload_issue. rewrite Hu.
    rewrite bind_run, call_run. cbn [result tracker trace].
    destruct (fst (perform (Q_issue (update_id uargs)) w)) as [e|[issue|]];
      [reflexivity| |reflexivity].
    rewrite bind_run, call_run. cbn [result tracker trace].
    destruct (fst (perform _ _)) as [e|payload]; cbn [app].
    + eexists. split; [reflexivity | constructor].
    + eexists. split; [reflexivity|].
      destruct (payload_issue payload); run; repeat constructor.
Qed.

(** ** The "my issues" buckets *)

Lemma getViewer_no_search : only not_a_search (getViewer perform).
Proof. unfold getViewer. quiet; exact I. Qed.

Lemma filter_assignee_and_status (assigneeId status : string) :
  assigneeId <> "" -> status <> "" ->
  buildSearchFilter (assignee_and_status assigneeId status) =
  {| filter_or := None; filter_team := None;
     filter_state := Some (str_eq status);
     filter_assignee := Some (str_eq assigneeId);
     filter_labels := None; filter_priority := None;
     filter_estimate := None |}.
Proof.
  intros Ha Hs. apply truthy_string_spec in Ha, Hs.
  unfold buildSearchFilter, when_truthy. simpl. rewrite Ha, Hs. reflexivity.
Qed.

Lemma filter_assignee_and_priority (assigneeId : string) (priority : number) :
  assigneeId <> "" -> ~ (priority == 0)%Q ->
  buildSearchFilter (assignee_and_priority assigneeId priority) =
  {| filter_or := None; filter_team := None; filter_state := None;
     filter_assignee := Some (str_eq assigneeId);
     filter_labels := None;
     filter_priority := Some (num_eq (IsNumber priority));
     filter_estimate := None |}.
Proof.
  intros Ha Hp. apply truthy_string_spec in Ha. apply truthy_number_spec in Hp.
  unfold buildSearchFilter, when_truthy. simpl. rewrite Ha, Hp. reflexivity.
Qed.

(** The shape the four status buckets share. *)
Lemma bucket_searches (status uri : string) (viewer : ViewerInfo) (w : W) :
  result (getViewer perform w) = inr viewer ->
  issue_searches (trace
    ((viewer ← getViewer perform;
      issues ← searchIssues perform (assignee_and_status (viewer_id viewer) status);
      ret (json_contents uri (body_search issues))) w)) =
  [search_vars (assignee_and_status (viewer_id viewer) status)].
Proof.
  intros Hv. rewrite bind_run, Hv. cbn [trace].
  rewrite issue_searches_app, (issue_searches_none (getViewer_no_search w)).
  rewrite bind_run. destruct (result (searchIssues perform _ _)); cbn [trace app];
    rewrite ?issue_searches_app, searchIssues_searches; reflexivity.
Qed.

(** C5.  Let the viewer be resolved, with an id that is not empty.  Reading
    one of the four status buckets issues one search, whose filter is the
    assignee clause on the viewer's id and the state clause on the literal
    name, and nothing else.  Reading the high-priority bucket issues the
    search for priority 1 and then, when that answered, the search for
    priority 2, each a filter of its own with an equality clause; the
    payload is the rows of the first followed by the rows of the second, as
    they are. *)
Theorem my_buckets (viewer : ViewerInfo) (w : W) :
  result (getViewer perform w) = inr viewer ->
  viewer_id viewer <> "" ->
  let bucket_filter status :=
    {| filter_or := None; filter_team := None;
       filter_state := Some (str_eq status);
       filter_assignee := Some (str_eq (viewer_id viewer));
       filter_labels := None; filter_priority := None;
       filter_estimate := None |} in
  let priority_filter priority :=
    {| filter_or := None; filter_team := None; filter_state := None;
       filter_assignee := Some (str_eq (viewer_id viewer));
       filter_labels := None;
       filter_priority := Some (num_eq (IsNumber priority));
       filter_estimate := None |} in
  let vars filter :=
    {| vars_filter := Some filter; vars_first := Some 10%Q;
       vars_includeArchived := None; vars_orderBy := None |} in
  (forall uri status,
      In (uri, status)
         [ ("linear-my-backlog://", "Backlog");
           ("linear-my-planned://", "Planned this Cycle");
           ("linear-my-in-progress://", "In Progress");
           ("linear-my-under-review://", "Under Review") ] ->
      issue_searches (trace (read uri w)) = [vars (bucket_filter status)])
  /\ let high := read "linear-my-high-priority://" w in
     let first_search :=
       searchIssues perform (assignee_and_priority (viewer_id viewer) 1)
         (tracker (getViewer perform w)) in
     match result first_search with
     | inl e =>
       result high = inl e
       /\ issue_searches (trace high) = [vars (priority_filter 1%Q)]
     | inr urgentIssues =>
       let second_search :=
         searchIssues perform (assignee_and_priority (viewer_id viewer) 2)
           (tracker first_search) in
       issue_searches (trace high) =
         [vars (priority_filter 1%Q); vars (priority_filter 2%Q)]
       /\ match result second_search with
          | inl e => result high = inl e
          | inr highIssues =>
            result high =
              inr (json_contents "linear-my-high-priority://"
                     (body_search (urgentIssues ++ highIssues)))
          end
     end.
Proof.
  intros Hv Hid bucket_filter priority_filter vars. split.
  - intros uri status Hin.
    assert (Hstatus : status <> "")
      by (simpl in Hin; intuition (try congruence);
          match goal with H : (_, _) = (_, _) |- _ => injection H as <- <- end;
          discriminate).
    transitivity [search_vars (assignee_and_status (viewer_id viewer) status)].
    + simpl in Hin.
      destruct Hin as [[= <- <-]|[[= <- <-]|[[= <- <-]|[[= <- <-]|[]]]]];
        exact (bucket_searches _ _ w Hv).
    + unfold search_vars.
      rewrite (filter_assignee_and_status Hid Hstatus). reflexivity.
  - intros high first_search.
    assert (Hvars : forall p : number, ~ (p == 0)%Q ->
              search_vars (assignee_and_priority (viewer_id viewer) p)
              = vars (priority_filter p)).
    { intros p Hp. unfold search_vars.
      rewrite (filter_assignee_and_priority Hid Hp). reflexivity. }
    subst high.
    change (read "linear-my-high-priority://" w) with
      ((viewer ← getViewer perform;
        urgentIssues ← searchIssues perform
                         (assignee_and_priority (viewer_id viewer) 1);
        highIssues ← searchIssues perform
                       (assignee_and_priority (viewer_id viewer) 2);
        ret (json_contents "linear-my-high-priority://"
               (body_search (urgentIssues ++ highIssues)))) w).
    rewrite bind_run, Hv. cbn [result trace].
    rewrite issue_searches_app, (issue_searches_none (getViewer_no_search w)).
    rewrite bind_run. fold first_search.
    destruct (result first_search) as [e|urgentIssues]; cbn [result trace app].
    + split; [reflexivity|].
      unfold first_search. rewrite searchIssues_searches.
      rewrite Hvars by discriminate. reflexivity.
    + rewrite bind_run.
      set (second_search := searchIssues perform _ (tracker first_search)).
      cbv zeta.
      destruct (result second_search) as [e|highIssues]; cbn [result trace].
      * split; [|reflexivity].
        rewrite issue_searches_app. unfold first_search, second_search.
        rewrite !searchIssues_searches, !Hvars by discriminate. reflexivity.
      * split; [|reflexivity].
        rewrite !issue_searches_app. unfold first_search, second_search.
        rewrite !searchIssues_searches, !Hvars by discriminate. reflexivity.
Qed.

(** ** The issues of a user *)

Lemma user_issues_cap_spec (args : GetUserIssuesArgs) :
  number_or (getuser_limit args) 50 = user_issues_cap args.
Proof.
  unfold number_or, user_issues_cap, truthy_number.
  destruct (getuser_limit args) as [n|]; [|reflexivity].
  destruct (Qeq_bool n 0); reflexivity.
Qed.

(** What the [catch] block of [getUserIssues] does to a run of the body. *)
Lemma log_and_rethrow {A} (body : M W A) (label : string) (w : W) :
  try_catch body (fun error => _ ← console_error label error; throw error) w =
  match result (body w) with
  | inl e =>
    {| result := inl e; tracker := tracker (body w);
       trace := trace (body w) ++ [ConsoleError label e] |}
  | inr _ => body w
  end.
Proof. unfold try_catch. destruct (result (body w)); reflexivity. Qed.

(** The rows of a successful listing follow the issues of the answer. *)
Lemma promise_all_map_ids {A B} (f : A -> M W B) (ida : A -> string)
    (idb : B -> string) (l : list A) (w : W) (rows : list B) :
  (forall a w b, result (f a w) = inr b -> idb b = ida a) ->
  result (promise_all (map f l) w) = inr rows ->
  map idb rows = map ida l.
Proof.
  intros Hf. revert w rows. induction l as [|a l IH]; intros w rows; simpl.
  - intros [= <-]. reflexivity.
  - rewrite bind_run. destruct (result (f a w)) as [e|b] eqn:Hb; [discriminate|].
    cbn [result]. rewrite bind_run.
    destruct (result (promise_all (map f l) _)) as [e|rest] eqn:Hrest;
      [discriminate|].
    cbn [result ret]. intros [= <-]. simpl.
    rewrite (Hf _ _ _ Hb), (IH _ _ Hrest). reflexivity.
Qed.

(** C6, amended.  [getUserIssues] first asks for the user of the given id,
    or for the viewer when the id is absent or empty.  If that request is
    rejected, the error is written to the console and thrown again.
    Otherwise the assigned issues of the user found are asked for, with a
    page size that is the limit, or 50 when the limit is absent or zero; if
    this request is rejected, the error is written to the console and thrown
    again.  An answer without nodes gives the empty list; an answer with
    nodes gives one row per node, unless fetching a state fails, and then
    again the error is logged last and thrown. *)
Theorem getUserIssues_resolution (args : GetUserIssuesArgs) (w : W) :
  let run := getUserIssues perform args w in
  let who := resolution_request args in
  let label := "Error in getUserIssues: " in
  (forall id, getuser_userId args = Some id -> id <> "" -> who = Q_user id)
  /\ (getuser_userId args = None \/ getuser_userId args = Some "" ->
      who = Q_viewer)
  /\ (forall n, getuser_limit args = Some n -> ~ (n == 0)%Q ->
      user_issues_cap args = n)
  /\ (getuser_limit args = None
      \/ (exists n, getuser_limit args = Some n /\ (n == 0)%Q) ->
      user_issues_cap args = 50%Q)
  /\ match resolution perform args w with
     | (inl e, w1) =>
       run = {| result := inl e; tracker := w1;
                trace := [Sent who; ConsoleError label e] |}
     | (inr user, w1) =>
       let fetch := assigned_issues_request args user in
       match perform fetch w1 with
       | (inl e, w2) =>
         run = {| result := inl e; tracker := w2;
                  trace := [Sent who; Sent fetch; ConsoleError label e] |}
       | (inr None, w2) =>
         run = {| result := inr []; tracker := w2;
                  trace := [Sent who; Sent fetch] |}
       | (inr (Some nodes), w2) =>
         exists rest,
           trace run = Sent who :: Sent fetch :: rest
           /\ match result run with
              | inl e => last rest = Some (ConsoleError label e)
              | inr rows => map urow_id rows = map issue_id nodes
              end
       end
     end.
Proof.
  intros run who label. repeat apply conj.
  - intros id Hid Hne. subst who. unfold resolution_request. rewrite Hid.
    destruct (String.eqb_spec id ""); [contradiction | reflexivity].
  - subst who. unfold resolution_request. intros [-> | ->]; reflexivity.
  - intros n Hn Hz. unfold user_issues_cap. rewrite Hn.
    destruct (Qeq_bool n 0) eqn:E; [|reflexivity].
    apply Qeq_bool_iff in E. contradiction.
  - unfold user_issues_cap. intros [-> | (n & -> & Hz)]; [reflexivity|].
    apply Qeq_bool_iff in Hz. now rewrite Hz.
  - subst run who. unfold getUserIssues. rewrite log_and_rethrow.
    rewrite user_issues_cap_spec.
    unfold resolution, resolution_request, assigned_issues_request, truthy_string.
    destruct (getuser_userId args) as [id|];
      [destruct (String.eqb id "")|]; cbn [negb];
      rewrite bind_run, call_run; cbn [result tracker trace];
      (destruct (perform _ w) as [[e|user] w1]; cbn [fst snd app];
       [reflexivity|]);
      rewrite bind_run, call_run; cbn [result tracker trace];
      (destruct (perform _ w1) as [[e|[nodes|]] w2]; cbn [fst snd app];
       [reflexivity| |reflexivity]);
      match goal with
      | |- context [promise_all ?l ?w0] => set (rows_run := promise_all l w0)
      end;
      cbn [result tracker trace];
      (destruct (result rows_run) as [e|rows] eqn:Hrows;
       cbn [result trace app];
       [ eexists; split; [reflexivity|]; apply last_snoc
       | eexists; split; [reflexivity|];
         refine (promise_all_map_ids _ issue_id urow_id nodes w2 _ Hrows);
         intros a w0 b; rewrite bind_run;
         destruct (result (Issue_state perform a w0)); [discriminate|];
         cbn [result ret]; intros [= <-]; reflexivity ]).
Qed.

(** ** Validation *)

Lemma issues_of_zap {A B} (f : ZResult (A -> B)) (x : ZResult A) :
  issues_of (f <&> x) = issues_of f ++ issues_of x.
Proof. destruct f, x; simpl; rewrite ?app_nil_r; reflexivity. Qed.

Lemma invalid_type_pathed expected input path i :
  i ∈ [invalid_type_issue expected input path] -> path `prefix_of` zod_path i.
Proof. intros ->%list_elem_of_singleton. reflexivity. Qed.

Lemma z_string_pathed : well_pathed z_string.
Proof.
  intros path input i. unfold z_string.
  destruct input as [[]|]; simpl; try apply invalid_type_pathed.
  intros []%elem_of_nil.
Qed.

Lemma z_boolean_pathed : well_pathed z_boolean.
Proof.
  intros path input i. unfold z_boolean.
  destruct input as [[]|]; simpl; try apply invalid_type_pathed.
  intros []%elem_of_nil.
Qed.

Lemma run_check_path path n c i :
  i ∈ run_check show_number path n c -> zod_path i = path.
Proof.
  destruct c; simpl;
    [destruct (Qle_bool bound n) | destruct (Qle_bool n bound)];
    try (intros []%elem_of_nil); intros ->%list_elem_of_singleton; reflexivity.
Qed.

(** The issues of a number schema lie at the path itself. *)
Lemma z_number_path checks path input i :
  i ∈ issues_of (z_number show_number checks path input) -> zod_path i = path.
Proof.
  unfold z_number. destruct input as [[]|]; simpl;
    try (intros ->%list_elem_of_singleton; reflexivity).
  destruct (flat_map _ checks) as [|e es] eqn:E; simpl.
  - intros []%elem_of_nil.
  - rewrite <- E. intros Hi. apply list_elem_of_In, in_flat_map in Hi.
    destruct Hi as (c & _ & Hi). eapply run_check_path, list_elem_of_In, Hi.
Qed.

Lemma z_number_pathed checks : well_pathed (z_number show_number checks).
Proof. intros path input i Hi. now rewrite (z_number_path _ _ _ Hi). Qed.

Lemma z_optional_issues {A} (s : ZodSchema A) path input :
  issues_of (z_optional s path input) =
  match input with
  | Some _ => issues_of (s path input)
  | None => []
  end.
Proof.
  unfold z_optional. destruct input; [|reflexivity].
  destruct (s path (Some j)); reflexivity.
Qed.

Lemma z_optional_pathed {A} (s : ZodSchema A) :
  well_pathed s -> well_pathed (z_optional s).
Proof.
  intros Hs path input i. rewrite z_optional_issues.
  destruct input; [apply Hs | intros []%elem_of_nil].
Qed.

Lemma z_elements_pathed {A} (s : ZodSchema A) path n l i :
  well_pathed s ->
  i ∈ issues_of (z_elements s path n l) -> path `prefix_of` zod_path i.
Proof.
  intros Hs. revert n. induction l as [|x l IH]; intros n; cbn [z_elements].
  - intros []%elem_of_nil.
  - rewrite !issues_of_zap. unfold zpure at 1. cbn [issues_of app].
    intros [Hi|Hi]%elem_of_app.
    + apply Hs in Hi. etransitivity; [|exact Hi]. now apply prefix_app_r.
    + eapply IH, Hi.
Qed.

Lemma z_array_pathed {A} (s : ZodSchema A) :
  well_pathed s -> well_pathed (z_array s).
Proof.
  intros Hs path input i. unfold z_array.
  destruct input as [[]|]; simpl; try apply invalid_type_pathed.
  now apply z_elements_pathed.
Qed.

(** The issues of a property carry its name at the head of their path. *)
Lemma field_issue_key {A} (k : string) (s : ZodSchema A) args i :
  well_pathed s -> i ∈ issues_of (field k s args) ->
  exists rest, zod_path i = Key k :: rest.
Proof. intros Hs Hi. apply Hs in Hi as [rest ->]. now exists rest. Qed.

Create HintDb zod.

#[local] Hint Resolve z_string_pathed z_boolean_pathed z_number_pathed
  z_optional_pathed z_array_pathed : zod.

Ltac field_keys :=
  repeat rewrite issues_of_zap; cbn [issues_of zpure app];
  repeat rewrite elem_of_app;
  intuition
    (try match goal with
         | H : _ ∈ issues_of (field ?k _ _) |- _ =>
           apply field_issue_key in H as [? ?]; [|auto 6 with zod]
         end; eauto).

Lemma CreateIssueArgsSchema_keys args i :
  i ∈ issues_of (CreateIssueArgsSchema show_number args) ->
  exists k rest, zod_path i = Key k :: rest.
Proof. unfold CreateIssueArgsSchema. field_keys. Qed.

Lemma UpdateIssueArgsSchema_keys args i :
  i ∈ issues_of (UpdateIssueArgsSchema show_number args) ->
  exists k rest, zod_path i = Key k :: rest.
Proof. unfold UpdateIssueArgsSchema. field_keys. Qed.

Lemma SearchIssuesArgsSchema_keys args i :
  i ∈ issues_of (SearchIssuesArgsSchema show_number args) ->
  exists k rest, zod_path i = Key k :: rest.
Proof. unfold SearchIssuesArgsSchema. field_keys. Qed.

Lemma GetUserIssuesArgsSchema_keys args i :
  i ∈ issues_of (GetUserIssuesArgsSchema show_number args) ->
  exists k rest, zod_path i = Key k :: rest.
Proof. unfold GetUserIssuesArgsSchema. field_keys. Qed.

Lemma AddCommentArgsSchema_keys args i :
  i ∈ issues_of (AddCommentArgsSchema args) ->
  exists k rest, zod_path i = Key k :: rest.
Proof. unfold AddCommentArgsSchema. field_keys. Qed.

(** ** The priority of a new or updated issue *)

Lemma priority_field_issues (checks : list NumCheck) (args : gmap string Json) :
  issues_of (field "priority" (z_optional (z_number show_number checks)) args) =
  match args !! "priority" with
  | None => []
  | Some (JNum n) => flat_map (run_check show_number [Key "priority"] n) checks
  | Some v => [invalid_type_issue "number" (Some v) [Key "priority"]]
  end.
Proof.
  unfold field. rewrite z_optional_issues.
  destruct (args !! "priority") as [[]|]; try reflexivity.
  unfold z_number. destruct (flat_map _ checks); reflexivity.
Qed.

Lemma range_checks_pass (path : list PathElem) (n : number) :
  (0 <= n)%Q -> (n <= 4)%Q ->
  flat_map (run_check show_number path n) [z_min 0; z_max 4] = [].
Proof.
  intros H0 H4. apply Qle_bool_iff in H0, H4. simpl. now rewrite H0, H4.
Qed.

Lemma range_checks_fail (path : list PathElem) (n : number) :
  (n < 0)%Q \/ (4 < n)%Q ->
  exists i, i ∈ flat_map (run_check show_number path n) [z_min 0; z_max 4]
            /\ zod_path i = path.
Proof.
  intros [H|H]; apply Qlt_not_le in H; rewrite <- Qle_bool_iff in H;
    apply not_true_is_false in H; simpl; rewrite H.
  - eexists. split; [apply list_elem_of_here | reflexivity].
  - destruct (Qle_bool 0 n); eexists;
      (split; [repeat constructor | reflexivity]).
Qed.

(** An issue at the path [priority] comes from the property [priority]. *)
Lemma priority_issue_source {A} (k : string) (s : ZodSchema A) args i :
  well_pathed s -> k <> "priority" ->
  i ∈ issues_of (field k s args) -> zod_path i = [Key "priority"] -> False.
Proof.
  intros Hs Hk Hi Hpath. apply field_issue_key in Hi as [rest Hi]; [|exact Hs].
  rewrite Hi in Hpath. injection Hpath as Hpath _. contradiction.
Qed.

Ltac not_priority :=
  exfalso;
  match goal with
  | H : _ ∈ issues_of (field ?k _ _) |- _ =>
    eapply (@priority_issue_source _ k); [| |exact H|eassumption];
      [auto 6 with zod | discriminate]
  end.

Lemma create_rejects_priority (args : gmap string Json) :
  rejects_priority (CreateIssueArgsSchema show_number args) <->
  exists i, i ∈ issues_of (field "priority"
                 (z_optional (z_number show_number [z_min 0; z_max 4])) args)
            /\ zod_path i = [Key "priority"].
Proof.
  unfold rejects_priority, CreateIssueArgsSchema.
  repeat rewrite issues_of_zap. cbn [issues_of zpure app].
  split; intros (i & Hi & Hpath); exists i; (split; [|exact Hpath]).
  - repeat (apply elem_of_app in Hi as [Hi|Hi]); try not_priority. exact Hi.
  - repeat rewrite elem_of_app. tauto.
Qed.

Lemma update_rejects_priority (args : gmap string Json) :
  rejects_priority (UpdateIssueArgsSchema show_number args) <->
  exists i, i ∈ issues_of (field "priority"
                 (z_optional (z_number show_number [])) args)
            /\ zod_path i = [Key "priority"].
Proof.
  unfold rejects_priority, UpdateIssueArgsSchema.
  repeat rewrite issues_of_zap. cbn [issues_of zpure app].
  split; intros (i & Hi & Hpath); exists i; (split; [|exact Hpath]).
  - repeat (apply elem_of_app in Hi as [Hi|Hi]); try not_priority. exact Hi.
  - repeat rewrite elem_of_app. tauto.
Qed.

(** A tool call whose arguments the schema refuses: the answer of the
    handler, with no request sent. *)
Lemma call_tool_refused (name : string) (args : gmap string Json)
    (issues : list ZodIssue) (w : W) :
  validation_failure show_number name args = Some issues ->
  call_tool {| params_name := name; params_arguments := Some args |} w =
  {| result :=
       inr (error_result "VALIDATION_ERROR" "Invalid request parameters"
              (Some (map formatError issues)));
     tracker := w;
     trace := [ConsoleError "Error executing tool:" (ZodError issues)] |}.
Proof.
  unfold validation_failure, CallToolRequest_handler, tool_try, try_catch.
  cbn [params_name params_arguments].
  repeat match goal with
  | |- context [String.eqb name ?lit] => destruct (String.eqb name lit)
  end; try discriminate;
  match goal with
  | |- failure ?r = _ -> _ => destruct r; intros [= <-]; reflexivity
  end.
Qed.

(** C3, amended.  For [linear_create_issue], a supplied priority must be a
    number from 0 to 4, whole or not: the schema reports an issue at
    [priority] exactly when the argument is there and is not a number, or is
    a number below 0 or above 4.  For [linear_update_issue], a supplied
    priority that is not a number is reported.  (Nothing is said here of the
    range for [linear_update_issue].)  A call the schema refuses is answered
    with the validation error and no request has been sent. *)
Theorem priority_validated (args : gmap string Json) (w : W) :
  (rejects_priority (CreateIssueArgsSchema show_number args) <->
   exists v, args !! "priority" = Some v
             /\ forall n, v = JNum n -> (n < 0)%Q \/ (4 < n)%Q)
  /\ ((exists v, args !! "priority" = Some v /\ forall n, v <> JNum n) ->
      rejects_priority (UpdateIssueArgsSchema show_number args))
  /\ (rejects_priority (CreateIssueArgsSchema show_number args) ->
      let issues := issues_of (CreateIssueArgsSchema show_number args) in
      call_tool {| params_name := "linear_create_issue";
                   params_arguments := Some args |} w =
      {| result :=
           inr (error_result "VALIDATION_ERROR" "Invalid request parameters"
                  (Some (map formatError issues)));
         tracker := w;
         trace := [ConsoleError "Error executing tool:" (ZodError issues)] |})
  /\ (rejects_priority (UpdateIssueArgsSchema show_number args) ->
      let issues := issues_of (UpdateIssueArgsSchema show_number args) in
      call_tool {| params_name := "linear_update_issue";
                   params_arguments := Some args |} w =
      {| result :=
           inr (error_result "VALIDATION_ERROR" "Invalid request parameters"
                  (Some (map formatError issues)));
         tracker := w;
         trace := [ConsoleError "Error executing tool:" (ZodError issues)] |}).
Proof.
  split; [|split; [|split]].
  - rewrite create_rejects_priority, priority_field_issues.
    destruct (args !! "priority") as [v|] eqn:Hv.
    + split.
      * intros (i & Hi & _). exists v. split; [reflexivity|].
        intros n ->.
        destruct (Qlt_le_dec n 0) as [?|H0]; [now left|].
        destruct (Qlt_le_dec 4 n) as [?|H4]; [now right|].
        rewrite (range_checks_pass _ H0 H4) in Hi. now apply elem_of_nil in Hi.
      * intros (v' & [= <-] & Hbad).
        destruct v; try (eexists; split; [apply list_elem_of_here | reflexivity]).
        apply range_checks_fail, (Hbad _ eq_refl).
    + split.
      * intros (i & []%elem_of_nil & _).
      * intros (v & [=] & _).
  - intros (v & Hv & Hnot). rewrite update_rejects_priority, priority_field_issues, Hv.
    destruct v; try (eexists; split; [apply list_elem_of_here | reflexivity]).
    now destruct (Hnot n).
  - intros (i & Hi & _) issues. subst issues.
    apply call_tool_refused. unfold validation_failure.
    cbn [String.eqb Ascii.eqb Bool.eqb].
    destruct (CreateIssueArgsSchema show_number args);
      [reflexivity | now apply elem_of_nil in Hi].
  - intros (i & Hi & _) issues. subst issues.
    apply call_tool_refused. unfold validation_failure.
    cbn [String.eqb Ascii.eqb Bool.eqb].
    destruct (UpdateIssueArgsSchema show_number args);
      [reflexivity | now apply elem_of_nil in Hi].
Qed.

(** ** Failures of a tool call *)

Lemma bind_success {A B} (m : M W A) (k : A -> M W B) (w : W) (b : B) :
  result ((m ≫= k) w) = inr b ->
  exists a, result (m w) = inr a /\ result (k a (tracker (m w))) = inr b.
Proof.
  rewrite bind_run. destruct (result (m w)) as [e|a]; [discriminate|].
  intros H. exists a. split; [reflexivity | exact H].
Qed.

(** What the [try] block returns is a plain text. *)
Lemma tool_try_text (params : CallToolParams) (w : W) (r : CallToolResult) :
  result (tool_try show_number perform params w) = inr r ->
  exists s, r = text_result s.
Proof.
  unfold tool_try. destruct (params_arguments params) as [args|]; [|discriminate].
  repeat match goal with
  | |- context [String.eqb ?n ?lit] => destruct (String.eqb n lit)
  end; try discriminate;
  intros (validated & _ & H)%bind_success;
  apply bind_success in H as (x & _ & H);
  try destruct x; cbn [result ret] in H; injection H as <-; eexists; reflexivity.
Qed.

Lemma tool_catch_error_shaped (e : JsError) :
  error_shaped (tool_catch_response e) = true.
Proof. destruct e; reflexivity. Qed.

Lemma validation_failure_keys (name : string) (args : gmap string Json)
    (issues : list ZodIssue) :
  validation_failure show_number name args = Some issues ->
  Forall (fun i => exists k rest, zod_path i = Key k :: rest) issues.
Proof.
  unfold validation_failure.
  repeat match goal with
  | |- context [String.eqb name ?lit] => destruct (String.eqb name lit)
  end; try discriminate;
  match goal with
  | |- failure ?r = _ -> _ =>
    destruct r as [l|] eqn:E; intros [= <-]; apply Forall_forall; intros i Hi
  end;
  [ apply (CreateIssueArgsSchema_keys args)
  | apply (UpdateIssueArgsSchema_keys args)
  | apply (SearchIssuesArgsSchema_keys args)
  | apply (GetUserIssuesArgsSchema_keys args)
  | apply (AddCommentArgsSchema_keys args) ];
  rewrite E; exact Hi.
Qed.

(** C9, amended to tool calls, the one handler with a [catch] block.  The
    handler of a tool call always returns a response, whatever fails while
    the call is handled.  When the
    [try] block throws, the response is the one the [catch] block builds for
    the error, which bears the error flag or the [error] member, and the
    error is written to the console; when it does not, the response is the
    plain text of the block, which bears neither.  When the schema of the
    tool refuses the arguments, the response has the flag [metadata.error]
    set and lists one entry per issue of the schema, with the path of the
    issue, headed by the name of the property, and its message; no request
    has been sent. *)
Theorem tool_failures_answered (params : CallToolParams) (w : W) :
  let run := call_tool params w in
  let attempt := tool_try show_number perform params w in
  (exists response, result run = inr response)
  /\ (forall e, result attempt = inl e ->
        result run = inr (tool_catch_response e)
        /\ error_shaped (tool_catch_response e) = true
        /\ trace run = trace attempt ++ [ConsoleError "Error executing tool:" e])
  /\ (forall r, result attempt = inr r -> run = attempt /\ error_shaped r = false)
  /\ (forall args issues,
        params_arguments params = Some args ->
        validation_failure show_number (params_name params) args = Some issues ->
        let details := map formatError issues in
        run = {| result :=
                   inr {| res_content :=
                            Some [ {| tc_type := "text";
                                      tc_text :=
                                        text_error "VALIDATION_ERROR"
                                          "Invalid request parameters"
                                          (Some details) |} ];
                          res_metadata := Some {| md_error := true |};
                          res_error := None |};
                 tracker := w;
                 trace := [ConsoleError "Error executing tool:" (ZodError issues)] |}
        /\ map fe_path details = map zod_path issues
        /\ map fe_message details = map zod_message issues
        /\ Forall (fun d => exists k rest, fe_path d = Key k :: rest) details).
Proof.
  intros run attempt.
  assert (Hrun : run = match result attempt with
                       | inl e =>
                         {| result := inr (tool_catch_response e);
                            tracker := tracker attempt;
                            trace := trace attempt
                                     ++ [ConsoleError "Error executing tool:" e] |}
                       | inr _ => attempt
                       end).
  { subst run attempt. unfold CallToolRequest_handler, try_catch.
    destruct (result (tool_try show_number perform params w)); reflexivity. }
  split; [|split; [|split]].
  - rewrite Hrun. destruct (result attempt) as [e|r] eqn:E; eauto.
  - intros e He. rewrite Hrun, He. cbn [result trace].
    split; [reflexivity|]. split; [apply tool_catch_error_shaped | reflexivity].
  - intros r Hr. rewrite Hrun, Hr. split; [reflexivity|].
    subst attempt. apply tool_try_text in Hr as [s ->]. reflexivity.
  - intros args issues Hargs Hfail details. split; [|split; [|split]].
    + subst run. destruct params as [name arguments]. cbn in Hargs, Hfail.
      subst arguments. exact (call_tool_refused _ _ w Hfail).
    + subst details. rewrite map_map. reflexivity.
    + subst details. rewrite map_map. reflexivity.
    + subst details. apply Forall_map. cbn [formatError fe_path].
      exact (validation_failure_keys _ _ Hfail).
Qed.

(** ** The recent issues *)

Lemma promise_all_succeeds {A B} (f : A -> M W B) (l : list A) :
  (forall a w, exists b, result (f a w) = inr b) ->
  forall w, exists rows, result (promise_all (map f l) w) = inr rows.
Proof.
  intros Hf. induction l as [|a l IH]; intros w; simpl.
  - eexists. reflexivity.
  - rewrite bind_run. destruct (Hf a w) as [b ->]. cbn [result].
    rewrite bind_run. destruct (IH (tracker (f a w))) as [rows ->].
    eexists. reflexivity.
Qed.



(** * Further properties *)

(** ** The URI pattern *)

Lemma span_no_colon_spec (s a b : string) :
  span_no_colon s = (a, b) ->
  s = a +:+ b /\ has_colon a = false.
Proof.
  revert a b. induction s as [|c r IH]; intros a b; simpl.
  - intros [= <- <-]. split; reflexivity.
  - destruct (Ascii.eqb c ":"%char) eqn:Hc.
    + intros [= <- <-]. split; reflexivity.
    + destruct (span_no_colon r) as [a' b']. intros [= <- <-].
      destruct (IH a' b' eq_refl) as [-> Hcolon].
      split; [reflexivity|]. simpl. now rewrite Hc.
Qed.

(** The pattern of the handler matches exactly the strings
    [scheme://rest] whose scheme is not empty and has no colon; the path it
    extracts is [rest] up to the first line terminator. *)
Theorem uri_match_iff (uri protocol path : string) :
  uri_match uri = Some (protocol, path) <->
  protocol <> "" /\ has_colon protocol = false
  /\ exists rest, uri = protocol +:+ "://" +:+ rest /\ path = until_line_end rest.
Proof.
  split.
  - unfold uri_match. destruct (span_no_colon uri) as [a b] eqn:Hspan.
    apply span_no_colon_spec in Hspan as [-> Hcolon].
    destruct (String.eqb_spec a ""); [discriminate|].
    destruct (strip_prefix "://" b) as [rest|] eqn:Hstrip; [|discriminate].
    apply strip_prefix_sound in Hstrip as ->. intros [= <- <-].
    split; [assumption|]. split; [assumption|]. now exists rest.
  - intros (Hne & Hcolon & rest & -> & ->). now apply uri_match_scheme.
Qed.

(** ** Reading a resource: routing *)

(** For a scheme without parameter, what is read depends on the scheme
    alone: whatever follows [://] is ignored. *)
Theorem read_parameterless_ignores_path (uri1 uri2 scheme path1 path2 : string)
    (w : W) :
  scheme ∈ parameterless_schemes ->
  uri_match uri1 = Some (scheme, path1) ->
  uri_match uri2 = Some (scheme, path2) ->
  ReadResourceRequest_handler perform uri1 w =
  ReadResourceRequest_handler perform uri2 w.
Proof.
  intros Hin H1 H2. unfold ReadResourceRequest_handler. rewrite H1, H2.
  unfold parameterless_schemes in Hin.
  repeat (apply elem_of_cons in Hin as [->|Hin]; [reflexivity|]).
  now apply elem_of_nil in Hin.
Qed.

Lemma bind_throw {A B} (e : JsError) (k : A -> M W B) (w : W) :
  result ((throw e ≫= k) w) = inl e.
Proof. reflexivity. Qed.

(** A read that succeeds returns one content item, of JSON, whose URI is
    the scheme of the request followed by [://] and, for a scheme with a
    parameter, by the path as the pattern extracted it. *)
Theorem read_success_shape (uri : string) (w : W) (r : ReadResourceResult) :
  result (ReadResourceRequest_handler perform uri w) = inr r ->
  exists protocol path body,
    uri_match uri = Some (protocol, path)
    /\ protocol ∈ recognized_schemes
    /\ r = {| contents :=
                [ {| content_uri :=
                       protocol +:+ "://"
                         +:+ (if is_parameterless protocol then "" else path);
                     content_mimeType := "application/json";
                     content_text := body |} ] |}.
Proof.
  unfold ReadResourceRequest_handler.
  destruct (uri_match uri) as [[protocol path]|]; [|discriminate].
  intros H. exists protocol, path.
  repeat match type of H with
  | context [String.eqb protocol ?lit] =>
    destruct (String.eqb_spec protocol lit) as [->|_]
  end;
  try discriminate;
  try (destruct (truthy_string path); cbn [negb] in H; [|discriminate]);
  try (destruct (get_property priorityMap (toLowerCase path)); [|discriminate]);
  repeat (apply bind_success in H as (? & _ & H));
  cbn [result ret] in H; injection H as <-;
  eexists; (split; [reflexivity|]);
  (split; [unfold recognized_schemes; repeat constructor | reflexivity]).
Qed.

(** A run that begins with a given event. *)
Lemma starts_call (c : Request) (w : W) :
  exists rest, trace (call perform c w) = Sent c :: rest.
Proof. rewrite call_run. now exists []. Qed.

Lemma starts_bind {A B} (m : M W A) (k : A -> M W B) (ev : Event) (w : W) :
  (exists rest, trace (m w) = ev :: rest) ->
  exists rest, trace ((m ≫= k) w) = ev :: rest.
Proof.
  intros [rest Hm]. rewrite bind_run, Hm.
  destruct (result (m w)); cbn [trace app]; eexists; reflexivity.
Qed.

Lemma starts_try_catch {A} (body : M W A) (handler : JsError -> M W A)
    (ev : Event) (w : W) :
  (exists rest, trace (body w) = ev :: rest) ->
  exists rest, trace (try_catch body handler w) = ev :: rest.
Proof.
  intros [rest Hb]. unfold try_catch.
  destruct (result (body w)); cbn [trace]; rewrite Hb; eexists; reflexivity.
Qed.

(** A scheme with a parameter hands the path, as it is, to its operation:
    the first request of the read is the issue or the team of that id, the
    user of that id (or the viewer, for the path [me] in exactly this
    spelling), or the search for that text in titles and descriptions. *)
Theorem read_templated_routing (path : string) (w : W) :
  path <> "" -> until_line_end path = path ->
  (exists rest,
      trace (ReadResourceRequest_handler perform ("linear-issue://" +:+ path) w) =
        Sent (Q_issue path) :: rest)
  /\ (exists rest,
      trace (ReadResourceRequest_handler perform ("linear-team://" +:+ path) w) =
        Sent (Q_team path) :: rest)
  /\ (exists rest,
      trace (ReadResourceRequest_handler perform ("linear-user://" +:+ path) w) =
        Sent (if String.eqb path "me" then Q_viewer else Q_user path) :: rest)
  /\ (exists rest,
      trace (ReadResourceRequest_handler perform ("linear-search://" +:+ path) w) =
        Sent (Q_issues
          {| vars_filter :=
               Some {| filter_or := Some [ on_title (str_contains path);
                                           on_description (str_contains path) ];
                       filter_team := None; filter_state := None;
                       filter_assignee := None; filter_labels := None;
                       filter_priority := None; filter_estimate := None |};
             vars_first := Some 10%Q;
             vars_includeArchived := None;
             vars_orderBy := None |}) :: rest).
Proof.
  intros Hne Hline. pose proof (proj2 (truthy_string_spec path) Hne) as Htruthy.
  assert (Hmatch : forall scheme, scheme <> "" -> has_colon scheme = false ->
            uri_match (scheme +:+ "://" +:+ path) = Some (scheme, path))
    by (intros; rewrite uri_match_scheme, Hline; auto).
  split; [|split; [|split]].
  - unfold ReadResourceRequest_handler.
    change ("linear-issue://" +:+ path) with ("linear-issue" +:+ "://" +:+ path).
    rewrite Hmatch by (discriminate || reflexivity).
    cbn [String.eqb Ascii.eqb Bool.eqb]. rewrite Htruthy. cbn [negb].
    apply starts_bind. unfold getIssue.
    apply starts_bind, (starts_call (Q_issue path)).
  - unfold ReadResourceRequest_handler.
    change ("linear-team://" +:+ path) with ("linear-team" +:+ "://" +:+ path).
    rewrite Hmatch by (discriminate || reflexivity).
    cbn [String.eqb Ascii.eqb Bool.eqb]. rewrite Htruthy. cbn [negb].
    apply starts_bind. unfold getTeamIssues.
    apply starts_bind, (starts_call (Q_team path)).
  - unfold ReadResourceRequest_handler.
    change ("linear-user://" +:+ path) with ("linear-user" +:+ "://" +:+ path).
    rewrite Hmatch by (discriminate || reflexivity).
    cbn [String.eqb Ascii.eqb Bool.eqb]. rewrite Htruthy. cbn [negb].
    apply starts_bind. unfold getUserIssues. apply starts_try_catch.
    cbn [getuser_userId].
    destruct (String.eqb path "me"); [|rewrite Htruthy]; apply starts_bind;
      [apply (starts_call Q_viewer) | apply (starts_call (Q_user path))].
  - unfold ReadResourceRequest_handler.
    change ("linear-search://" +:+ path) with ("linear-search" +:+ "://" +:+ path).
    rewrite Hmatch by (discriminate || reflexivity).
    cbn [String.eqb Ascii.eqb Bool.eqb]. rewrite Htruthy. cbn [negb].
    apply starts_bind.
    destruct (searchIssues_trace (query_only path) w) as (rest & Htrace & _).
    rewrite Htrace. exists rest. do 2 f_equal.
    unfold search_vars, buildSearchFilter, when_truthy.
    cbn [query_only search_query search_teamId search_status search_assigneeId
         search_labels search_priority search_estimate search_limit
         search_includeArchived number_or].
    now rewrite Htruthy.
Qed.

(** ** The priority levels *)

Lemma lower_char_idempotent (c : ascii) : lower_char (lower_char c) = lower_char c.
Proof. destruct c as [[] [] [] [] [] [] [] []]; reflexivity. Qed.

Lemma toLowerCase_idempotent (s : string) :
  toLowerCase (toLowerCase s) = toLowerCase s.
Proof.
  induction s as [|c r IH]; simpl; [reflexivity|].
  now rewrite lower_char_idempotent, IH.
Qed.

Lemma priorityMap_lookup (k : string) :
  priorityMap !! k =
  if String.eqb k "urgent" then Some 1%Q
  else if String.eqb k "high" then Some 2%Q
  else if String.eqb k "medium" then Some 3%Q
  else if String.eqb k "low" then Some 4%Q
  else if String.eqb k "none" then Some 0%Q
  else None.
Proof.
  unfold priorityMap.
  repeat match goal with
  | |- context [String.eqb k ?lit] =>
    destruct (String.eqb_spec k lit) as [->|?]; [reflexivity|]
  end.
  repeat (rewrite lookup_insert_ne by congruence).
  apply lookup_singleton_ne. congruence.
Qed.

(** Whatever the letter case of the level, [priorityMap] answers with a
    number for the five level names and nothing else; with an inherited
    member for [constructor] and [__proto__] and nothing else; and the level
    is refused as invalid in every other case. *)
Theorem priority_level_resolution (level : string) :
  match get_property priorityMap (toLowerCase level) with
  | Some (IsNumber n) =>
    toLowerCase level ∈ priority_level_names
    /\ n = (if String.eqb (toLowerCase level) "urgent" then 1
            else if String.eqb (toLowerCase level) "high" then 2
            else if String.eqb (toLowerCase level) "medium" then 3
            else if String.eqb (toLowerCase level) "low" then 4
            else 0)%Q
  | Some (ProtoMember key) =>
    key = toLowerCase level /\ key ∈ inherited_lowercase_names
  | None =>
    toLowerCase level ∉ priority_level_names ++ inherited_lowercase_names
  end.
Proof.
  pose proof (toLowerCase_idempotent level) as Hidem.
  unfold get_property. rewrite priorityMap_lookup.
  set (k := toLowerCase level) in *.
  repeat match goal with
  | |- context [String.eqb k ?lit] =>
    destruct (String.eqb_spec k lit) as [Hk|?]
  end;
  try (rewrite Hk; split;
       [unfold priority_level_names; repeat constructor | reflexivity]).
  unfold Object_prototype, existsb.
  repeat match goal with
  | |- context [String.eqb k ?lit] =>
    destruct (String.eqb_spec k lit) as [Hk|?]
  end; cbn [orb];
  try (split; [reflexivity|]; rewrite Hk;
       unfold inherited_lowercase_names; repeat constructor);
  try (exfalso; rewrite Hk in Hidem; discriminate Hidem).
  intros Hin. unfold priority_level_names, inherited_lowercase_names in Hin.
  cbn [app] in Hin.
  repeat (apply elem_of_cons in Hin as [Hin|Hin]; [contradiction|]).
  now apply elem_of_nil in Hin.
Qed.

(** ** What is sent *)

Lemma only_try_catch {A} P (body : M W A) (handler : JsError -> M W A) :
  only P body -> (forall e, only P (handler e)) -> only P (try_catch body handler).
Proof.
  intros Hb Hh w. unfold try_catch.
  destruct (result (body w)); [|apply Hb].
  cbn [trace]. apply Forall_app. split; [apply Hb | apply Hh].
Qed.

Lemma only_console_error P label e :
  P (ConsoleError label e) -> only P (console_error (W := W) label e).
Proof. intros H w. repeat constructor. exact H. Qed.

Lemma only_IssuePayload_issue P p :
  (forall id, P (Sent (Q_issue id))) -> only P (IssuePayload_issue perform p).
Proof.
  intros H. unfold IssuePayload_issue. destruct (payload_issue p) as [id|].
  - exact (only_call P (Q_issue id) (H id)).
  - apply only_ret.
Qed.

Lemma only_CommentPayload_comment P p :
  (forall id, P (Sent (Q_comment id))) -> only P (CommentPayload_comment perform p).
Proof.
  intros H. unfold CommentPayload_comment. destruct (payload_comment p) as [id|].
  - exact (only_call P (Q_comment id) (H id)).
  - apply only_ret.
Qed.

Lemma only_Comment_issue P c :
  (forall id, P (Sent (Q_issue id))) -> only P (Comment_issue perform c).
Proof.
  intros H. unfold Comment_issue. destruct (comment_issue c) as [id|].
  - exact (only_call P (Q_issue id) (H id)).
  - apply only_ret.
Qed.

Lemma only_parse {A} P (r : ZResult A) : only P (parse (W := W) r).
Proof. destruct r; [apply only_throw | apply only_ret]. Qed.

(** Goals [only P m] for the methods and handlers: the shape of [m], with
    branches on the data taken apart. *)
Ltac quiet_step :=
  first
    [ apply only_ret
    | apply only_throw
    | apply only_parse
    | match goal with |- only ?P (call _ ?c) => apply (only_call P c) end
    | apply only_console_error
    | apply only_Issue_state; intros ?
    | apply only_Issue_assignee; intros ?
    | apply only_Issue_team; intros ?
    | apply only_IssuePayload_issue; intros ?
    | apply only_CommentPayload_comment; intros ?
    | apply only_Comment_issue; intros ?
    | apply only_promise_all_map; intros ?
    | apply only_try_catch; [|intros ?]
    | apply only_bind; [|intros ?]
    | match goal with
      | |- only _ (match ?x with _ => _ end) => destruct x
      | |- only _ (if ?b then _ else _) => destruct b
      | |- only _ (let '(_, _) := ?x in _) => destruct x
      end ].

Ltac quiet_all := to_only; repeat quiet_step.

Lemma getIssueDetails_reads issue : only not_a_mutation (getIssueDetails perform issue).
Proof. unfold getIssueDetails. quiet_all; reflexivity. Qed.

Lemma listIssues_reads : only not_a_mutation (listIssues perform).
Proof. unfold listIssues, getIssueDetails. quiet_all; reflexivity. Qed.

Lemma getIssue_reads id : only not_a_mutation (getIssue perform id).
Proof. unfold getIssue, getIssueDetails. quiet_all; reflexivity. Qed.

Lemma searchIssues_reads args : only not_a_mutation (searchIssues perform args).
Proof. unfold searchIssues. quiet_all; reflexivity. Qed.

Lemma getUserIssues_reads args : only not_a_mutation (getUserIssues perform args).
Proof. unfold getUserIssues. quiet_all; reflexivity. Qed.

Lemma getTeamIssues_reads id : only not_a_mutation (getTeamIssues perform id).
Proof. unfold getTeamIssues. quiet_all; reflexivity. Qed.

Lemma getViewer_reads : only not_a_mutation (getViewer perform).
Proof. unfold getViewer. quiet_all; reflexivity. Qed.

Lemma getOrganization_reads : only not_a_mutation (getOrganization perform).
Proof. unfold getOrganization. quiet_all; reflexivity. Qed.

(** Reading a resource never changes the tracker: whatever the URI and
    whatever the tracker answers, no mutation is among the requests sent. *)
Theorem read_never_mutates (uri : string) (w : W) :
  Forall not_a_mutation (trace (ReadResourceRequest_handler perform uri w)).
Proof.
  revert w. change (only not_a_mutation (ReadResourceRequest_handler perform uri)).
  unfold ReadResourceRequest_handler.
  destruct (uri_match uri) as [[protocol path]|]; [|apply only_throw].
  repeat match goal with
  | |- only _ (if String.eqb protocol ?lit then _ else _) =>
    destruct (String.eqb protocol lit)
  end;
  repeat first
    [ apply getOrganization_reads | apply getViewer_reads
    | apply getUserIssues_reads | apply searchIssues_reads
    | apply listIssues_reads | apply getIssue_reads
    | apply getTeamIssues_reads | quiet_step ].
Qed.

Lemma count_mutations_app (t1 t2 : list Event) :
  count_mutations (t1 ++ t2) = count_mutations t1 + count_mutations t2.
Proof. unfold count_mutations. now rewrite filter_app, length_app. Qed.

Lemma count_mutations_none (t : list Event) :
  Forall not_a_mutation t -> count_mutations t = 0.
Proof.
  unfold count_mutations. induction 1 as [|ev r Hev _ IH]; [reflexivity|].
  rewrite filter_cons. unfold not_a_mutation in Hev.
  destruct (decide (is_mutation ev = true)); [congruence | exact IH].
Qed.

Lemma reads_at_most_one {A} (m : M W A) :
  only not_a_mutation m -> at_most_one_mutation m.
Proof. intros H w. rewrite (count_mutations_none (H w)). lia. Qed.

Lemma bind_reads_then {A B} (m : M W A) (k : A -> M W B) :
  only not_a_mutation m -> (forall a, at_most_one_mutation (k a)) ->
  at_most_one_mutation (m ≫= k).
Proof.
  intros Hm Hk w. rewrite bind_run. destruct (result (m w)); cbn [trace].
  - rewrite (count_mutations_none (Hm w)). lia.
  - rewrite count_mutations_app, (count_mutations_none (Hm w)). apply Hk.
Qed.

Lemma bind_then_reads {A B} (m : M W A) (k : A -> M W B) :
  at_most_one_mutation m -> (forall a, only not_a_mutation (k a)) ->
  at_most_one_mutation (m ≫= k).
Proof.
  intros Hm Hk w. rewrite bind_run. destruct (result (m w)); cbn [trace].
  - apply Hm.
  - rewrite count_mutations_app, (count_mutations_none (Hk _ _)).
    rewrite Nat.add_0_r. apply Hm.
Qed.

Lemma call_at_most_one (c : Request) : at_most_one_mutation (call perform c).
Proof.
  intros w. rewrite call_run. cbn [trace]. unfold count_mutations.
  rewrite filter_cons, filter_nil. destruct (decide _); simpl; lia.
Qed.

Lemma createIssue_at_most_one args : at_most_one_mutation (createIssue perform args).
Proof.
  unfold createIssue. apply bind_then_reads; [match goal with
     | |- at_most_one_mutation (call _ ?c) => apply (call_at_most_one c)
     end|].
  intros payload. quiet_all; reflexivity.
Qed.

Lemma updateIssue_at_most_one args : at_most_one_mutation (updateIssue perform args).
Proof.
  unfold updateIssue. apply bind_reads_then.
  - exact (only_call not_a_mutation (Q_issue _) eq_refl).
  - intros [issue|]; [|apply reads_at_most_one, only_throw].
    apply bind_then_reads; [match goal with
     | |- at_most_one_mutation (call _ ?c) => apply (call_at_most_one c)
     end|].
    intros payload. quiet_all; reflexivity.
Qed.

Lemma addComment_at_most_one args : at_most_one_mutation (addComment perform args).
Proof.
  unfold addComment. apply bind_then_reads; [match goal with
     | |- at_most_one_mutation (call _ ?c) => apply (call_at_most_one c)
     end|].
  intros payload. quiet_all; reflexivity.
Qed.

Lemma tool_try_at_most_one params :
  at_most_one_mutation (tool_try show_number perform params).
Proof.
  unfold tool_try. destruct (params_arguments params) as [args|];
    [|apply reads_at_most_one, only_throw].
  cbv zeta.
  repeat match goal with
  | |- at_most_one_mutation (if ?b then _ else _) => destruct b
  end;
  try (apply reads_at_most_one, only_throw);
  (apply bind_reads_then; [apply only_parse | intros validated]).
  - apply bind_then_reads; [apply createIssue_at_most_one | intros; apply only_ret].
  - apply bind_then_reads; [apply updateIssue_at_most_one | intros; apply only_ret].
  - apply reads_at_most_one, only_bind;
      [apply searchIssues_reads | intros; apply only_ret].
  - apply reads_at_most_one, only_bind;
      [apply getUserIssues_reads | intros; apply only_ret].
  - apply bind_then_reads; [apply addComment_at_most_one|].
    intros [comment issue]. apply only_ret.
Qed.

(** A tool call sends one mutation at most, whatever the tracker answers:
    nothing is sent again after a failure.  The two listing tools send none. *)
Theorem tool_call_mutates_once (params : CallToolParams) (w : W) :
  count_mutations (trace (CallToolRequest_handler show_number perform params w)) <= 1
  /\ (params_name params = "linear_search_issues"
      \/ params_name params = "linear_get_user_issues" ->
      count_mutations
        (trace (CallToolRequest_handler show_number perform params w)) = 0).
Proof.
  assert (Htrace : forall m : M W CallToolResult,
    count_mutations
      (trace (try_catch m
                (fun error =>
                   _ ← console_error "Error executing tool:" error;
                   ret (tool_catch_response error)) w)) =
    count_mutations (trace (m w))).
  { intros m. unfold try_catch. destruct (result (m w)); [|reflexivity].
    cbn [trace]. rewrite count_mutations_app.
    match goal with
    | |- _ + ?x = _ =>
      assert (x = 0) as -> by (apply count_mutations_none; simpl; repeat constructor)
    end.
    lia. }
  unfold CallToolRequest_handler. rewrite Htrace. split.
  - apply tool_try_at_most_one.
  - intros Hname. apply count_mutations_none.
    refine ((_ : only not_a_mutation (tool_try show_number perform params)) w).
    unfold tool_try. destruct (params_arguments params) as [args|];
      [|apply only_throw].
    cbv zeta. destruct Hname as [-> | ->]; cbn [String.eqb Ascii.eqb Bool.eqb];
      (apply only_bind; [apply only_parse | intros validated]);
      (apply only_bind; [|intros; apply only_ret]).
    + apply searchIssues_reads.
    + apply getUserIssues_reads.
Qed.

(** ** What the listing methods return *)

Lemma count_sent_app (t1 t2 : list Event) :
  count_sent (t1 ++ t2) = count_sent t1 + count_sent t2.
Proof.
  induction t1 as [|[c|label e] r IH]; simpl; [reflexivity| |exact IH].
  now rewrite IH.
Qed.

(** The rows of a listing are in the order of the items, one for each. *)
Lemma promise_all_Forall2 {A B} (f : A -> M W B) (R : A -> B -> Prop)
    (l : list A) (w : W) (rows : list B) :
  (forall a w b, result (f a w) = inr b -> R a b) ->
  result (promise_all (map f l) w) = inr rows ->
  Forall2 R l rows.
Proof.
  intros Hf. revert w rows. induction l as [|a l IH]; intros w rows; simpl.
  - intros [= <-]. constructor.
  - rewrite bind_run. destruct (result (f a w)) as [e|b] eqn:Hb; [discriminate|].
    cbn [result]. rewrite bind_run.
    destruct (result (promise_all (map f l) _)) as [e|rest] eqn:Hrest;
      [discriminate|].
    cbn [result ret]. intros [= <-]. constructor; eauto.
Qed.

Lemma promise_all_count_le {A B} (f : A -> M W B) (k : nat) (l : list A) (w : W) :
  (forall a w, count_sent (trace (f a w)) <= k) ->
  count_sent (trace (promise_all (map f l) w)) <= k * length l.
Proof.
  intros Hf. revert w. induction l as [|a l IH]; intros w; simpl; [lia|].
  rewrite bind_run. pose proof (Hf a w).
  destruct (result (f a w)); cbn [trace]; [lia|].
  rewrite count_sent_app, bind_run. pose proof (IH (tracker (f a w))).
  destruct (result (promise_all _ _)); cbn [trace ret];
    rewrite ?count_sent_app; cbn [count_sent]; lia.
Qed.

Lemma promise_all_count_ge {A B} (f : A -> M W B) (k : nat) (l : list A)
    (w : W) (rows : list B) :
  (forall a w b, result (f a w) = inr b -> k <= count_sent (trace (f a w))) ->
  result (promise_all (map f l) w) = inr rows ->
  k * length l <= count_sent (trace (promise_all (map f l) w)).
Proof.
  intros Hf. revert w rows. induction l as [|a l IH]; intros w rows; simpl; [lia|].
  rewrite !bind_run. destruct (result (f a w)) as [e|b] eqn:Hb; [discriminate|].
  cbn [result trace]. rewrite bind_run.
  destruct (result (promise_all (map f l) _)) as [e|rest] eqn:Hrest;
    [discriminate|].
  intros _. cbn [trace ret]. rewrite !count_sent_app. cbn [count_sent].
  pose proof (Hf _ _ _ Hb). pose proof (IH _ _ Hrest). lia.
Qed.

Lemma count_sent_Issue_state issue w :
  count_sent (trace (Issue_state perform issue w)) <= 1.
Proof.
  unfold Issue_state. destruct (issue_state issue); [|simpl; lia].
  rewrite bind_run, call_run. cbn [result trace].
  destruct (fst (perform _ w)); cbn [trace ret app count_sent]; lia.
Qed.

Lemma count_sent_Issue_assignee issue w :
  count_sent (trace (Issue_assignee perform issue w)) <= 1.
Proof.
  unfold Issue_assignee. destruct (issue_assignee issue); [|simpl; lia].
  rewrite bind_run, call_run. cbn [result trace].
  destruct (fst (perform _ w)); cbn [trace ret app count_sent]; lia.
Qed.

Lemma count_sent_Issue_team issue w :
  count_sent (trace (Issue_team perform issue w)) <= 1.
Proof.
  unfold Issue_team. destruct (issue_team issue); [|simpl; lia].
  rewrite call_run. cbn [trace count_sent]. lia.
Qed.

(** The count of a sequence is at most the sum of the bounds of its parts. *)
Lemma count_sent_bind {A B} (m : M W A) (k : A -> M W B) (i j : nat) (w : W) :
  count_sent (trace (m w)) <= i ->
  (forall a w, count_sent (trace (k a w)) <= j) ->
  count_sent (trace ((m ≫= k) w)) <= i + j.
Proof.
  intros Hm Hk. rewrite bind_run. destruct (result (m w)); cbn [trace]; [lia|].
  rewrite count_sent_app. pose proof (Hk a (tracker (m w))). lia.
Qed.

(** [searchIssues]: a rejected search is thrown as it is.  Of an answer with
    N issues, at most 1 + 3 N requests are sent in all; when the method
    returns, it returns one row per issue, in the order of the answer, with
    the id, identifier, title, description, priority, estimate and URL of
    the issue, and between 1 + N and 1 + 3 N requests have been sent. *)
Theorem searchIssues_rows (args : SearchIssuesArgs) (w : W) :
  let run := searchIssues perform args w in
  match perform (Q_issues (search_vars args)) w with
  | (inl e, w1) =>
    run = {| result := inl e; tracker := w1;
             trace := [Sent (Q_issues (search_vars args))] |}
  | (inr nodes, w1) =>
    count_sent (trace run) <= 1 + 3 * length nodes
    /\ forall rows, result run = inr rows ->
         Forall2 (fun issue row =>
                    row_id row = issue_id issue
                    /\ row_identifier row = issue_identifier issue
                    /\ row_title row = issue_title issue
                    /\ row_description row = issue_description issue
                    /\ row_priority row = issue_priority issue
                    /\ row_estimate row = issue_estimate issue
                    /\ row_url row = issue_url issue) nodes rows
         /\ 1 + length nodes <= count_sent (trace run)
  end.
Proof.
  intros run. subst run. unfold searchIssues. fold (search_vars args).
  rewrite bind_run, call_run.
  destruct (perform (Q_issues (search_vars args)) w) as [[e|nodes] w1];
    cbn [fst snd result tracker trace]; [reflexivity|].
  match goal with
  | |- context [promise_all (map ?f nodes) w1] => set (row_of := f)
  end.
  split.
  - cbn [count_sent app]. apply le_n_S.
    apply promise_all_count_le. intros issue w0. subst row_of. cbv beta.
    change 3 with (1 + (1 + (1 + 0))).
    apply count_sent_bind; [apply count_sent_Issue_state|]. intros state w2.
    apply count_sent_bind; [apply count_sent_Issue_assignee|]. intros assignee w3.
    apply count_sent_bind; [rewrite call_run; cbn; lia|]. intros labels w4.
    cbn. lia.
  - intros rows Hrows. split.
    + eapply (@promise_all_Forall2 _ _ row_of); [|exact Hrows].
      intros issue w0 row. subst row_of. cbv beta.
      intros (state & _ & H)%bind_success.
      apply bind_success in H as (assignee & _ & H).
      apply bind_success in H as (labels & _ & H).
      cbn [result ret] in H. injection H as <-. repeat split.
    + cbn [count_sent app]. apply le_n_S.
      rewrite <- (Nat.mul_1_l (length nodes)).
      eapply (@promise_all_count_ge _ _ row_of 1); [|exact Hrows].
      intros issue w0 row. subst row_of. cbv beta. rewrite !bind_run.
      destruct (result (Issue_state perform issue w0)); [discriminate|].
      cbn [result trace]. rewrite bind_run.
      destruct (result (Issue_assignee perform issue _)); [discriminate|].
      cbn [result trace]. rewrite bind_run, call_run. cbn [result trace].
      intros _. destruct (fst (perform _ _)); cbn [trace ret];
        rewrite !count_sent_app; cbn [count_sent]; lia.
Qed.

(** [getIssue]: a rejected lookup is thrown as it is, and a lookup that
    finds nothing is the error "Issue ... not found", in both cases after
    that one request.  For an issue that is found, the state, assignee and
    team it refers to are fetched, one request each: when the method
    returns, the view has the id, identifier, title, description, priority
    and URL of the issue, and a status, assignee or team only if the issue
    refers to one. *)
Theorem getIssue_outcome (issueId : string) (w : W) :
  let run := getIssue perform issueId w in
  match perform (Q_issue issueId) w with
  | (inl e, w1) =>
    run = {| result := inl e; tracker := w1; trace := [Sent (Q_issue issueId)] |}
  | (inr None, w1) =>
    run = {| result := inl (Error ("Issue " +:+ issueId +:+ " not found"));
             tracker := w1; trace := [Sent (Q_issue issueId)] |}
  | (inr (Some issue), w1) =>
    count_sent (trace run) <= 1 + length (related_ids issue)
    /\ forall view, result run = inr view ->
         count_sent (trace run) = 1 + length (related_ids issue)
         /\ view_id view = issue_id issue
         /\ view_identifier view = issue_identifier issue
         /\ view_title view = issue_title issue
         /\ view_description view = issue_description issue
         /\ view_priority view = issue_priority issue
         /\ view_url view = issue_url issue
         /\ (issue_state issue = None -> view_status view = None)
         /\ (issue_assignee issue = None -> view_assignee view = None)
         /\ (issue_team issue = None -> view_team view = None)
  end.
Proof.
  intros run. subst run. unfold getIssue. rewrite bind_run, call_run.
  destruct (perform (Q_issue issueId) w) as [[e|[issue|]] w1];
    cbn [fst snd result tracker trace throw app]; [reflexivity| |reflexivity].
  unfold getIssueDetails, Issue_state, Issue_assignee, Issue_team, related_ids.
  destruct (issue_state issue) as [sid|] eqn:Hs,
           (issue_assignee issue) as [aid|] eqn:Ha,
           (issue_team issue) as [tid|] eqn:Ht;
    cbn [omap option_bind id mbind length];
    repeat first
      [ rewrite bind_run
      | rewrite call_run
      | progress cbn [result tracker trace ret app count_sent fst snd]
      | match goal with
        | |- context [fst (perform ?c ?w0)] =>
          destruct (perform c w0) as [[?|?] ?]
        end ];
    (split; [simpl; lia|]); intros view [= <-];
    cbn; repeat split; congruence.
Qed.

(** [getTeamIssues]: when the team lookup is rejected or finds nothing, the
    method fails after that one request and the issues are not asked for.
    For a team that is found, the issues of the id the tracker answered are
    asked for; of an answer with N issues at most 2 + 2 N requests are sent,
    and when the method returns, it returns one row per issue, in order. *)
Theorem getTeamIssues_outcome (teamId : string) (w : W) :
  let run := getTeamIssues perform teamId w in
  match perform (Q_team teamId) w with
  | (inl e, w1) =>
    run = {| result := inl e; tracker := w1; trace := [Sent (Q_team teamId)] |}
  | (inr None, w1) =>
    run = {| result := inl (Error ("Team " +:+ teamId +:+ " not found"));
             tracker := w1; trace := [Sent (Q_team teamId)] |}
  | (inr (Some team), w1) =>
    match perform (Q_team_issues (team_id team)) w1 with
    | (inl e, w2) =>
      run = {| result := inl e; tracker := w2;
               trace := [Sent (Q_team teamId); Sent (Q_team_issues (team_id team))] |}
    | (inr issues, w2) =>
      count_sent (trace run) <= 2 + 2 * length issues
      /\ forall rows, result run = inr rows ->
           Forall2 (fun issue row =>
                      trow_id row = issue_id issue
                      /\ trow_identifier row = issue_identifier issue
                      /\ trow_title row = issue_title issue
                      /\ trow_description row = issue_description issue
                      /\ trow_priority row = issue_priority issue
                      /\ trow_url row = issue_url issue) issues rows
    end
  end.
Proof.
  intros run. subst run. unfold getTeamIssues. rewrite bind_run, call_run.
  destruct (perform (Q_team teamId) w) as [[e|[team|]] w1];
    cbn [fst snd result tracker trace throw app]; [reflexivity| |reflexivity].
  rewrite bind_run, call_run.
  destruct (perform (Q_team_issues (team_id team)) w1) as [[e|issues] w2];
    cbn [fst snd result tracker trace app]; [reflexivity|].
  match goal with
  | |- context [promise_all (map ?f issues) w2] => set (row_of := f)
  end.
  split.
  - cbn [count_sent app]. do 2 apply le_n_S.
    apply promise_all_count_le. intros issue w0. subst row_of. cbv beta.
    change 2 with (1 + (1 + 0)).
    apply count_sent_bind; [apply count_sent_Issue_state|]. intros state w3.
    apply count_sent_bind; [apply count_sent_Issue_assignee|]. intros assignee w4.
    cbn. lia.
  - intros rows Hrows.
    eapply (@promise_all_Forall2 _ _ row_of); [|exact Hrows].
    intros issue w0 row. subst row_of. cbv beta.
    intros (state & _ & H)%bind_success.
    apply bind_success in H as (assignee & _ & H).
    cbn [result ret] in H. injection H as <-. repeat split.
Qed.

(** ** Dispatch of a tool call *)

Lemma starts_parse_bind {A B} (a : A) (k : A -> M W B) (ev : Event) (w : W) :
  (exists rest, trace (k a w) = ev :: rest) ->
  exists rest, trace ((parse (inr a) ≫= k) w) = ev :: rest.
Proof. intros H. exact H. Qed.

Lemma listed_tool_names :
  map tool_name (tools ListToolsRequest_handler) =
  [ "linear_create_issue"; "linear_update_issue"; "linear_search_issues";
    "linear_get_user_issues"; "linear_add_comment" ].
Proof. reflexivity. Qed.

(** The names the tool catalog lists are the names the handler serves.  A
    call without arguments is answered "Missing arguments", whatever its
    name; a call of a name that is not listed is answered "Unknown tool",
    with the name; both without any request.  A call of a listed name whose
    arguments its schema accepts goes on to the tracker. *)
Theorem tool_dispatch (name : string) (w : W) :
  CallToolRequest_handler show_number perform
    {| params_name := name; params_arguments := None |} w =
    {| result := inr (error_result "UNKNOWN_ERROR" "Missing arguments" None);
       tracker := w;
       trace := [ConsoleError "Error executing tool:" (Error "Missing arguments")] |}
  /\ (forall args,
        name ∉ map tool_name (tools ListToolsRequest_handler) ->
        CallToolRequest_handler show_number perform
          {| params_name := name; params_arguments := Some args |} w =
        {| result :=
             inr (error_result "UNKNOWN_ERROR" ("Unknown tool: " +:+ name) None);
           tracker := w;
           trace := [ConsoleError "Error executing tool:"
                       (Error ("Unknown tool: " +:+ name))] |})
  /\ (forall args,
        name ∈ map tool_name (tools ListToolsRequest_handler) ->
        validation_failure show_number name args = None ->
        exists c rest,
          trace (CallToolRequest_handler show_number perform
                   {| params_name := name; params_arguments := Some args |} w) =
          Sent c :: rest).
Proof.
  split; [reflexivity|]. split.
  - intros args Hnot. rewrite listed_tool_names in Hnot.
    unfold CallToolRequest_handler, tool_try, try_catch.
    cbn [params_name params_arguments].
    repeat match goal with
    | |- context [String.eqb name ?lit] =>
      destruct (String.eqb_spec name lit) as [->|_];
        [exfalso; apply Hnot; repeat constructor|]
    end.
    reflexivity.
  - intros args Hin Hvalid. rewrite listed_tool_names in Hin.
    unfold validation_failure in Hvalid.
    unfold CallToolRequest_handler, tool_try.
    cbn [params_name params_arguments].
    repeat (apply elem_of_cons in Hin as [->|Hin];
            [cbn [String.eqb Ascii.eqb Bool.eqb] in *|]);
      [ | | | | | now apply elem_of_nil in Hin].
    + destruct (CreateIssueArgsSchema show_number args) as [|v]; [discriminate|].
      eexists. apply starts_try_catch, starts_parse_bind, starts_bind.
      unfold createIssue. apply starts_bind, (starts_call (M_issueCreate _)).
    + destruct (UpdateIssueArgsSchema show_number args) as [|v]; [discriminate|].
      eexists. apply starts_try_catch, starts_parse_bind, starts_bind.
      unfold updateIssue. apply starts_bind, (starts_call (Q_issue _)).
    + destruct (SearchIssuesArgsSchema show_number args) as [|v]; [discriminate|].
      eexists. apply starts_try_catch, starts_parse_bind, starts_bind.
      unfold searchIssues. apply starts_bind, (starts_call (Q_issues _)).
    + destruct (GetUserIssuesArgsSchema show_number args) as [|v]; [discriminate|].
      exists (resolution_request v).
      apply starts_try_catch, starts_parse_bind, starts_bind.
      unfold getUserIssues, resolution_request, truthy_string.
      apply starts_try_catch, starts_bind.
      destruct (getuser_userId v) as [id|]; [destruct (String.eqb id "")|];
        cbn [negb];
        [ apply (starts_call Q_viewer) | apply (starts_call (Q_user id))
        | apply (starts_call Q_viewer) ].
    + destruct (AddCommentArgsSchema args) as [|v]; [discriminate|].
      eexists. apply starts_try_catch, starts_parse_bind, starts_bind.
      unfold addComment. apply starts_bind, (starts_call (M_commentCreate _)).
Qed.

(** Runs a computation on a tracker that rejects every request. *)
Ltac rejected Hrej :=
  repeat first
    [ rewrite bind_run
    | rewrite call_run
    | rewrite log_and_rethrow
    | rewrite Hrej
    | progress cbn [result tracker trace fst snd app parse ret throw
                    console_error count_sent last] ].

(** On a tracker that rejects every request with an error, the call of a
    listed tool whose arguments are accepted sends one request and is
    answered with the response the [catch] block builds for that error:
    none of the methods swallows or replaces the error of the tracker. *)
Theorem tool_call_rejected (name : string) (args : gmap string Json)
    (e : JsError) (w : W) :
  rejects_all perform e ->
  name ∈ map tool_name (tools ListToolsRequest_handler) ->
  validation_failure show_number name args = None ->
  let run := CallToolRequest_handler show_number perform
               {| params_name := name; params_arguments := Some args |} w in
  result run = inr (tool_catch_response e)
  /\ count_sent (trace run) = 1
  /\ last (trace run) = Some (ConsoleError "Error executing tool:" e).
Proof.
  intros Hrej Hin Hvalid run. rewrite listed_tool_names in Hin.
  unfold validation_failure in Hvalid. subst run.
  unfold CallToolRequest_handler, tool_try, try_catch.
  cbn [params_name params_arguments].
  repeat (apply elem_of_cons in Hin as [->|Hin];
          [cbn [String.eqb Ascii.eqb Bool.eqb] in *|]);
    [ | | | | | now apply elem_of_nil in Hin].
  - destruct (CreateIssueArgsSchema show_number args) as [|v]; [discriminate|].
    unfold createIssue. rejected Hrej.
    split; [reflexivity | split; reflexivity].
  - destruct (UpdateIssueArgsSchema show_number args) as [|v]; [discriminate|].
    unfold updateIssue. rejected Hrej.
    split; [reflexivity | split; reflexivity].
  - destruct (SearchIssuesArgsSchema show_number args) as [|v]; [discriminate|].
    unfold searchIssues. rejected Hrej.
    split; [reflexivity | split; reflexivity].
  - destruct (GetUserIssuesArgsSchema show_number args) as [|v]; [discriminate|].
    unfold getUserIssues. rejected Hrej.
    destruct (getuser_userId v) as [id|]; [destruct (truthy_string id)|];
      rejected Hrej;
      (split; [reflexivity | split; reflexivity]).
  - destruct (AddCommentArgsSchema args) as [|v]; [discriminate|].
    unfold addComment. rejected Hrej.
    split; [reflexivity | split; reflexivity].
Qed.

(** ** The schemas against the tool catalog *)

Lemma failure_zap {A B} (f : ZResult (A -> B)) (x : ZResult A) :
  failure (f <&> x) = None <-> failure f = None /\ failure x = None.
Proof. destruct f, x; simpl; intuition discriminate. Qed.

Lemma failure_string (k : string) (args : gmap string Json) :
  failure (field k z_string args) = None <->
  is_Some (args !! k) /\ typed_as "string" None (args !! k).
Proof.
  unfold field, z_string, typed_as.
  destruct (args !! k) as [[]|]; simpl; split; try discriminate; try tauto;
    try (intros [_ ?]; discriminate); try (intros [[? ?] _]; discriminate).
  all: intros _; split; [eexists|]; reflexivity.
Qed.

Lemma failure_optional_string (k : string) (args : gmap string Json) :
  failure (field k (z_optional z_string) args) = None <->
  typed_as "string" None (args !! k).
Proof.
  unfold field, z_optional, z_string, typed_as.
  destruct (args !! k) as [[]|]; simpl; split; try discriminate; tauto.
Qed.

Lemma failure_optional_boolean (k : string) (args : gmap string Json) :
  failure (field k (z_optional z_boolean) args) = None <->
  typed_as "boolean" None (args !! k).
Proof.
  unfold field, z_optional, z_boolean, typed_as.
  destruct (args !! k) as [[]|]; simpl; split; try discriminate; tauto.
Qed.

Lemma failure_optional_number (k : string) (args : gmap string Json) :
  failure (field k (z_optional (z_number show_number [])) args) = None <->
  typed_as "number" None (args !! k).
Proof.
  unfold field, z_optional, z_number, typed_as.
  destruct (args !! k) as [[]|]; simpl; split; try discriminate; tauto.
Qed.

Lemma failure_optional_number_range (k : string) (args : gmap string Json) :
  failure (field k (z_optional (z_number show_number [z_min 0; z_max 4])) args)
    = None <->
  typed_as "number" None (args !! k)
  /\ forall n, args !! k = Some (JNum n) -> (0 <= n)%Q /\ (n <= 4)%Q.
Proof.
  unfold field, z_optional, z_number, typed_as.
  destruct (args !! k) as [[| |n| | |]|]; simpl;
    try (split; [discriminate | intros [? _]; discriminate]);
    try (split; [intros _; split; [exact I | discriminate] | reflexivity]).
  destruct (Qle_bool 0 n) eqn:H0, (Qle_bool n 4) eqn:H4; simpl; split;
    try discriminate;
    try (intros _; split; [reflexivity|]; intros ? [= <-];
         split; now apply Qle_bool_iff);
    intros [_ H]; destruct (H n eq_refl) as [H0' H4'];
    apply Qle_bool_iff in H0', H4'; congruence.
Qed.

Lemma failure_z_elements (path : list PathElem) (i : nat) (l : list Json) :
  failure (z_elements z_string path i l) = None <->
  forallb (json_is "string") l = true.
Proof.
  revert i. induction l as [|x l IH]; intros i; cbn [z_elements forallb].
  - split; reflexivity.
  - rewrite !failure_zap, IH, andb_true_iff. unfold zpure, z_string.
    destruct x; simpl; intuition discriminate.
Qed.

Lemma failure_optional_strings (k : string) (args : gmap string Json) :
  failure (field k (z_optional (z_array z_string)) args) = None <->
  typed_as "array" (Some "string") (args !! k).
Proof.
  unfold field, z_optional, z_array, typed_as.
  destruct (args !! k) as [[| | | |l|]|]; simpl;
    try (split; [discriminate | intros ?; discriminate]);
    try (split; reflexivity).
  rewrite <- (failure_z_elements [Key k] 0 l).
  destruct (z_elements z_string [Key k] 0 l); simpl; tauto.
Qed.

(** What each tool advertises is what its schema enforces: the arguments
    are accepted exactly when every property the descriptor requires is
    there and every advertised property that is there has the advertised
    type; for [linear_create_issue], whose descriptor gives the range of the
    priority only in words, the priority must also lie in 0..4. *)
Theorem advertised_schema_enforced (tool : Tool) (args : gmap string Json) :
  tool ∈ tools ListToolsRequest_handler ->
  (validation_failure show_number (tool_name tool) args = None <->
   conforms (tool_inputSchema tool) args
   /\ (tool_name tool = "linear_create_issue" ->
       forall n, args !! "priority" = Some (JNum n) -> (0 <= n)%Q /\ (n <= 4)%Q)).
Proof.
  intros Hin. cbn [tools ListToolsRequest_handler] in Hin.
  repeat (apply elem_of_cons in Hin as [->|Hin]);
    [ | | | | | now apply elem_of_nil in Hin];
    unfold validation_failure, conforms;
    cbn [tool_name tool_inputSchema createIssueTool updateIssueTool
         searchIssuesTool getUserIssuesTool addCommentTool
         schema_required schema_properties default id
         String.eqb Ascii.eqb Bool.eqb];
    rewrite ?Forall_cons, ?Forall_nil;
    cbn [prop_name prop_type prop_items].
  - unfold CreateIssueArgsSchema.
    rewrite !failure_zap, !failure_string, !failure_optional_string,
      failure_optional_number_range.
    cbn [failure zpure].
    split; [intros H; split; [tauto | intros _; tauto]
           | intros [H1 H2]; specialize (H2 eq_refl); tauto].
  - unfold UpdateIssueArgsSchema.
    rewrite !failure_zap, !failure_string, !failure_optional_string,
      failure_optional_number.
    cbn [failure zpure]. intuition discriminate.
  - unfold SearchIssuesArgsSchema.
    rewrite !failure_zap, !failure_optional_string, !failure_optional_number,
      failure_optional_boolean, failure_optional_strings.
    cbn [failure zpure]. intuition discriminate.
  - unfold GetUserIssuesArgsSchema.
    rewrite !failure_zap, !failure_optional_string, !failure_optional_number,
      failure_optional_boolean.
    cbn [failure zpure]. intuition discriminate.
  - unfold AddCommentArgsSchema.
    rewrite !failure_zap, !failure_string, !failure_optional_string.
    cbn [failure zpure]. intuition discriminate.
Qed.

Lemma field_insert_ne {A} (k k' : string) (s : ZodSchema A) (v : Json)
    (args : gmap string Json) :
  k <> k' -> field k' s (<[k:=v]> args) = field k' s args.
Proof. intros Hne. unfold field. now rewrite lookup_insert_ne. Qed.

(** An argument under a name the tool does not advertise has no effect at
    all: the call is answered as without it, and the same requests are
    sent. *)
Theorem unadvertised_argument_ignored (tool : Tool) (k : string) (v : Json)
    (args : gmap string Json) (w : W) :
  tool ∈ tools ListToolsRequest_handler ->
  k ∉ map prop_name (schema_properties (tool_inputSchema tool)) ->
  CallToolRequest_handler show_number perform
    {| params_name := tool_name tool; params_arguments := Some (<[k:=v]> args) |} w =
  CallToolRequest_handler show_number perform
    {| params_name := tool_name tool; params_arguments := Some args |} w.
Proof.
  intros Hin Hk. cbn [tools ListToolsRequest_handler] in Hin.
  assert (Hne : forall k', k' ∈ map prop_name
                             (schema_properties (tool_inputSchema tool)) ->
                           k <> k')
    by (intros k' Hk' ->; contradiction).
  clear Hk.
  repeat (apply elem_of_cons in Hin as [->|Hin]);
    [ | | | | | now apply elem_of_nil in Hin];
    unfold CallToolRequest_handler, tool_try;
    cbn [params_name params_arguments tool_name createIssueTool
         updateIssueTool searchIssuesTool getUserIssuesTool addCommentTool
         String.eqb Ascii.eqb Bool.eqb];
    cbn [tool_inputSchema schema_properties map prop_name createIssueTool
         updateIssueTool searchIssuesTool getUserIssuesTool addCommentTool] in Hne;
    unfold CreateIssueArgsSchema, UpdateIssueArgsSchema, SearchIssuesArgsSchema,
      GetUserIssuesArgsSchema, AddCommentArgsSchema;
    repeat (rewrite field_insert_ne by (apply Hne; repeat constructor));
    reflexivity.
Qed.

Lemma zap_inr {A B} (f : ZResult (A -> B)) (x : ZResult A) (b : B) :
  f <&> x = inr b -> exists g a, f = inr g /\ x = inr a /\ b = g a.
Proof.
  destruct f as [|g], x as [|a]; try discriminate.
  intros [= <-]. now exists g, a.
Qed.

Lemma field_optional_number (k : string) (args : gmap string Json)
    (a : option number) :
  field k (z_optional (z_number show_number [])) args = inr a ->
  a = json_number (args !! k).
Proof.
  unfold field, z_optional, z_number, json_number.
  destruct (args !! k) as [[]|]; simpl; congruence.
Qed.

Lemma field_optional_boolean (k : string) (args : gmap string Json)
    (a : option bool) :
  field k (z_optional z_boolean) args = inr a -> a = json_boolean (args !! k).
Proof.
  unfold field, z_optional, z_boolean, json_boolean.
  destruct (args !! k) as [[]|]; simpl; congruence.
Qed.

Ltac zap_fields H :=
  repeat (let g := fresh "g" in let a := fresh "a" in let Ha := fresh "Ha" in
          apply zap_inr in H as (g & a & H & Ha & ->)).

(** The search tool passes the caller's numbers on as they are.  The limit
    has no upper bound and may be negative or fractional; only a missing
    limit or 0 becomes 10.  A priority or an estimate of 0 is left out of the
    filter, and [includeArchived] is passed unchanged. *)
Theorem search_tool_request (args : gmap string Json) (w : W) :
  validation_failure show_number "linear_search_issues" args = None ->
  exists filter rest,
    trace (CallToolRequest_handler show_number perform
             {| params_name := "linear_search_issues";
                params_arguments := Some args |} w)
    = Sent (Q_issues
              {| vars_filter := Some filter;
                 vars_first :=
                   Some (match json_number (args !! "limit") with
                         | Some n => if Qeq_bool n 0 then 10%Q else n
                         | None => 10%Q
                         end);
                 vars_includeArchived := json_boolean (args !! "includeArchived");
                 vars_orderBy := None |}) :: rest
    /\ filter_priority filter =
       match json_number (args !! "priority") with
       | Some n => if Qeq_bool n 0 then None else Some (num_eq (IsNumber n))
       | None => None
       end
    /\ filter_estimate filter =
       match json_number (args !! "estimate") with
       | Some n => if Qeq_bool n 0 then None else Some (num_eq (IsNumber n))
       | None => None
       end.
Proof.
  unfold validation_failure. cbn [String.eqb Ascii.eqb Bool.eqb].
  destruct (SearchIssuesArgsSchema show_number args) as [|v] eqn:Hv;
    [discriminate|]. intros _.
  assert (Hstart : exists rest,
    trace (CallToolRequest_handler show_number perform
             {| params_name := "linear_search_issues";
                params_arguments := Some args |} w)
    = Sent (Q_issues
              {| vars_filter := Some (buildSearchFilter v);
                 vars_first := Some (number_or (search_limit v) 10);
                 vars_includeArchived := search_includeArchived v;
                 vars_orderBy := None |}) :: rest).
  { unfold CallToolRequest_handler. apply starts_try_catch.
    unfold tool_try.
    cbn [params_name params_arguments String.eqb Ascii.eqb Bool.eqb].
    rewrite Hv. apply starts_parse_bind, starts_bind.
    unfold searchIssues. apply starts_bind.
    apply (starts_call (Q_issues _)). }
  destruct Hstart as [rest Hstart].
  exists (buildSearchFilter v), rest. rewrite Hstart.
  rewrite buildSearchFilter_priority, buildSearchFilter_estimate.
  unfold SearchIssuesArgsSchema in Hv. zap_fields Hv.
  injection Hv as <-.
  apply field_optional_number in Ha, Ha1, Ha2.
  apply field_optional_boolean in Ha0. subst.
  cbn [search_limit search_includeArchived search_priority search_estimate].
  unfold number_or, when_truthy, truthy_number.
  split; [|split].
  - destruct (json_number (args !! "limit")) as [n|]; [|reflexivity].
    now destruct (Qeq_bool n 0).
  - destruct (json_number (args !! "priority")) as [n|]; [|reflexivity].
    cbn [option_map truthy_numberlike]. unfold truthy_number.
    now destruct (Qeq_bool n 0).
  - destruct (json_number (args !! "estimate")) as [n|]; [|reflexivity].
    now destruct (Qeq_bool n 0).
Qed.

(** ** The resource catalog against the reader *)

Lemma succeeds_ret {A} (a : A) : succeeds (ret a : M W A).
Proof. intros w. now exists a. Qed.

Lemma succeeds_bind {A B} (m : M W A) (k : A -> M W B) :
  succeeds m -> (forall a, succeeds (k a)) -> succeeds (m ≫= k).
Proof.
  intros Hm Hk w. rewrite bind_run. destruct (Hm w) as [a ->].
  destruct (Hk a (tracker (m w))) as [b Hb]. exists b. exact Hb.
Qed.

Lemma succeeds_call (c : Request) : answers perform -> succeeds (call perform c).
Proof.
  intros Hans w. rewrite call_run. cbn [result].
  destruct (Hans c w) as [r Hr]. now exists r.
Qed.

Lemma succeeds_try_catch {A} (body : M W A) (handler : JsError -> M W A) :
  succeeds body -> succeeds (try_catch body handler).
Proof.
  intros Hb w. unfold try_catch. destruct (Hb w) as [a Ha]. rewrite Ha.
  now exists a.
Qed.

Lemma succeeds_promise_all {A B} (f : A -> M W B) (l : list A) :
  (forall a, succeeds (f a)) -> succeeds (promise_all (map f l)).
Proof. intros Hf w. apply promise_all_succeeds. exact Hf. Qed.

Ltac succeed_step Hans :=
  first
    [ apply succeeds_ret
    | match goal with
      | |- succeeds (call _ ?c) => exact (succeeds_call c Hans)
      end
    | apply succeeds_try_catch
    | apply succeeds_promise_all; intros ?
    | apply succeeds_bind; [|intros ?]
    | match goal with
      | |- succeeds (match ?x with _ => _ end) => destruct x
      | |- succeeds (if ?x then _ else _) => destruct x
      end ].

Lemma getViewer_succeeds : answers perform -> succeeds (getViewer perform).
Proof. intros Hans. unfold getViewer. repeat succeed_step Hans. Qed.

Lemma getOrganization_succeeds :
  answers perform -> succeeds (getOrganization perform).
Proof. intros Hans. unfold getOrganization. repeat succeed_step Hans. Qed.

Lemma searchIssues_succeeds (args : SearchIssuesArgs) :
  answers perform -> succeeds (searchIssues perform args).
Proof.
  intros Hans. unfold searchIssues, Issue_state, Issue_assignee.
  repeat succeed_step Hans.
Qed.

Lemma getUserIssues_succeeds (args : GetUserIssuesArgs) :
  answers perform -> succeeds (getUserIssues perform args).
Proof.
  intros Hans. unfold getUserIssues, Issue_state.
  repeat succeed_step Hans.
Qed.

Lemma contents_bind {A} (uri : string) (m : M W A)
    (k : A -> M W ReadResourceResult) :
  succeeds m ->
  (forall a w, exists b, result (k a w) = inr (json_contents uri b)) ->
  forall w, exists b, result ((m ≫= k) w) = inr (json_contents uri b).
Proof.
  intros Hm Hk w. rewrite bind_run. destruct (Hm w) as [a ->]. apply Hk.
Qed.

(** Every resource the catalog lists can be read: when the tracker answers
    every request, reading the listed URI returns one content item under
    that URI and of the listed MIME type. *)
Theorem listed_resources_readable (r : Resource) (w : W) :
  answers perform ->
  r ∈ list_resources ListResourcesRequest_handler ->
  exists body,
    result (ReadResourceRequest_handler perform (resource_uri r) w) =
      inr {| contents := [ {| content_uri := resource_uri r;
                              content_mimeType := resource_mimeType r;
                              content_text := body |} ] |}.
Proof.
  intros Hans Hin.
  change (exists body,
    result (ReadResourceRequest_handler perform (resource_uri r) w) =
      inr (json_contents (resource_uri r) body)
    /\ resource_mimeType r = "application/json") in |- *
  || cut (resource_mimeType r = "application/json"
          /\ exists body,
               result (ReadResourceRequest_handler perform (resource_uri r) w) =
                 inr (json_contents (resource_uri r) body)).
  { intros [-> [body ->]]. now exists body. }
  cbn [list_resources ListResourcesRequest_handler] in Hin.
  revert w.
  repeat (apply elem_of_cons in Hin as [->|Hin]);
    [ | | | | | | | | now apply elem_of_nil in Hin];
    intros w; (split; [reflexivity|]); revert w;
    cbn [resource_uri]; unfold ReadResourceRequest_handler;
    match goal with
    | |- context [uri_match ?u] =>
      let m := eval vm_compute in (uri_match u) in
      change (uri_match u) with m
    end;
    cbn [String.eqb Ascii.eqb Bool.eqb];
    repeat (apply contents_bind;
            [ first [ now apply getViewer_succeeds
                    | now apply getOrganization_succeeds
                    | now apply getUserIssues_succeeds
                    | now apply searchIssues_succeeds ]
            | intros ? ]);
    intros w; eexists; reflexivity.
Qed.

(** ** The prompts *)

Lemma listed_prompt_names :
  map prompt_name (prompts ListPromptsRequest_handler) =
  [ "create-issue"; "bug-report"; "sprint-planning"; "work-status";
    "search-helper" ].
Proof. reflexivity. Qed.

(** The prompts the catalog lists are the prompts served, and no argument
    is checked.  A listed prompt is answered with two text messages, of the
    user and of the assistant, whatever the arguments are, also when an
    argument the catalog marks as required is missing; any other name is
    refused with "Prompt not found".  The request is written to the console
    in both cases. *)
Theorem prompt_dispatch (params : GetPromptParams) :
  let outcome := GetPromptRequest_handler params in
  prompt_logged outcome = ("GetPromptRequestSchema", params)
  /\ (get_name params ∈ map prompt_name (prompts ListPromptsRequest_handler) ->
      exists user assistant,
        prompt_result outcome = inr (two_turns user assistant))
  /\ ((get_name params ∉ map prompt_name (prompts ListPromptsRequest_handler)) ->
      prompt_result outcome =
        inl (Error ("Prompt not found: " +:+ get_name params))).
Proof.
  intros outcome. subst outcome. rewrite listed_prompt_names.
  destruct params as [name arguments].
  unfold GetPromptRequest_handler.
  cbn [prompt_logged prompt_result get_name prompt_name createIssuePrompt
       bugReportPrompt sprintPlanningPrompt workStatusPrompt
       searchHelperPrompt].
  split; [reflexivity|]. split.
  - intros Hin.
    repeat (apply elem_of_cons in Hin as [->|Hin]);
      [ | | | | | now apply elem_of_nil in Hin];
      cbn [String.eqb Ascii.eqb Bool.eqb]; eexists _, _; reflexivity.
  - intros Hout.
    repeat match goal with
    | |- context [String.eqb name ?lit] =>
      destruct (String.eqb_spec name lit) as [->|_];
        [exfalso; apply Hout; repeat constructor|]
    end.
    reflexivity.
Qed.

Lemma string_or_delete (key k d : string) (args : gmap string string) :
  args !! key = Some "" ->
  string_or (delete key args !! k) d = string_or (args !! k) d.
Proof.
  intros Hkey. destruct (decide (key = k)) as [<-|Hne].
  - rewrite lookup_delete_eq, Hkey. reflexivity.
  - now rewrite lookup_delete_ne.
Qed.

(** An argument given as the empty string counts as not given: the prompt
    is the same as without it, and takes the default where there is one.
    The one exception is [teamId] of the sprint planning, which is printed
    as it is. *)
Theorem prompt_empty_argument_omitted (name key : string)
    (args : gmap string string) :
  key <> "teamId" -> args !! key = Some "" ->
  prompt_result (GetPromptRequest_handler
                   {| get_name := name; get_arguments := Some args |}) =
  prompt_result (GetPromptRequest_handler
                   {| get_name := name;
                      get_arguments := Some (delete key args) |}).
Proof.
  intros Hteam Hkey. unfold GetPromptRequest_handler, argument.
  cbn [prompt_result get_name get_arguments].
  pose proof (fun k d => @string_or_delete key k d args Hkey) as Hsame.
  rewrite !Hsame.
  rewrite (lookup_delete_ne args key "teamId") by exact Hteam.
  reflexivity.
Qed.

End Properties.

(** * The theorems at concrete inputs *)

(** ** The search filter *)

(** C1 as stated fails: a [teamId] and [labels] that are supplied, but
    empty, leave no member in the filter. *)
Lemma buildSearchFilter_empty_values_dropped :
  search_teamId args_empty_values = Some ""
  /\ search_labels args_empty_values = Some []
  /\ filter_team (buildSearchFilter args_empty_values) = None
  /\ filter_labels (buildSearchFilter args_empty_values) = None
  /\ buildSearchFilter args_empty_values = empty_filter.
Proof. repeat split. Qed.

(** A search for "crash" in one team, with a label and priority 2: four
    members, and no state clause.  A search for "x" in one team with
    priority 0 keeps the members of the query and of the team. *)
Lemma buildSearchFilter_supplied_fields_witness :
  (filter_or (buildSearchFilter args_crash) =
     Some [on_title (str_contains "crash"); on_description (str_contains "crash")]
   /\ filter_team (buildSearchFilter args_crash) = Some (str_eq "team-1")
   /\ filter_state (buildSearchFilter args_crash) = None
   /\ filter_labels (buildSearchFilter args_crash) = Some (str_in ["bug"])
   /\ filter_priority (buildSearchFilter args_crash) = Some (num_eq (IsNumber 2)))
  /\ (filter_or (buildSearchFilter args_zero_priority) =
        Some [on_title (str_contains "x"); on_description (str_contains "x")]
      /\ filter_team (buildSearchFilter args_zero_priority) =
           Some (str_eq "team-1")).
Proof.
  split.
  - destruct (buildSearchFilter_supplied_fields demo_perform args_crash 0)
      as (Hq & _ & Ht & _ & _ & Hs & _ & _ & Hl & _ & Hpr & _).
    split; [apply Hq; [reflexivity | discriminate]|].
    split; [apply Ht; [reflexivity | discriminate]|].
    split; [apply Hs; left; reflexivity|].
    split; [apply Hl; [reflexivity | discriminate]|].
    apply (Hpr (IsNumber 2)); [reflexivity|].
    intros n [= <-]. discriminate.
  - destruct (buildSearchFilter_supplied_fields demo_perform
                args_zero_priority 0)
      as (Hq & _ & Ht & _).
    split; [apply Hq; [reflexivity | discriminate]|].
    apply Ht; [reflexivity | discriminate].
Defined.

(** ** The priority of a new or updated issue *)

(** C3 as stated fails: a priority of 2.5 is not an integer, and the schema
    of [linear_create_issue] accepts it; the mutation is sent with it. *)
Lemma create_issue_accepts_fraction :
  is_integer 2.5 = false
  /\ CreateIssueArgsSchema show_integer_part json_fraction =
       inr {| create_title := "T"; create_teamId := "X";
              create_description := None; create_priority := Some 2.5%Q;
              create_status := None |}
  /\ trace (CallToolRequest_handler show_integer_part demo_perform
              {| params_name := "linear_create_issue";
                 params_arguments := Some json_fraction |} 0) =
       [ Sent (M_issueCreate {| ic_title := "T"; ic_teamId := "X";
                                ic_description := None;
                                ic_priority := Some 2.5%Q;
                                ic_stateId := None |});
         Sent (Q_issue "id-1") ].
Proof. vm_compute. repeat split. Qed.

(** A priority of 7 on [linear_create_issue]: refused, nothing sent. *)
Lemma priority_validated_witness :
  (exists v, json_seven !! "priority" = Some v
             /\ forall n, v = JNum n -> (n < 0)%Q \/ (4 < n)%Q)
  /\ rejects_priority (CreateIssueArgsSchema show_integer_part json_seven)
  /\ CallToolRequest_handler show_integer_part demo_perform
       {| params_name := "linear_create_issue";
          params_arguments := Some json_seven |} 0 =
     {| result :=
          inr (error_result "VALIDATION_ERROR" "Invalid request parameters"
                 (Some [ {| fe_path := [Key "priority"];
                            fe_message := "Number must be less than or equal to 4";
                            fe_code := "VALIDATION_ERROR" |} ]));
        tracker := 0;
        trace :=
          [ ConsoleError "Error executing tool:"
              (ZodError [ {| zod_code := too_big 4;
                             zod_path := [Key "priority"];
                             zod_message :=
                               "Number must be less than or equal to 4" |} ]) ] |}.
Proof.
  assert (Hbad : exists v, json_seven !! "priority" = Some v
                           /\ forall n, v = JNum n -> (n < 0)%Q \/ (4 < n)%Q).
  { exists (JNum 7). split; [vm_compute; reflexivity|].
    intros n [= <-]. right. reflexivity. }
  destruct (priority_validated show_integer_part demo_perform json_seven 0)
    as (Hcreate & _ & Hcall & _).
  split; [exact Hbad|].
  split; [apply Hcreate, Hbad|].
  rewrite (Hcall (proj2 Hcreate Hbad)). vm_compute. reflexivity.
Defined.

(** ** Creating and updating an issue *)

(** The status "Done" on the answering tracker: it is the [stateId] of both
    mutations. *)
Lemma status_passed_as_stateId_witness :
  create_status create_done = Some "Done"
  /\ update_status update_done = Some "Done"
  /\ (exists rest,
        trace (createIssue demo_perform create_done 0) =
          Sent (M_issueCreate {| ic_title := "T"; ic_teamId := "X";
                                 ic_description := None; ic_priority := None;
                                 ic_stateId := Some "Done" |}) :: rest
        /\ Forall not_a_state_lookup rest)
  /\ (exists rest,
        trace (updateIssue demo_perform update_done 0) =
          Sent (Q_issue "id-1")
          :: Sent (M_issueUpdate "id-1"
                     {| iu_title := None; iu_description := None;
                        iu_priority := None; iu_stateId := Some "Done" |})
          :: rest
        /\ Forall not_a_state_lookup rest).
Proof.
  split; [reflexivity|]. split; [reflexivity|].
  exact (status_passed_as_stateId demo_perform create_done update_done 0
           eq_refl eq_refl).
Defined.

(** ** The "my issues" buckets *)

(** The planned bucket of the viewer of the answering tracker. *)
Lemma my_buckets_witness :
  result (getViewer demo_perform 0) = inr demo_viewer
  /\ viewer_id demo_viewer <> ""
  /\ issue_searches
       (trace (ReadResourceRequest_handler demo_perform "linear-my-planned://" 0)) =
     [ {| vars_filter :=
            Some {| filter_or := None; filter_team := None;
                    filter_state := Some (str_eq "Planned this Cycle");
                    filter_assignee := Some (str_eq "user-1");
                    filter_labels := None; filter_priority := None;
                    filter_estimate := None |};
          vars_first := Some 10%Q;
          vars_includeArchived := None;
          vars_orderBy := None |} ].
Proof.
  assert (Hv : result (getViewer demo_perform 0) = inr demo_viewer)
    by reflexivity.
  assert (Hid : viewer_id demo_viewer <> "") by discriminate.
  split; [exact Hv|]. split; [exact Hid|].
  apply (proj1 (my_buckets demo_perform 0 Hv Hid)
           "linear-my-planned://" "Planned this Cycle").
  simpl. right. left. reflexivity.
Defined.

(** The rows of the two searches are kept as they come: on a tracker that
    answers both with the same two issues, each shows twice. *)
Example high_priority_keeps_duplicates :
  match result (ReadResourceRequest_handler demo_perform
                  "linear-my-high-priority://" 0) with
  | inr {| contents := [ {| content_text := body_search rows |} ] |} =>
    map row_id rows = ["id-1"; "id-2"; "id-1"; "id-2"]
  | _ => False
  end.
Proof. vm_compute. reflexivity. Qed.

(** ** The issues of a user *)

(** C6 as stated fails: with a [userId] that is supplied but empty, the
    viewer is asked for; with a supplied limit of 0 the page size is 50. *)
Lemma getUserIssues_empty_id_zero_limit :
  getuser_userId args_empty_user = Some ""
  /\ getuser_limit args_empty_user = Some 0%Q
  /\ trace (getUserIssues demo_perform args_empty_user 0) =
       [ Sent Q_viewer;
         Sent (Q_user_assignedIssues "user-1"
                 {| vars_filter := None; vars_first := Some 50%Q;
                    vars_includeArchived := None; vars_orderBy := None |});
         Sent (Q_workflowState "state-1") ].
Proof. vm_compute. repeat split. Qed.

(** The user "user-9" with a limit of 5, on the tracker that rejects every
    request: the error is logged and thrown again. *)
Lemma getUserIssues_resolution_witness :
  getuser_userId args_user_nine = Some "user-9"
  /\ getuser_limit args_user_nine = Some 5%Q
  /\ resolution_request args_user_nine = Q_user "user-9"
  /\ user_issues_cap args_user_nine = 5%Q
  /\ getUserIssues offline_perform args_user_nine 0 =
       {| result := inl (ResponseError "Network request failed" None);
          tracker := 0;
          trace := [ Sent (Q_user "user-9");
                     ConsoleError "Error in getUserIssues: "
                       (ResponseError "Network request failed" None) ] |}.
Proof.
  destruct (getUserIssues_resolution offline_perform args_user_nine 0)
    as (Hwho & _ & Hcap & _ & Hrun).
  split; [reflexivity|]. split; [reflexivity|].
  split; [apply Hwho; [reflexivity | discriminate]|].
  split; [apply Hcap; [reflexivity | discriminate]|].
  exact Hrun.
Defined.

(** ** Reading a resource *)

(** C7 as stated fails: the prefix before [://] of [a:b://c] is none of the
    schemes the handler knows, and reading fails with the "Invalid URI
    format" error, not the "Unsupported resource URI" one. *)
Lemma read_colon_scheme_invalid :
  scheme_before_separator "a:b://c" = Some "a:b"
  /\ ("a:b" ∉ recognized_schemes)
  /\ result (ReadResourceRequest_handler demo_perform "a:b://c" 0) =
       inl (Error "Invalid URI format: a:b://c")
  /\ result (ReadResourceRequest_handler demo_perform "a:b://c" 0) <>
       inl (Error "Unsupported resource URI: a:b://c").
Proof.
  split; [reflexivity|]. split; [|split; [reflexivity | discriminate]].
  unfold recognized_schemes. intros H.
  repeat (apply elem_of_cons in H as [H|H]; [discriminate|]).
  now apply elem_of_nil in H.
Qed.

(** A well-formed scheme the handler does not know. *)
Lemma read_unrecognized_scheme_witness :
  scheme_before_separator "ftp://example.org/x" = Some "ftp"
  /\ ("ftp" ∉ recognized_schemes)
  /\ ReadResourceRequest_handler demo_perform "ftp://example.org/x" 0 =
       {| result := inl (Error "Unsupported resource URI: ftp://example.org/x");
          tracker := 0; trace := [] |}.
Proof.
  assert (Hnot : "ftp" ∉ recognized_schemes).
  { unfold recognized_schemes. intros H.
    repeat (apply elem_of_cons in H as [H|H]; [discriminate|]).
    now apply elem_of_nil in H. }
  split; [reflexivity|]. split; [exact Hnot|].
  exact (read_unrecognized_scheme demo_perform "ftp://example.org/x" 0
           eq_refl Hnot).
Defined.

(** ** Failures of a tool call *)

(** C9 as stated fails: not every failing request is answered with an
    error-shaped response.  Only the handler of a tool call has a [catch]
    block.  Reading a URI of an unknown scheme and asking for an unknown
    prompt both end in an error thrown out of the handler, not in a
    response. *)
Lemma read_and_prompt_failures_thrown :
  result (ReadResourceRequest_handler demo_perform "ftp://example.org/x" 0)
    = inl (Error "Unsupported resource URI: ftp://example.org/x")
  /\ (~ exists response,
         result (ReadResourceRequest_handler demo_perform
                   "ftp://example.org/x" 0) = inr response)
  /\ prompt_result (GetPromptRequest_handler
                      {| get_name := "nope"; get_arguments := None |})
    = inl (Error "Prompt not found: nope")
  /\ (~ exists response,
         prompt_result (GetPromptRequest_handler
                          {| get_name := "nope"; get_arguments := None |})
           = inr response).
Proof.
  split; [reflexivity|]. split; [intros [response H]; discriminate H|].
  split; [reflexivity|]. intros [response H]. discriminate H.
Qed.

(** [linear_create_issue] without [teamId]: the flagged envelope, with the
    one violation. *)
Lemma tool_failures_answered_witness :
  params_arguments {| params_name := "linear_create_issue";
                      params_arguments := Some json_no_team |}
    = Some json_no_team
  /\ validation_failure show_integer_part "linear_create_issue" json_no_team =
       Some [ {| zod_code := invalid_type "string" "undefined";
                 zod_path := [Key "teamId"];
                 zod_message := "Required" |} ]
  /\ CallToolRequest_handler show_integer_part demo_perform
       {| params_name := "linear_create_issue";
          params_arguments := Some json_no_team |} 0 =
     {| result :=
          inr {| res_content :=
                   Some [ {| tc_type := "text";
                             tc_text :=
                               text_error "VALIDATION_ERROR"
                                 "Invalid request parameters"
                                 (Some [ {| fe_path := [Key "teamId"];
                                            fe_message := "Required";
                                            fe_code := "VALIDATION_ERROR" |} ]) |} ];
                 res_metadata := Some {| md_error := true |};
                 res_error := None |};
        tracker := 0;
        trace :=
          [ ConsoleError "Error executing tool:"
              (ZodError [ {| zod_code := invalid_type "string" "undefined";
                             zod_path := [Key "teamId"];
                             zod_message := "Required" |} ]) ] |}.
Proof.
  assert (Hfail : validation_failure show_integer_part "linear_create_issue"
                    json_no_team =
                  Some [ {| zod_code := invalid_type "string" "undefined";
                            zod_path := [Key "teamId"];
                            zod_message := "Required" |} ])
    by (vm_compute; reflexivity).
  split; [reflexivity|]. split; [exact Hfail|].
  destruct (tool_failures_answered show_integer_part demo_perform
              {| params_name := "linear_create_issue";
                 params_arguments := Some json_no_team |} 0)
    as (_ & _ & _ & Hrefused).
  exact (proj1 (Hrefused json_no_team _ eq_refl Hfail)).
Defined.

(** ** The recent issues *)


(** ** Further properties at concrete inputs *)

(** The viewer is read the same with and without a path. *)
Lemma read_parameterless_ignores_path_witness :
  ("linear-viewer" ∈ parameterless_schemes)
  /\ uri_match "linear-viewer://" = Some ("linear-viewer", "")
  /\ uri_match "linear-viewer://anything" = Some ("linear-viewer", "anything")
  /\ ReadResourceRequest_handler demo_perform "linear-viewer://" 0 =
     ReadResourceRequest_handler demo_perform "linear-viewer://anything" 0.
Proof.
  assert (Hin : "linear-viewer" ∈ parameterless_schemes)
    by (unfold parameterless_schemes; repeat constructor).
  split; [exact Hin|]. split; [reflexivity|]. split; [reflexivity|].
  exact (@read_parameterless_ignores_path nat demo_perform
           "linear-viewer://" "linear-viewer://anything" "linear-viewer"
           "" "anything" 0 Hin eq_refl eq_refl).
Defined.

(** The content of the viewer resource on the answering tracker. *)
Lemma read_success_shape_witness :
  result (ReadResourceRequest_handler demo_perform "linear-viewer://" 0) =
    inr (json_contents "linear-viewer://" (body_viewer demo_viewer))
  /\ exists protocol path body,
       uri_match "linear-viewer://" = Some (protocol, path)
       /\ protocol ∈ recognized_schemes
       /\ json_contents "linear-viewer://" (body_viewer demo_viewer) =
          {| contents :=
               [ {| content_uri :=
                      protocol +:+ "://"
                        +:+ (if is_parameterless protocol then "" else path);
                    content_mimeType := "application/json";
                    content_text := body |} ] |}.
Proof.
  split; [reflexivity|].
  exact (@read_success_shape nat demo_perform "linear-viewer://" 0
           (json_contents "linear-viewer://" (body_viewer demo_viewer))
           eq_refl).
Defined.

(** Reading [linear-issue://ENG-1] asks for the issue [ENG-1] first. *)
Lemma read_templated_routing_witness :
  "ENG-1" <> ""
  /\ until_line_end "ENG-1" = "ENG-1"
  /\ exists rest,
       trace (ReadResourceRequest_handler demo_perform "linear-issue://ENG-1" 0) =
         Sent (Q_issue "ENG-1") :: rest.
Proof.
  assert (Hne : "ENG-1" <> "") by discriminate.
  split; [exact Hne|]. split; [reflexivity|].
  exact (proj1 (@read_templated_routing nat demo_perform "ENG-1" 0 Hne eq_refl)).
Defined.

(** A valid [linear_create_issue] on the tracker that rejects every
    request: one request, and the response of the [catch] block. *)
Lemma tool_call_rejected_witness :
  rejects_all offline_perform offline_error
  /\ ("linear_create_issue" ∈ map tool_name (tools ListToolsRequest_handler))
  /\ validation_failure show_integer_part "linear_create_issue" json_fraction
     = None
  /\ result (CallToolRequest_handler show_integer_part offline_perform
               {| params_name := "linear_create_issue";
                  params_arguments := Some json_fraction |} 0) =
       inr (tool_catch_response offline_error)
  /\ count_sent
       (trace (CallToolRequest_handler show_integer_part offline_perform
                 {| params_name := "linear_create_issue";
                    params_arguments := Some json_fraction |} 0)) = 1.
Proof.
  assert (Hrej : rejects_all offline_perform offline_error)
    by (intros c w; reflexivity).
  assert (Hin : "linear_create_issue"
                  ∈ map tool_name (tools ListToolsRequest_handler))
    by (cbn; repeat constructor).
  assert (Hok : validation_failure show_integer_part "linear_create_issue"
                  json_fraction = None)
    by (vm_compute; reflexivity).
  split; [exact Hrej|]. split; [exact Hin|]. split; [exact Hok|].
  destruct (@tool_call_rejected show_integer_part nat offline_perform
              "linear_create_issue" json_fraction offline_error 0
              Hrej Hin Hok) as (Hres & Hcount & _).
  split; [exact Hres | exact Hcount].
Defined.

(** [{ title: "T", teamId: "X", priority: 2.5 }] passes the schema of
    [linear_create_issue], so it conforms to what the tool advertises. *)
Lemma advertised_schema_enforced_witness :
  createIssueTool ∈ tools ListToolsRequest_handler
  /\ validation_failure show_integer_part "linear_create_issue" json_fraction
     = None
  /\ conforms (tool_inputSchema createIssueTool) json_fraction.
Proof.
  assert (Hin : createIssueTool ∈ tools ListToolsRequest_handler)
    by (cbn; repeat constructor).
  assert (Hok : validation_failure show_integer_part
                  (tool_name createIssueTool) json_fraction = None)
    by (vm_compute; reflexivity).
  split; [exact Hin|]. split; [exact Hok|].
  exact (proj1 (proj1 (@advertised_schema_enforced show_integer_part
                         createIssueTool json_fraction Hin) Hok)).
Defined.

(** A [color] among the arguments of [linear_create_issue] changes
    nothing. *)
Lemma unadvertised_argument_ignored_witness :
  createIssueTool ∈ tools ListToolsRequest_handler
  /\ ("color" ∉ map prop_name
                  (schema_properties (tool_inputSchema createIssueTool)))
  /\ CallToolRequest_handler show_integer_part demo_perform
       {| params_name := "linear_create_issue";
          params_arguments := Some (<["color" := JStr "red"]> json_fraction) |} 0 =
     CallToolRequest_handler show_integer_part demo_perform
       {| params_name := "linear_create_issue";
          params_arguments := Some json_fraction |} 0.
Proof.
  assert (Hin : createIssueTool ∈ tools ListToolsRequest_handler)
    by (cbn; repeat constructor).
  assert (Hout : "color" ∉ map prop_name
                   (schema_properties (tool_inputSchema createIssueTool))).
  { cbn. intros H.
    repeat (apply elem_of_cons in H as [H|H]; [discriminate H|]).
    now apply elem_of_nil in H. }
  split; [exact Hin|]. split; [exact Hout|].
  exact (@unadvertised_argument_ignored show_integer_part nat demo_perform
           createIssueTool "color" (JStr "red") json_fraction 0 Hin Hout).
Defined.

(** A search with limit 0 and priority 0: ten issues are asked for, and the
    filter has no priority. *)
Lemma search_tool_request_witness :
  validation_failure show_integer_part "linear_search_issues" json_search_zero
    = None
  /\ exists filter rest,
       trace (CallToolRequest_handler show_integer_part demo_perform
                {| params_name := "linear_search_issues";
                   params_arguments := Some json_search_zero |} 0)
       = Sent (Q_issues {| vars_filter := Some filter;
                           vars_first := Some 10%Q;
                           vars_includeArchived := Some true;
                           vars_orderBy := None |}) :: rest
       /\ filter_priority filter = None.
Proof.
  assert (Hok : validation_failure show_integer_part "linear_search_issues"
                  json_search_zero = None)
    by (vm_compute; reflexivity).
  split; [exact Hok|].
  destruct (@search_tool_request show_integer_part nat demo_perform
              json_search_zero 0 Hok) as (filter & rest & Htrace & Hp & _).
  exists filter, rest. split; [exact Htrace | exact Hp].
Defined.

(** The viewer resource on the answering tracker. *)
Lemma listed_resources_readable_witness :
  answers demo_perform
  /\ viewer_resource ∈ list_resources ListResourcesRequest_handler
  /\ exists body,
       result (ReadResourceRequest_handler demo_perform "linear-viewer://" 0) =
         inr {| contents := [ {| content_uri := "linear-viewer://";
                                 content_mimeType := "application/json";
                                 content_text := body |} ] |}.
Proof.
  assert (Hans : answers demo_perform)
    by (intros c w; exists (demo_answer c); reflexivity).
  assert (Hin : viewer_resource ∈ list_resources ListResourcesRequest_handler)
    by (cbn; repeat constructor).
  split; [exact Hans|]. split; [exact Hin|].
  exact (@listed_resources_readable nat demo_perform viewer_resource 0
           Hans Hin).
Defined.

(** [create-issue] with an empty [component] is [create-issue] without
    it. *)
Lemma prompt_empty_argument_omitted_witness :
  "component" <> "teamId"
  /\ prompt_args_empty_component !! "component" = Some ""
  /\ prompt_result (GetPromptRequest_handler
                      {| get_name := "create-issue";
                         get_arguments := Some prompt_args_empty_component |}) =
     prompt_result (GetPromptRequest_handler
                      {| get_name := "create-issue";
                         get_arguments :=
                           Some (delete "component"
                                   prompt_args_empty_component) |}).
Proof.
  assert (Hne : "component" <> "teamId") by discriminate.
  assert (Hkey : prompt_args_empty_component !! "component" = Some "")
    by (vm_compute; reflexivity).
  split; [exact Hne|]. split; [exact Hkey|].
  exact (@prompt_empty_argument_omitted "create-issue" "component"
           prompt_args_empty_component Hne Hkey).
Defined.

(** [sprint-planning] is served without its required [teamId]; [nope] is
    not a prompt. *)
Lemma prompt_dispatch_witness :
  (exists user assistant,
     prompt_result (GetPromptRequest_handler
                      {| get_name := "sprint-planning"; get_arguments := None |})
       = inr (two_turns user assistant))
  /\ prompt_result (GetPromptRequest_handler
                      {| get_name := "nope"; get_arguments := None |})
     = inl (Error "Prompt not found: nope").
Proof.
  split.
  - apply (proj1 (proj2 (prompt_dispatch
             {| get_name := "sprint-planning"; get_arguments := None |}))).
    cbn. repeat constructor.
  - apply (proj2 (proj2 (prompt_dispatch
             {| get_name := "nope"; get_arguments := None |}))).
    cbn. intros H.
    repeat (apply elem_of_cons in H as [H|H]; [discriminate H|]).
    now apply elem_of_nil in H.
Defined.
